(** * Invoice OCR pipeline: a shallow embedding and its properties

    The development follows the layout of the Python sources:
    - [Config]      app/core/config.py
    - [Schema]      app/schemas/invoice.py (validation as pydantic performs it)
    - [Rasterizer]  utils/pdf_rasterizer.py
    - [OcrClient]   app/services/ocr_client.py
    - [Pipeline]    app/services/ocr_pipeline.py
    - [Indexer]     faiss_service/indexer.py
    - [Api]         app/api/main.py

    They are followed by [JsonText] and [Base64] (executable instances of
    library functions), by [PageNames] (reading a page number back from a
    file name), by [Run] (concrete hosts and responses on which the model
    is evaluated), and by the properties, one module per component.

    Python values that come out of [json.loads] are modelled by [json]
    (dictionaries as finite maps keyed by strings), exceptions by
    [exception] with the class hierarchy that the [except] clauses test,
    and side effects by an explicit event log threaded through a small
    state-and-error monad. *)

From Stdlib Require Import ZArith QArith Lia Ascii.
From stdpp Require Import gmap strings list pretty.

Set Warnings "-register-all".

(** ** Python values *)

(** A Python [float]: finite values are kept as exact rationals, which is
    all the ordering tests of the schema look at. *)
Inductive pyfloat :=
| FNan
| FInf (negative : bool)
| FFin (q : Q).

(** The values [json.loads] and [response.json()] produce: [None], [bool],
    [int], [float], [str], [list] and [dict] with string keys. *)
Inductive json :=
| JNull
| JBool (b : bool)
| JInt (z : Z)
| JFloat (f : pyfloat)
| JStr (s : string)
| JArr (l : list json)
| JObj (m : gmap string json).

Definition float_of_int (z : Z) : pyfloat := FFin (inject_Z z).

(** [x < 0.0] on floats; every comparison with NaN is false. *)
Definition float_ltb0 (x : pyfloat) : bool :=
  match x with
  | FNan => false
  | FInf negative => negative
  | FFin q => negb (Qle_bool 0 q)
  end.

(** ** Exceptions *)

Inductive exc_class :=
| Exception
| RuntimeError
| OCRClientError          (* app.services.ocr_client.OCRClientError(RuntimeError) *)
| ValueError
| JSONDecodeError         (* json.JSONDecodeError(ValueError) *)
| ValidationError         (* pydantic.ValidationError(ValueError) *)
| LookupError
| KeyError
| IndexError
| TypeError
| AttributeError
| AssertionError
| OSError
| HTTPError               (* httpx.HTTPError *)
| RequestError            (* httpx.RequestError(HTTPError): timeouts, connection failures *)
| HTTPStatusError         (* httpx.HTTPStatusError(HTTPError) *)
| LibraryError (qualname : string).  (* any other class deriving from Exception *)

Global Instance exc_class_eq_dec : EqDecision exc_class.
Proof. solve_decision. Defined.

Definition base (c : exc_class) : option exc_class :=
  match c with
  | Exception => None
  | OCRClientError => Some RuntimeError
  | JSONDecodeError | ValidationError => Some ValueError
  | KeyError | IndexError => Some LookupError
  | RequestError | HTTPStatusError => Some HTTPError
  | RuntimeError | ValueError | LookupError | TypeError | AttributeError
  | AssertionError | OSError | HTTPError | LibraryError _ => Some Exception
  end.

Fixpoint issubclass_upto (depth : nat) (c d : exc_class) : bool :=
  if decide (c = d) then true
  else match depth with
       | O => false
       | S depth' =>
           match base c with
           | Some b => issubclass_upto depth' b d
           | None => false
           end
       end.

(** No modelled class is more than two steps below [Exception]. *)
Definition issubclass : exc_class -> exc_class -> bool := issubclass_upto 3.

(** An exception instance: class, message and [__cause__] (set by
    [raise ... from ...]). *)
Inductive exception :=
| Exc (cls : exc_class) (msg : string) (cause : option exception).

Definition exc_cls (e : exception) : exc_class := let 'Exc c _ _ := e in c.
Definition exc_msg (e : exception) : string := let 'Exc _ m _ := e in m.
Definition exc_cause (e : exception) : option exception := let 'Exc _ _ c := e in c.

Definition isinstance (e : exception) (c : exc_class) : bool :=
  issubclass (exc_cls e) c.

(** [except (c1, c2, ...)] *)
Definition matches (classes : list exc_class) (e : exception) : bool :=
  existsb (isinstance e) classes.
Arguments matches : simpl never.

(** ** Results of fallible pure code *)

Inductive result (A : Type) :=
| Ok (a : A)
| Raise (e : exception).
Arguments Ok {A} a.
Arguments Raise {A} e.

Definition result_bind {A B} (r : result A) (k : A -> result B) : result B :=
  match r with
  | Ok a => k a
  | Raise e => Raise e
  end.

Definition is_ok {A} (r : result A) : bool :=
  match r with Ok _ => true | Raise _ => false end.

(** ** External libraries

    Functions of libraries the program calls, taken as parameters. *)

(** [json.loads] on a [str]: [None] stands for [json.JSONDecodeError].
    The other ways the decoder of CPython can fail ([RecursionError] on
    very deep nesting, [ValueError] on an integer beyond the digit limit)
    are not modelled: what is proved of decoding is proved of content
    that the decoder returns a value for or rejects with
    [JSONDecodeError]. *)
Class JsonLib := { json_loads : string -> option json }.

(** A calendar date ([datetime.date]). *)
Record date := Date { year : Z; month : Z; day : Z }.

(** The lax-mode coercions of pydantic's core validators whose details the
    schema does not fix: numeric strings and booleans given to a [float]
    field, and the inputs accepted for a [date] field. *)
Class PydanticCore := {
  float_of_str : string -> option pyfloat;
  float_of_bool : bool -> option pyfloat;
  validate_date : json -> option date;
}.

(** ** app/core/config.py *)

Module Config.

Record Settings := {
  deepseek_base_url : string;
  deepseek_model : string;
  deepseek_api_key : string;
  request_timeout_seconds : Z;
  max_request_retries : Z;
  pdf_raster_dpi : Z;
  allowed_origins : list string;
  temp_dir : string;
}.

(** The defaults of the class body. *)
Definition defaults : Settings := {|
  deepseek_base_url := "http://localhost:8000/v1";
  deepseek_model := "deepseek-ai/DeepSeek-OCR";
  deepseek_api_key := "local-placeholder";
  request_timeout_seconds := 120;
  max_request_retries := 3;
  pdf_raster_dpi := 220;
  allowed_origins := ["*"];
  temp_dir := "temp_files";
|}.

End Config.

(** ** app/schemas/invoice.py

    Each pydantic model is a record together with the validator that
    [model_validate] runs on a Python value: a field that is absent takes
    its declared default, a field that is present is validated against its
    annotation, keys that are not fields are ignored, and one failing
    field fails the whole model. *)

Module Schema.

(** *** Validators of the field annotations *)

Section Core.
Context `{!PydanticCore}.

(** [str]: only a string is accepted. *)
Definition validate_str (v : json) : option string :=
  match v with
  | JStr s => Some s
  | _ => None
  end.

(** [float]: numbers, and in lax mode numeric strings and booleans. *)
Definition validate_float (v : json) : option pyfloat :=
  match v with
  | JFloat f => Some f
  | JInt z => Some (float_of_int z)
  | JStr s => float_of_str s
  | JBool b => float_of_bool b
  | _ => None
  end.

(** [Field(ge=0)]: the value is refused when it is below the bound. *)
Definition ge0 (x : pyfloat) : option pyfloat :=
  if float_ltb0 x then None else Some x.

Definition validate_float_ge0 (v : json) : option pyfloat :=
  x ← validate_float v; ge0 x.

(** [Optional[T]] *)
Definition optional {A} (f : json -> option A) (v : json) : option (option A) :=
  match v with
  | JNull => Some None
  | _ => Some <$> f v
  end.

(** [List[T]] *)
Definition list_of {A} (f : json -> option A) (v : json) : option (list A) :=
  match v with
  | JArr l => mapM f l
  | _ => None
  end.

(** [Literal["success", "error"]] *)
Inductive Status := success | error.

Definition validate_status (v : json) : option Status :=
  match v with
  | JStr s =>
      if decide (s = "success") then Some success
      else if decide (s = "error") then Some error
      else None
  | _ => None
  end.

(** A field without default. *)
Definition required {A} (m : gmap string json) (k : string)
    (f : json -> option A) : option A :=
  v ← m !! k; f v.

(** A field with a default (or default factory). *)
Definition with_default {A} (m : gmap string json) (k : string)
    (f : json -> option A) (d : A) : option A :=
  match m !! k with
  | Some v => f v
  | None => Some d
  end.
End Core.

(** *** The models *)

Module InvoiceParty.
Record t := {
  name : option string;
  address : option string;
  tax_id : option string;
  email : option string;
  phone : option string;
}.

(** [InvoiceParty()] *)
Definition default : t :=
  {| name := None; address := None; tax_id := None; email := None; phone := None |}.

Definition validate (v : json) : option t :=
  match v with
  | JObj m =>
      name ← with_default m "name" (optional validate_str) None;
      address ← with_default m "address" (optional validate_str) None;
      tax_id ← with_default m "tax_id" (optional validate_str) None;
      email ← with_default m "email" (optional validate_str) None;
      phone ← with_default m "phone" (optional validate_str) None;
      Some {| name := name; address := address; tax_id := tax_id;
              email := email; phone := phone |}
  | _ => None
  end.
End InvoiceParty.

Module InvoiceLineItem.
Record t := {
  description : string;
  quantity : pyfloat;
  unit_price : pyfloat;
  total : option pyfloat;
}.

Section Validate.
Context `{!PydanticCore}.

Definition validate (v : json) : option t :=
  match v with
  | JObj m =>
      description ← required m "description" validate_str;
      quantity ← required m "quantity" validate_float_ge0;
      unit_price ← required m "unit_price" validate_float_ge0;
      total ← with_default m "total" (optional validate_float_ge0) None;
      Some {| description := description; quantity := quantity;
              unit_price := unit_price; total := total |}
  | _ => None
  end.
End Validate.
End InvoiceLineItem.

Module InvoiceTotals.
Record t := {
  subtotal : option pyfloat;
  tax : option pyfloat;
  discounts : option pyfloat;
  total : option pyfloat;
  currency : option string;
}.

(** [InvoiceTotals()] *)
Definition default : t :=
  {| subtotal := None; tax := None; discounts := None; total := None;
     currency := Some "USD" |}.

Section Validate.
Context `{!PydanticCore}.

Definition validate (v : json) : option t :=
  match v with
  | JObj m =>
      subtotal ← with_default m "subtotal" (optional validate_float_ge0) None;
      tax ← with_default m "tax" (optional validate_float_ge0) None;
      discounts ← with_default m "discounts" (optional validate_float) None;
      total ← with_default m "total" (optional validate_float_ge0) None;
      currency ← with_default m "currency" (optional validate_str) (Some "USD");
      Some {| subtotal := subtotal; tax := tax; discounts := discounts;
              total := total; currency := currency |}
  | _ => None
  end.
End Validate.
End InvoiceTotals.

Module InvoiceData.
Record t := {
  vendor : InvoiceParty.t;
  customer : InvoiceParty.t;
  invoice_number : option string;
  purchase_order : option string;
  invoice_date : option date;
  due_date : option date;
  terms : option string;
  notes : option string;
  line_items : list InvoiceLineItem.t;
  totals : InvoiceTotals.t;
}.

Section Validate.
Context `{!PydanticCore}.

Definition validate (v : json) : option t :=
  match v with
  | JObj m =>
      vendor ← with_default m "vendor" InvoiceParty.validate InvoiceParty.default;
      customer ← with_default m "customer" InvoiceParty.validate InvoiceParty.default;
      invoice_number ← with_default m "invoice_number" (optional validate_str) None;
      purchase_order ← with_default m "purchase_order" (optional validate_str) None;
      invoice_date ← with_default m "invoice_date" (optional validate_date) None;
      due_date ← with_default m "due_date" (optional validate_date) None;
      terms ← with_default m "terms" (optional validate_str) None;
      notes ← with_default m "notes" (optional validate_str) None;
      line_items ← with_default m "line_items" (list_of InvoiceLineItem.validate) [];
      totals ← with_default m "totals" InvoiceTotals.validate InvoiceTotals.default;
      Some {| vendor := vendor; customer := customer;
              invoice_number := invoice_number; purchase_order := purchase_order;
              invoice_date := invoice_date; due_date := due_date;
              terms := terms; notes := notes;
              line_items := line_items; totals := totals |}
  | _ => None
  end.
End Validate.
End InvoiceData.

Module InvoiceOCRResponse.
Record t := {
  schema_version : string;
  status : Status;
  model : string;
  data : InvoiceData.t;
  warnings : list string;
  raw_text : option string;
}.

Section Validate.
Context `{!PydanticCore}.

(** [InvoiceOCRResponse.model_validate]; [None] stands for
    [pydantic.ValidationError]. *)
Definition model_validate (v : json) : option t :=
  match v with
  | JObj m =>
      schema_version ← with_default m "schema_version" validate_str "invoice_v1";
      status ← with_default m "status" validate_status success;
      model ← required m "model" validate_str;
      data ← required m "data" InvoiceData.validate;
      warnings ← with_default m "warnings" (list_of validate_str) [];
      raw_text ← with_default m "raw_text" (optional validate_str) None;
      Some {| schema_version := schema_version; status := status;
              model := model; data := data; warnings := warnings;
              raw_text := raw_text |}
  | _ => None
  end.
End Validate.
End InvoiceOCRResponse.

(** *** The fields declared with [ge=0] *)

Inductive ge0_field :=
| LineItemQuantity (i : nat)
| LineItemUnitPrice (i : nat)
| LineItemTotal (i : nat)
| TotalsSubtotal
| TotalsTax
| TotalsTotal.

Definition as_obj (v : json) : option (gmap string json) :=
  match v with JObj m => Some m | _ => None end.

Definition as_arr (v : json) : option (list json) :=
  match v with JArr l => Some l | _ => None end.

(** The value a payload carries at such a field. *)
Definition member (v : json) (k : string) : option json :=
  m ← as_obj v; m !! k.

Definition element (v : json) (i : nat) : option json :=
  l ← as_arr v; l !! i.

(** The value a payload carries at such a field. *)
Definition field_value (payload : gmap string json) (f : ge0_field) : option json :=
  inner ← payload !! "data";
  let line_item (i : nat) (k : string) : option json :=
    items ← member inner "line_items";
    item ← element items i;
    member item k in
  let totals (k : string) : option json :=
    t ← member inner "totals";
    member t k in
  match f with
  | LineItemQuantity i => line_item i "quantity"
  | LineItemUnitPrice i => line_item i "unit_price"
  | LineItemTotal i => line_item i "total"
  | TotalsSubtotal => totals "subtotal"
  | TotalsTax => totals "tax"
  | TotalsTotal => totals "total"
  end.

(** A number below zero. *)
Definition is_negative (v : json) : bool :=
  match v with
  | JInt z => (z <? 0)%Z
  | JFloat f => float_ltb0 f
  | _ => false
  end.

Definition nonneg (x : pyfloat) : Prop := float_ltb0 x = false.

Definition nonneg_opt (x : option pyfloat) : Prop :=
  match x with Some y => nonneg y | None => True end.

(** No [ge=0] field of the record is below zero. *)
Definition ge0_fields_hold (r : InvoiceOCRResponse.t) : Prop :=
  let inner := InvoiceOCRResponse.data r in
  Forall (fun item =>
            nonneg (InvoiceLineItem.quantity item) /\
            nonneg (InvoiceLineItem.unit_price item) /\
            nonneg_opt (InvoiceLineItem.total item))
         (InvoiceData.line_items inner) /\
  nonneg_opt (InvoiceTotals.subtotal (InvoiceData.totals inner)) /\
  nonneg_opt (InvoiceTotals.tax (InvoiceData.totals inner)) /\
  nonneg_opt (InvoiceTotals.total (InvoiceData.totals inner)).

End Schema.

(** ** Effects

    The collaborators the program talks to (file system, PDF renderer,
    HTTP endpoint) are parameters; every call leaves an event in a log,
    which is the state the program is threaded through. *)

Definition Path := string.
Definition bytes := string.

(** The body of the [chat/completions] request. [temperature] and
    [response_format] are constants and the messages depend on the model
    name and the encoded images only. *)
Record request := { req_model : string; req_images : list string }.

(** An [httpx.Response]: status code and body. *)
Record response := { status_code : Z; text : string }.

Class Host := {
  image : Type;                                        (* a PIL image *)
  mkdtemp : string -> result string;                   (* TemporaryDirectory(prefix=...).name *)
  convert_from_bytes : bytes -> Z -> result (list image);  (* pdf2image *)
  image_save : image -> Path -> result unit;           (* image.save(path, format="PNG") *)
  read_bytes : Path -> result bytes;                   (* Path.read_bytes *)
  b64encode : bytes -> string;                         (* base64.b64encode(...).decode("utf-8") *)
  http_post : request -> nat -> result response;       (* the k-th POST sent by the client, from 0 *)
  tmpdir_cleanup : string -> result unit;              (* TemporaryDirectory.cleanup *)
}.

Inductive event :=
| EvMkdtemp (prefix : string)
| EvConvert (dpi : Z)
| EvSave (path : Path)
| EvRead (path : Path)
| EvPost (body : request)
| EvLogWarning (attempt : Z) (exc : exception)
| EvCleanup (dir : string)
| EvLogDebug (msg : string).

Definition log := list event.

Definition M (A : Type) : Type := log -> result A * log.

Definition ret {A} (a : A) : M A := fun w => (Ok a, w).

Definition bind {A B} (c : M A) (k : A -> M B) : M B :=
  fun w =>
    match c w with
    | (Ok a, w') => k a w'
    | (Raise e, w') => (Raise e, w')
    end.

Definition raise {A} (e : exception) : M A := fun w => (Raise e, w).

(** A call to a collaborator: the event is recorded, then the call returns
    or raises. *)
Definition call {A} (ev : event) (r : result A) : M A := fun w => (r, w ++ [ev]).

Definition lift {A} (r : result A) : M A := fun w => (r, w).

Definition emit (ev : event) : M unit := call ev (Ok tt).

(** [try: body  except classes as exc: handler exc] *)
Definition try_except {A} (body : M A) (classes : list exc_class)
    (handler : exception -> M A) : M A :=
  fun w =>
    match body w with
    | (Ok a, w') => (Ok a, w')
    | (Raise e, w') => if matches classes e then handler e w' else (Raise e, w')
    end.

(** The same for pure code. *)
Definition catch {A} (body : result A) (classes : list exc_class)
    (handler : exception -> result A) : result A :=
  match body with
  | Ok a => Ok a
  | Raise e => if matches classes e then handler e else Raise e
  end.

Declare Scope prog_scope.
Delimit Scope prog_scope with prog.
Notation "'let*' x ':=' c 'in' k" := (bind c (fun x => k))
  (at level 10, x name, c at level 100, k at level 200) : prog_scope.
Notation "c ';;;' k" := (bind c (fun _ => k))
  (at level 100, k at level 200, right associativity) : prog_scope.
Notation "'let?' x ':=' r 'in' k" := (result_bind r (fun x => k))
  (at level 10, x name, r at level 100, k at level 200) : prog_scope.
Open Scope prog_scope.

Definition count_events (p : event -> bool) (w : log) : nat :=
  length (List.filter p w).

(** [w'] extends [w] by events that all satisfy [P]. *)
Definition extends (P : event -> Prop) (w w' : log) : Prop :=
  exists evs, w' = w ++ evs /\ Forall P evs.

(** Kinds of events. *)
Definition raster_event (ev : event) : Prop :=
  match ev with EvMkdtemp _ | EvConvert _ | EvSave _ => True | _ => False end.
Definition loop_event (ev : event) : Prop :=
  match ev with EvPost _ | EvLogWarning _ _ => True | _ => False end.
Definition read_event (ev : event) : Prop :=
  match ev with EvRead _ => True | _ => False end.
Definition client_event (ev : event) : Prop := loop_event ev \/ read_event ev.

Definition is_post (ev : event) : bool :=
  match ev with EvPost _ => true | _ => false end.
Definition is_read (ev : event) : bool :=
  match ev with EvRead _ => true | _ => false end.
Definition is_cleanup (ev : event) : bool :=
  match ev with EvCleanup _ => true | _ => false end.

(** ** utils/pdf_rasterizer.py *)

Module Rasterizer.

Record RasterizedPDF := { image_paths : list Path; _tmpdir : string }.

Section WithHost.
Context `{!Host}.

Definition cleanup (self : RasterizedPDF) : M unit :=
  call (EvCleanup (_tmpdir self)) (tmpdir_cleanup (_tmpdir self)).

(** [f"{idx:03d}"] *)
Definition format_03d (idx : nat) : string :=
  let digits := pretty idx in
  String.concat EmptyString (replicate (3 - String.length digits) "0") +:+ digits.

(** [tmp_path / f"page_{idx:03d}.png"] *)
Definition page_path (tmp_path : Path) (idx : nat) : Path :=
  tmp_path +:+ "/" +:+ "page_" +:+ format_03d idx +:+ ".png".

(** The loop over [enumerate(pil_images, start=1)]; [image_paths] is the
    list built so far. *)
Fixpoint save_pages (tmp_path : Path) (pil_images : list image) (idx : nat)
    (image_paths : list Path) : M (list Path) :=
  match pil_images with
  | [] => ret image_paths
  | image :: rest =>
      let out_path := page_path tmp_path idx in
      call (EvSave out_path) (image_save image out_path) ;;;
      save_pages tmp_path rest (S idx) (image_paths ++ [out_path])
  end.

Definition pdf_bytes_to_images (pdf_bytes : bytes) (dpi : Z) : M RasterizedPDF :=
  let* tmpdir := call (EvMkdtemp "invoice_pages_") (mkdtemp "invoice_pages_") in
  let tmp_path := tmpdir in
  let* pil_images := call (EvConvert dpi) (convert_from_bytes pdf_bytes dpi) in
  let* image_paths := save_pages tmp_path pil_images 1 [] in
  ret {| image_paths := image_paths; _tmpdir := tmpdir |}.

(** [iter_image_bytes]: the items the generator yields when it is
    consumed to its end, as [list(iter_image_bytes(paths))] does; it
    stops at the first read that raises. *)
Fixpoint iter_image_bytes (paths : list Path) : M (list bytes) :=
  match paths with
  | [] => ret []
  | path :: rest =>
      let* content := call (EvRead path) (read_bytes path) in
      let* others := iter_image_bytes rest in
      ret (content :: others)
  end.
End WithHost.

End Rasterizer.

(** ** app/services/ocr_client.py *)

Module OcrClient.
Import Config Schema.

(** *** Python operations used on the completion *)

(** [v[k]] for a string key [k]. *)
Definition getitem (v : json) (k : string) : result json :=
  match v with
  | JObj m =>
      match m !! k with
      | Some x => Ok x
      | None => Raise (Exc KeyError k None)
      end
  | JArr _ => Raise (Exc TypeError "list indices must be integers or slices, not str" None)
  | JStr _ => Raise (Exc TypeError "string indices must be integers, not 'str'" None)
  | _ => Raise (Exc TypeError "object is not subscriptable" None)
  end.

(** [v[0]]. The keys of a dictionary decoded from JSON are strings, so [0]
    is never among them. *)
Definition getitem0 (v : json) : result json :=
  match v with
  | JArr (x :: _) => Ok x
  | JArr [] => Raise (Exc IndexError "list index out of range" None)
  | JStr (String c _) => Ok (JStr (String c EmptyString))
  | JStr EmptyString => Raise (Exc IndexError "string index out of range" None)
  | JObj _ => Raise (Exc KeyError "0" None)
  | _ => Raise (Exc TypeError "object is not subscriptable" None)
  end.

(** [d.setdefault(k, default)] on a dictionary. *)
Definition setdefault (m : gmap string json) (k : string) (default : json)
    : gmap string json :=
  match m !! k with
  | Some _ => m
  | None => <[k := default]> m
  end.

(** [v.setdefault(k, default)] on any value: only a [dict] has the method. *)
Definition call_setdefault (v : json) (k : string) (default : json)
    : result (gmap string json) :=
  match v with
  | JObj m => Ok (setdefault m k default)
  | _ => Raise (Exc AttributeError "object has no attribute 'setdefault'" None)
  end.

Section WithLibs.
Context `{!JsonLib} `{!PydanticCore} `{!Host}.
Variable settings : Settings.

(** [json.loads(content)]: a [str] is decoded, any other value is a
    [TypeError]. *)
Definition loads (content : json) : result json :=
  match content with
  | JStr s =>
      match json_loads s with
      | Some v => Ok v
      | None => Raise (Exc JSONDecodeError "Expecting value" None)
      end
  | _ => Raise (Exc TypeError "the JSON object must be str, bytes or bytearray" None)
  end.

(** [completion["choices"][0]["message"]["content"]] *)
Definition completion_content (completion : json) : result json :=
  let? choices := getitem completion "choices" in
  let? choice := getitem0 choices in
  let? message := getitem choice "message" in
  getitem message "content".

(** The six [setdefault] lines. The first call fails on a value that is
    not a dictionary; after it [data] is known to be one. The last line
    updates the dictionary stored under ["data"] in place. *)
Definition fill_defaults (data : json) : result (gmap string json) :=
  let? data := call_setdefault data "schema_version" (JStr "invoice_v1") in
  let data := setdefault data "status" (JStr "success") in
  let data := setdefault data "model" (JStr (deepseek_model settings)) in
  let data := setdefault data "warnings" (JArr []) in
  let data := setdefault data "data" (JObj ∅) in
  let? inner := getitem (JObj data) "data" in
  let? inner := call_setdefault inner "totals" (JObj ∅) in
  Ok (<["data" := JObj inner]> data).

Definition _parse_completion (completion : json)
    : result InvoiceOCRResponse.t :=
  let? content :=
    catch (completion_content completion) [KeyError; IndexError]
      (fun exc => Raise (Exc OCRClientError "Malformed completion payload" (Some exc))) in
  let? data :=
    catch (loads content) [JSONDecodeError]
      (fun exc => Raise (Exc OCRClientError "Model did not return valid JSON" (Some exc))) in
  let? data := fill_defaults data in
  match InvoiceOCRResponse.model_validate (JObj data) with
  | Some payload => Ok payload
  | None => Raise (Exc ValidationError "validation error for InvoiceOCRResponse" None)
  end.

Definition _encode_image (path : Path) : M string :=
  let* content := call (EvRead path) (read_bytes path) in
  ret (b64encode content).

(** [response.raise_for_status()] *)
Definition raise_for_status (r : response) : result unit :=
  if decide (200 <= status_code r <= 299)%Z then Ok tt
  else Raise (Exc HTTPStatusError "error response" None).

(** [response.json()] *)
Definition response_json (r : response) : result json :=
  match json_loads (text r) with
  | Some v => Ok v
  | None => Raise (Exc JSONDecodeError "Expecting value" None)
  end.

Definition _post_completion (encoded_images : list string) : M json :=
  let body := {| req_model := deepseek_model settings;
                 req_images := encoded_images |} in
  let* response := (fun w => call (EvPost body) (http_post body (count_events is_post w)) w) in
  lift (raise_for_status response) ;;;
  lift (response_json response).

(** [range(lo, hi)] *)
Definition py_range (lo hi : Z) : list Z :=
  map (fun i => (lo + Z.of_nat i)%Z) (seq 0 (Z.to_nat (hi - lo))).

(** One pass of the body of the [try] inside the loop. *)
Definition attempt_once (encoded_images : list string) : M InvoiceOCRResponse.t :=
  let* completion := _post_completion encoded_images in
  lift (_parse_completion completion).

Definition retryable : list exc_class := [HTTPError; OCRClientError; ValidationError].

(** The [for attempt in range(...)] loop followed by the final [raise]. *)
Fixpoint attempts_loop (attempts : list Z) (encoded_images : list string)
    (last_error : option exception) : M InvoiceOCRResponse.t :=
  match attempts with
  | [] => raise (Exc OCRClientError "OCR failed after retries" last_error)
  | attempt :: rest =>
      fun w =>
        match attempt_once encoded_images w with
        | (Ok payload, w') => (Ok payload, w')
        | (Raise exc, w') =>
            if matches retryable exc
            then attempts_loop rest encoded_images (Some exc)
                   (w' ++ [EvLogWarning attempt exc])
            else (Raise exc, w')
        end
  end.

(** [[self._encode_image(path) for path in image_paths]] *)
Fixpoint encode_all (image_paths : list Path) : M (list string) :=
  match image_paths with
  | [] => ret []
  | path :: rest =>
      let* b64 := _encode_image path in
      let* tail := encode_all rest in
      ret (b64 :: tail)
  end.

Definition extract_invoice (image_paths : list Path) : M InvoiceOCRResponse.t :=
  match image_paths with
  | [] => raise (Exc ValueError "Expected at least one image for OCR" None)
  | _ =>
      let* encoded_images := encode_all image_paths in
      attempts_loop (py_range 1 (max_request_retries settings + 1))
        encoded_images None
  end.

(** The completion the [k]-th POST delivers. *)
Definition completion_received (encoded_images : list string) (k : nat)
    : result json :=
  let body := {| req_model := deepseek_model settings;
                 req_images := encoded_images |} in
  let? response := http_post body k in
  let? _ := raise_for_status response in
  response_json response.

(** What the [k]-th POST leads to when the rest of the attempt follows:
    the completion is parsed and validated. *)
Definition attempt_result (encoded_images : list string) (k : nat)
    : result InvoiceOCRResponse.t :=
  let? completion := completion_received encoded_images k in
  _parse_completion completion.

(** The dictionary the content of a completion decodes to. *)
Definition response_object (completion : json) : option (gmap string json) :=
  match completion_content completion with
  | Ok (JStr s) =>
      match json_loads s with
      | Some (JObj m) => Some m
      | _ => None
      end
  | _ => None
  end.


(** The attempt ends in an exception that the loop catches. *)
Definition fails_retryably (r : result InvoiceOCRResponse.t) : Prop :=
  exists exc, r = Raise exc /\ matches retryable exc = true.

Definition error_of {A} (r : result A) : option exception :=
  match r with Ok _ => None | Raise exc => Some exc end.

(** The strings [extract_invoice] sends for readable images. *)
Fixpoint encoded_of (image_paths : list Path) : list string :=
  match image_paths with
  | [] => []
  | path :: rest =>
      match read_bytes path with
      | Ok content => b64encode content :: encoded_of rest
      | Raise _ => encoded_of rest
      end
  end.

Definition readable (path : Path) : Prop := is_ok (read_bytes path) = true.

(** Boilerplate a response may leave out. *)
Record omitted := {
  no_schema_version : bool;
  no_status : bool;
  no_model : bool;
  no_warnings : bool;
  no_totals : bool;
}.

Definition without (k : string) (omit : bool) (m : gmap string json)
    : gmap string json :=
  if omit then delete k m else m.

Definition without_totals (v : json) : json :=
  match v with
  | JObj inner => JObj (delete "totals" inner)
  | _ => v
  end.

(** A response with the chosen boilerplate keys removed. *)
Definition strip (o : omitted) (full : gmap string json) : gmap string json :=
  without "schema_version" (no_schema_version o)
    (without "status" (no_status o)
       (without "model" (no_model o)
          (without "warnings" (no_warnings o)
             (if no_totals o then alter without_totals "data" full else full)))).

(** [InvoiceData] with [totals] as [InvoiceTotals()] builds it. *)
Definition reset_totals (r : InvoiceData.t) : InvoiceData.t :=
  {| InvoiceData.vendor := InvoiceData.vendor r;
     InvoiceData.customer := InvoiceData.customer r;
     InvoiceData.invoice_number := InvoiceData.invoice_number r;
     InvoiceData.purchase_order := InvoiceData.purchase_order r;
     InvoiceData.invoice_date := InvoiceData.invoice_date r;
     InvoiceData.due_date := InvoiceData.due_date r;
     InvoiceData.terms := InvoiceData.terms r;
     InvoiceData.notes := InvoiceData.notes r;
     InvoiceData.line_items := InvoiceData.line_items r;
     InvoiceData.totals := InvoiceTotals.default |}.

(** The record with the defaults of the removed keys. *)
Definition with_boilerplate_defaults (o : omitted) (r : InvoiceOCRResponse.t)
    : InvoiceOCRResponse.t :=
  {| InvoiceOCRResponse.schema_version :=
       if no_schema_version o then "invoice_v1"
       else InvoiceOCRResponse.schema_version r;
     InvoiceOCRResponse.status :=
       if no_status o then success else InvoiceOCRResponse.status r;
     InvoiceOCRResponse.model :=
       if no_model o then deepseek_model settings else InvoiceOCRResponse.model r;
     InvoiceOCRResponse.data :=
       if no_totals o then reset_totals (InvoiceOCRResponse.data r)
       else InvoiceOCRResponse.data r;
     InvoiceOCRResponse.warnings :=
       if no_warnings o then [] else InvoiceOCRResponse.warnings r;
     InvoiceOCRResponse.raw_text := InvoiceOCRResponse.raw_text r |}.

(** The events of the attempt that sends the POST number [p0 + i], when
    the warnings of the loop are numbered from [first]: the request,
    and the warning if the attempt raises an exception that the loop
    catches. *)
Definition attempt_events (encoded_images : list string) (first p0 i : nat)
    : list event :=
  EvPost {| req_model := deepseek_model settings; req_images := encoded_images |}
  :: match attempt_result encoded_images (p0 + i) with
     | Raise exc =>
         if matches retryable exc
         then [EvLogWarning (1 + Z.of_nat (first + i)) exc]
         else []
     | Ok _ => []
     end.

(** The record of a response that carries none of the declared keys. *)
Definition empty_invoice : InvoiceOCRResponse.t :=
  {| InvoiceOCRResponse.schema_version := "invoice_v1";
     InvoiceOCRResponse.status := success;
     InvoiceOCRResponse.model := deepseek_model settings;
     InvoiceOCRResponse.data :=
       {| InvoiceData.vendor := InvoiceParty.default;
          InvoiceData.customer := InvoiceParty.default;
          InvoiceData.invoice_number := None;
          InvoiceData.purchase_order := None;
          InvoiceData.invoice_date := None;
          InvoiceData.due_date := None;
          InvoiceData.terms := None;
          InvoiceData.notes := None;
          InvoiceData.line_items := [];
          InvoiceData.totals := InvoiceTotals.default |};
     InvoiceOCRResponse.warnings := [];
     InvoiceOCRResponse.raw_text := None |}.

(** The default [fill_defaults] gives a top-level key, if any. *)
Definition boilerplate_default (k : string) : option json :=
  if decide (k = "schema_version") then Some (JStr "invoice_v1")
  else if decide (k = "status") then Some (JStr "success")
  else if decide (k = "model") then Some (JStr (deepseek_model settings))
  else if decide (k = "warnings") then Some (JArr [])
  else None.
End WithLibs.

(** The JSON body of the request, as [_post_completion] and
    [_build_messages] assemble it. *)
Section Messages.
Variable settings : Settings.
(** [json.dumps]. Dictionaries are finite maps here, so the order in
    which it writes the keys is left to it. *)
Variable dumps : json -> string.

Definition schema_example : json :=
  JObj {[ "schema_version" := JStr "invoice_v1";
          "status" := JStr "success";
          "model" := JStr (deepseek_model settings);
          "data" :=
            JObj {[ "vendor" := JObj {[ "name" := JStr EmptyString;
                                        "address" := JStr EmptyString;
                                        "tax_id" := JStr EmptyString ]};
                    "customer" := JObj {[ "name" := JStr EmptyString ]};
                    "invoice_number" := JStr EmptyString;
                    "purchase_order" := JStr EmptyString;
                    "invoice_date" := JStr "YYYY-MM-DD";
                    "due_date" := JStr "YYYY-MM-DD";
                    "terms" := JStr EmptyString;
                    "notes" := JStr EmptyString;
                    "line_items" :=
                      JArr [JObj {[ "description" := JStr EmptyString;
                                    "quantity" := JInt 0;
                                    "unit_price" := JInt 0;
                                    "total" := JInt 0 ]}];
                    "totals" := JObj {[ "subtotal" := JInt 0;
                                        "tax" := JInt 0;
                                        "discounts" := JInt 0;
                                        "total" := JInt 0;
                                        "currency" := JStr "USD" ]} ]};
          "warnings" := JArr [] ]}.

Definition system_prompt : string :=
  "You are DeepSeek-OCR fine-tuned for invoices. Always output valid JSON "
  +:+ "matching the provided schema and NEVER include prose.".

Definition text_part : json :=
  JObj {[ "type" := JStr "text";
          "text" :=
            JStr ("Extract structured invoice data. Respond with STRICT JSON only. "
                  +:+ "Schema example: " +:+ dumps schema_example +:+ ".") ]}.

Definition image_part (encoded : string) : json :=
  JObj {[ "type" := JStr "image_url";
          "image_url" :=
            JObj {[ "url" := JStr ("data:image/png;base64," +:+ encoded) ]} ]}.

(** The loop [for encoded in encoded_images: user_content.append(...)]. *)
Fixpoint append_images (user_content : list json) (encoded_images : list string)
    : list json :=
  match encoded_images with
  | [] => user_content
  | encoded :: rest => append_images (user_content ++ [image_part encoded]) rest
  end.

Definition _build_messages (encoded_images : list string) : json :=
  let user_content := append_images [text_part] encoded_images in
  JArr [JObj {[ "role" := JStr "system"; "content" := JStr system_prompt ]};
        JObj {[ "role" := JStr "user"; "content" := JArr user_content ]}].

(** The dictionary [body] of [_post_completion]. *)
Definition post_body (encoded_images : list string) : json :=
  JObj {[ "model" := JStr (deepseek_model settings);
          "messages" := _build_messages encoded_images;
          "temperature" := JInt 0;
          "response_format" := JObj {[ "type" := JStr "json_object" ]} ]}.

(** The record that stands for this body in [EvPost] and [http_post]. *)
Definition request_of (encoded_images : list string) : request :=
  {| req_model := deepseek_model settings; req_images := encoded_images |}.
End Messages.

End OcrClient.

(** ** app/services/ocr_pipeline.py *)

Module Pipeline.
Import Config Schema Rasterizer OcrClient.

Section WithLibs.
Context `{!JsonLib} `{!PydanticCore} `{!Host}.
Variable settings : Settings.

(** The [try] block of [run]; the second component is the value of the
    local variable [rasterized] when the block is left. *)
Definition run_try (pdf_bytes : bytes)
    : log -> (result InvoiceOCRResponse.t * option RasterizedPDF) * log :=
  fun w =>
    match pdf_bytes_to_images pdf_bytes (pdf_raster_dpi settings) w with
    | (Raise exc, w') => ((Raise exc, None), w')
    | (Ok rasterized, w') =>
        let '(result, w'') := extract_invoice settings (image_paths rasterized) w' in
        ((result, Some rasterized), w'')
    end.

(** The [finally] block. A dataclass instance is always truthy, so
    [if rasterized] tests that the variable is not [None]. *)
Definition run_finally (rasterized : option RasterizedPDF) : M unit :=
  match rasterized with
  | Some r =>
      try_except (cleanup r) [Exception]
        (fun _ => emit (EvLogDebug "Failed to cleanup temp files"))
  | None => ret tt
  end.

(** [try: ... finally: ...]: an exception of the [finally] block would
    replace the outcome of the [try] block. *)
Definition run (pdf_bytes : bytes) : M InvoiceOCRResponse.t :=
  fun w =>
    let '((result, rasterized), w') := run_try pdf_bytes w in
    match run_finally rasterized w' with
    | (Ok _, w'') => (result, w'')
    | (Raise exc, w'') => (Raise exc, w'')
    end.
End WithLibs.

End Pipeline.

(** ** faiss_service/indexer.py *)

Module Indexer.
Import Schema.

(** A numpy array of rank one or two. *)
Inductive ndarray (F : Type) :=
| Vec (v : list F)
| Mat (ncols : nat) (rows : list (list F)).
Arguments Vec {F} v.
Arguments Mat {F} ncols rows.

(** [faiss.IndexFlatIP]: the dimension and the stored vectors. *)
Record IndexFlatIP (F : Type) := { d : nat; xb : list (list F) }.
Arguments d {F} _.
Arguments xb {F} _.

(** The libraries behind the index: pydantic's [model_dump], [json.dumps],
    the sentence-transformer (built on first use) and the similarity
    search of FAISS, which returns the arrays [(distances, indices)]. *)
Class IndexLibs := {
  scalar : Type;
  Dict : Type;
  model_dump : InvoiceOCRResponse.t -> Dict;
  json_dumps : Dict -> result string;
  encode : list string -> result (ndarray scalar);
  search : IndexFlatIP scalar -> ndarray scalar -> Z ->
           result (list (list scalar) * list (list Z));
}.

Section WithLibs.
Context `{!IndexLibs}.

Record IndexedInvoice := { payload : Dict; raw_text : string }.

(** The attributes of the object but [_embedder], the cache of the
    [embedder] property: building the embedder on first use and
    encoding are one call here, [encode], whose failure stands for the
    failure of either. What is proved of a state is proved of these
    four attributes. *)
Record InvoiceFaissIndex := {
  model_name : string;
  _index : option (IndexFlatIP scalar);
  _dimension : option nat;
  _store : list IndexedInvoice;
}.

(** [InvoiceFaissIndex(model_name)] *)
Definition new (model_name : string) : InvoiceFaissIndex :=
  {| model_name := model_name; _index := None; _dimension := None; _store := [] |}.

Definition ntotal (ix : IndexFlatIP scalar) : nat := length (xb ix).

(** [np.expand_dims(embeddings, axis=0)] when [embeddings.ndim == 1]. *)
Definition as_2d (a : ndarray scalar) : ndarray scalar :=
  match a with
  | Vec v => Mat (length v) [v]
  | Mat _ _ => a
  end.

(** [a.shape] of a rank-two array. *)
Definition shape0 (a : ndarray scalar) : nat :=
  match a with Vec v => length v | Mat _ rows => length rows end.
Definition shape1 (a : ndarray scalar) : result nat :=
  match a with
  | Vec _ => Raise (Exc IndexError "tuple index out of range" None)
  | Mat ncols _ => Ok ncols
  end.

(** [index.add(x)]: the wrapper asserts that the row length is the
    dimension of the index, then appends every row. *)
Definition index_add (ix : IndexFlatIP scalar) (x : ndarray scalar)
    : result (IndexFlatIP scalar) :=
  match x with
  | Mat ncols rows =>
      if decide (ncols = d ix) then Ok {| d := d ix; xb := xb ix ++ rows |}
      else Raise (Exc AssertionError "assert d == self.d" None)
  | Vec _ => Raise (Exc ValueError "not enough values to unpack" None)
  end.

Definition _ensure_index (self : InvoiceFaissIndex) (dim : nat) : InvoiceFaissIndex :=
  match _index self with
  | None =>
      {| model_name := model_name self;
         _index := Some {| d := dim; xb := [] |};
         _dimension := Some dim;
         _store := _store self |}
  | Some _ => self
  end.

(** [[json.dumps(invoice.model_dump(), ensure_ascii=False) for invoice in invoices]] *)
Fixpoint dump_all (invoices : list InvoiceOCRResponse.t) : result (list string) :=
  match invoices with
  | [] => Ok []
  | invoice :: rest =>
      let? blob := json_dumps (model_dump invoice) in
      let? blobs := dump_all rest in
      Ok (blob :: blobs)
  end.

(** The loop over [zip(invoices, texts)] appending to [store]. *)
Fixpoint append_all (store : list IndexedInvoice)
    (invoices : list InvoiceOCRResponse.t) (texts : list string)
    : list IndexedInvoice :=
  match invoices, texts with
  | invoice :: invoices', blob :: texts' =>
      append_all (store ++ [{| payload := model_dump invoice; raw_text := blob |}])
        invoices' texts'
  | _, _ => store
  end.

(** A method returns its outcome and the state it leaves the object in. *)
Definition add_invoices (self : InvoiceFaissIndex)
    (invoices : list InvoiceOCRResponse.t) : result unit * InvoiceFaissIndex :=
  match invoices with
  | [] => (Ok tt, self)
  | _ =>
      match dump_all invoices with
      | Raise exc => (Raise exc, self)
      | Ok texts =>
          match encode texts with
          | Raise exc => (Raise exc, self)
          | Ok embeddings =>
              let embeddings := as_2d embeddings in
              match shape1 embeddings with
              | Raise exc => (Raise exc, self)
              | Ok dim =>
                  let self := _ensure_index self dim in
                  match _index self with
                  | None => (Raise (Exc AttributeError "'NoneType' object has no attribute 'add'" None), self)
                  | Some ix =>
                      match index_add ix embeddings with
                      | Raise exc => (Raise exc, self)
                      | Ok ix' =>
                          (Ok tt,
                           {| model_name := model_name self;
                              _index := Some ix';
                              _dimension := _dimension self;
                              _store := append_all (_store self) invoices texts |})
                      end
                  end
              end
          end
      end
  end.

Record hit := { score : scalar; invoice : Dict }.

(** [a[0]] on one of the arrays returned by [search]. *)
Definition row0 {A} (a : list (list A)) : result (list A) :=
  match a with
  | r :: _ => Ok r
  | [] => Raise (Exc IndexError "index 0 is out of bounds for axis 0 with size 0" None)
  end.

(** The loop over [zip(indices[0], distances[0])]. *)
Fixpoint collect (store : list IndexedInvoice) (indices : list Z)
    (distances : list scalar) (results : list hit) : list hit :=
  match indices, distances with
  | idx :: indices', score :: distances' =>
      if decide (idx < 0 \/ idx >= Z.of_nat (length store))%Z
      then collect store indices' distances' results
      else
        match store !! Z.to_nat idx with
        | Some entry =>
            collect store indices' distances'
              (results ++ [{| score := score; invoice := payload entry |}])
        | None => collect store indices' distances' results
        end
  | _, _ => results
  end.

Definition query (self : InvoiceFaissIndex) (query_text : string) (top_k : Z)
    : result (list hit) :=
  match _index self with
  | None => Ok []
  | Some ix =>
      let? embedding := encode [query_text] in
      let? found := search ix embedding top_k in
      let '(distances, indices) := found in
      let? indices0 := row0 indices in
      let? distances0 := row0 distances in
      Ok (collect (_store self) indices0 distances0 [])
  end.

Definition drop (self : InvoiceFaissIndex) : InvoiceFaissIndex :=
  {| model_name := model_name self; _index := None; _dimension := None; _store := [] |}.

(** The element count of the similarity structure; nothing is stored
    while no index exists. *)
Definition index_size (self : InvoiceFaissIndex) : nat :=
  match _index self with
  | Some ix => ntotal ix
  | None => 0
  end.

(** A call made on the index by a client. *)
Inductive op :=
| AddInvoices (invoices : list InvoiceOCRResponse.t)
| Drop.

Definition apply_op (self : InvoiceFaissIndex) (o : op) : InvoiceFaissIndex :=
  match o with
  | AddInvoices invoices => snd (add_invoices self invoices)
  | Drop => drop self
  end.

(** The states the index goes through, one per call. *)
Fixpoint states_after (self : InvoiceFaissIndex) (ops : list op)
    : list InvoiceFaissIndex :=
  match ops with
  | [] => []
  | o :: rest => let self' := apply_op self o in self' :: states_after self' rest
  end.

(** The two parallel structures have the same number of entries. *)
Definition lockstep (self : InvoiceFaissIndex) : Prop :=
  index_size self = length (_store self).

(** What the embedder is relied on for: one vector per string. *)
Definition one_vector_per_text : Prop :=
  forall texts a, encode texts = Ok a -> shape0 (as_2d a) = length texts.

(** The rows of an array of rank two. *)
Definition rows_of (a : ndarray scalar) : list (list scalar) :=
  match a with
  | Vec v => [v]
  | Mat _ rows => rows
  end.

(** The vectors an index holds. *)
Definition vectors (self : InvoiceFaissIndex) : list (list scalar) :=
  match _index self with
  | Some ix => xb ix
  | None => []
  end.

(** The state a sequence of calls leaves. *)
Definition state_after (self : InvoiceFaissIndex) (ops : list op)
    : InvoiceFaissIndex :=
  fold_left apply_op ops self.

(** The invoices handed to [add_invoices] since the last [drop]. *)
Fixpoint since_last_drop (ops : list op) (held : list InvoiceOCRResponse.t)
    : list InvoiceOCRResponse.t :=
  match ops with
  | [] => held
  | AddInvoices invoices :: rest => since_last_drop rest (held ++ invoices)
  | Drop :: rest => since_last_drop rest []
  end.

(** One of the invoices [held] is behind the store entry: the entry
    holds its dump and the JSON text of that dump. *)
Definition entry_of (held : list InvoiceOCRResponse.t) (entry : IndexedInvoice)
    : Prop :=
  exists invoice,
    invoice ∈ held /\
    payload entry = model_dump invoice /\
    json_dumps (model_dump invoice) = Ok (raw_text entry).

(** What the search is relied on for: no more than [k] positions for a
    query. *)
Definition at_most_k_positions : Prop :=
  forall ix embedding k distances indices,
    search ix embedding k = Ok (distances, indices) ->
    Forall (fun row => length row <= Z.to_nat k) indices.

(** The hit of one returned position, if it is one of the store. *)
Definition hit_of (store : list IndexedInvoice) (found : Z * scalar) : option hit :=
  let '(idx, score) := found in
  if decide (0 <= idx < Z.of_nat (length store))%Z
  then entry ← store !! Z.to_nat idx;
       Some {| score := score; invoice := payload entry |}
  else None.
End WithLibs.

End Indexer.

(** ** app/api/main.py

    The endpoints of the FastAPI application, as functions of the
    arguments FastAPI hands them and of the two objects [get_app] creates
    once: the pipeline (whose effects go to the event log) and the index. *)

(** The lax-mode coercions of pydantic's [int] validator on values that
    are not integers already. *)
Class PydanticInt := {
  int_of_str : string -> option Z;
  int_of_float : pyfloat -> option Z;
  int_of_bool : bool -> option Z;
}.

Module Api.
Import Config Schema Rasterizer OcrClient Pipeline Indexer.

(** [fastapi.HTTPException(status_code=..., detail=...)] and its
    [__cause__]. *)
Record HTTPException := {
  http_status : Z;
  detail : string;
  http_cause : option exception;
}.

(** How a call of an endpoint ends: it returns a value, raises an
    [HTTPException], or lets another exception through. *)
Inductive outcome (A : Type) :=
| Returned (a : A)
| Refused (h : HTTPException)
| Failed (exc : exception).
Arguments Returned {A} a.
Arguments Refused {A} h.
Arguments Failed {A} exc.

(** The part of an [UploadFile] the endpoint looks at: the declared
    content type ([None] when the part carries none) and what
    [file.read()] returns. *)
Record UploadFile := { content_type : option string; content : bytes }.

Module FaissQuery.
Record t := { query_text : string; top_k : Z }.

Section Validate.
Context `{!PydanticInt}.

(** [int] *)
Definition validate_int (v : json) : option Z :=
  match v with
  | JInt z => Some z
  | JStr s => int_of_str s
  | JFloat f => int_of_float f
  | JBool b => int_of_bool b
  | _ => None
  end.

(** [Field(ge=1, le=20)] *)
Definition in_bounds (z : Z) : option Z :=
  if decide (1 <= z)%Z then if decide (z <= 20)%Z then Some z else None
  else None.

Definition model_validate (v : json) : option t :=
  match v with
  | JObj m =>
      query_text ← required m "query_text" validate_str;
      top_k ← with_default m "top_k" (fun v => z ← validate_int v; in_bounds z) 3%Z;
      Some {| query_text := query_text; top_k := top_k |}
  | _ => None
  end.
End Validate.
End FaissQuery.

Module FaissIndexPayload.
Record t := { invoice : InvoiceOCRResponse.t }.

Section Validate.
Context `{!PydanticCore}.

Definition model_validate (v : json) : option t :=
  match v with
  | JObj m =>
      invoice ← required m "invoice" InvoiceOCRResponse.model_validate;
      Some {| invoice := invoice |}
  | _ => None
  end.
End Validate.
End FaissIndexPayload.

Section WithLibs.
Context `{!JsonLib} `{!PydanticCore} `{!Host} `{!IndexLibs}.
Variable settings : Settings.

(** The state behind the endpoints: the log of the pipeline's effects,
    the records [logger.exception] wrote, and the index. *)
Record AppState := {
  world : log;
  logged : list (string * exception);
  faiss_index : InvoiceFaissIndex;
}.

Definition accepted_types : list string :=
  ["application/pdf"; "application/octet-stream"].

(** [str(exc)] *)
Definition str_of (exc : exception) : string := exc_msg exc.

(** An upload that gets past the two checks of [ocr_invoice]. *)
Definition acceptable (file : UploadFile) : Prop :=
  content_type file ∈ Some <$> accepted_types /\ content file <> EmptyString.

Definition ocr_invoice (index_result : bool) (file : UploadFile) (st : AppState)
    : outcome Dict * AppState :=
  if bool_decide (content_type file ∉ Some <$> accepted_types)
  then (Refused {| http_status := 400;
                   detail := "Only PDF uploads are supported";
                   http_cause := None |}, st)
  else
    let pdf_bytes := content file in
    if decide (pdf_bytes = EmptyString)
    then (Refused {| http_status := 400;
                     detail := "Uploaded file is empty";
                     http_cause := None |}, st)
    else
      match run settings pdf_bytes (world st) with
      | (Raise exc, w) =>
          if matches [Exception] exc
          then (Refused {| http_status := 500;
                           detail := str_of exc;
                           http_cause := Some exc |},
                {| world := w;
                   logged := logged st ++ [("OCR processing failed", exc)];
                   faiss_index := faiss_index st |})
          else (Failed exc,
                {| world := w; logged := logged st; faiss_index := faiss_index st |})
      | (Ok result, w) =>
          if index_result
          then
            match add_invoices (faiss_index st) [result] with
            | (Raise exc, ix) =>
                (Failed exc, {| world := w; logged := logged st; faiss_index := ix |})
            | (Ok _, ix) =>
                (Returned (model_dump result),
                 {| world := w; logged := logged st; faiss_index := ix |})
            end
          else (Returned (model_dump result),
                {| world := w; logged := logged st; faiss_index := faiss_index st |})
      end.

(** [{"status": "indexed", "count": count}] *)
Record IndexReply := { index_status : string; count : nat }.

Definition faiss_index_endpoint (payload : FaissIndexPayload.t) (st : AppState)
    : outcome IndexReply * AppState :=
  match add_invoices (faiss_index st) [FaissIndexPayload.invoice payload] with
  | (Raise exc, ix) =>
      (Failed exc, {| world := world st; logged := logged st; faiss_index := ix |})
  | (Ok _, ix) =>
      (Returned {| index_status := "indexed"; count := length (_store ix) |},
       {| world := world st; logged := logged st; faiss_index := ix |})
  end.

(** [{"results": results}] *)
Record QueryReply := { results : list hit }.

Definition faiss_query_endpoint (query : FaissQuery.t) (st : AppState)
    : outcome QueryReply * AppState :=
  match Indexer.query (faiss_index st) (FaissQuery.query_text query)
          (FaissQuery.top_k query) with
  | Raise exc => (Failed exc, st)
  | Ok results => (Returned {| results := results |}, st)
  end.

(** [{"status": "cleared"}] *)
Record DropReply := { drop_status : string }.

Definition faiss_drop_endpoint (st : AppState) : outcome DropReply * AppState :=
  (Returned {| drop_status := "cleared" |},
   {| world := world st; logged := logged st;
      faiss_index := drop (faiss_index st) |}).

(** A request served by the application. *)
Inductive api_call :=
| OcrInvoice (index_result : bool) (file : UploadFile)
| FaissIndex (payload : FaissIndexPayload.t)
| FaissQueryCall (query : FaissQuery.t)
| FaissDrop.

Definition serve (st : AppState) (c : api_call) : AppState :=
  match c with
  | OcrInvoice index_result file => snd (ocr_invoice index_result file st)
  | FaissIndex payload => snd (faiss_index_endpoint payload st)
  | FaissQueryCall query => snd (faiss_query_endpoint query st)
  | FaissDrop => snd (faiss_drop_endpoint st)
  end.

(** The state after a sequence of requests. *)
Definition serve_all (st : AppState) (calls : list api_call) : AppState :=
  fold_left serve calls st.

(** The state [get_app] starts from. *)
Definition initial : AppState :=
  {| world := []; logged := [];
     faiss_index := new "sentence-transformers/all-MiniLM-L6-v2" |}.
End WithLibs.

End Api.

(** ** A reference decoder for JSON text

    An executable instance of [JsonLib], used to run the model on concrete
    responses. It follows the grammar [json.loads] accepts (including the
    literals [NaN], [Infinity] and [-Infinity], and the last of several
    equal keys winning); a number with a fraction or an exponent becomes a
    float, kept exact. Strings with [\u] escapes are outside its domain and
    are refused. *)

Module JsonText.

Definition is_ws (c : ascii) : bool :=
  let n := nat_of_ascii c in
  (n =? 32) || (n =? 9) || (n =? 10) || (n =? 13).

Fixpoint skip_ws (s : string) : string :=
  match s with
  | String c r => if is_ws c then skip_ws r else s
  | EmptyString => s
  end.

Definition digit_of (c : ascii) : option Z :=
  let n := nat_of_ascii c in
  if (48 <=? n) && (n <=? 57) then Some (Z.of_nat (n - 48)) else None.

(** The longest run of digits at the head of [s]: how many there are, the
    number they spell after [acc], and what follows. *)
Fixpoint digits (s : string) (count : nat) (acc : Z) : nat * Z * string :=
  match s with
  | String c r =>
      match digit_of c with
      | Some dgt => digits r (S count) (10 * acc + dgt)
      | None => (count, acc, s)
      end
  | EmptyString => (count, acc, s)
  end.

(** [prefix] at the head of [s]. *)
Fixpoint expect (prefix s : string) : option string :=
  match prefix, s with
  | EmptyString, _ => Some s
  | String p prefix', String c r =>
      if Ascii.eqb p c then expect prefix' r else None
  | _, EmptyString => None
  end.

Definition pow10 (n : nat) : positive := Pos.pow 10 (Pos.of_nat n).

(** The value of [mantissa / 10^scale * 10^exponent]. *)
Definition decimal (mantissa : Z) (scale : nat) (exponent : Z) : Q :=
  let den := if decide (scale = 0) then 1%positive else pow10 scale in
  if decide (exponent = 0)%Z then Qmake mantissa den
  else if decide (0 < exponent)%Z
       then Qmake (mantissa * Zpos (pow10 (Z.to_nat exponent))) den
       else Qmake mantissa (den * pow10 (Z.to_nat (- exponent))).

(** The integer part: [0], or a digit other than [0] followed by digits. *)
Definition int_part (s : string) : option (Z * string) :=
  match s with
  | String "0" r => Some (0%Z, r)
  | _ =>
      match digits s 0 0 with
      | (O, _, _) => None
      | (_, n, r) => Some (n, r)
      end
  end.

(** An optional fraction: the digits read so far extended by those after
    the point, and how many were added. *)
Definition frac_part (n : Z) (s : string) : option (Z * nat * string) :=
  match s with
  | String "." r =>
      match digits r 0 n with
      | (O, _, _) => None
      | (k, m, r') => Some (m, k, r')
      end
  | _ => None
  end.

Definition exp_part (s : string) : option (Z * string) :=
  match s with
  | String c r =>
      if Ascii.eqb c "e" || Ascii.eqb c "E" then
        let '(neg, r1) :=
          match r with
          | String "-" r1 => (true, r1)
          | String "+" r1 => (false, r1)
          | _ => (false, r)
          end in
        match digits r1 0 0 with
        | (O, _, _) => None
        | (_, e, r2) => Some (if neg then (- e)%Z else e, r2)
        end
      else None
  | EmptyString => None
  end.

Definition number (s : string) : option (json * string) :=
  let '(neg, s1) :=
    match s with
    | String "-" r => (true, r)
    | _ => (false, s)
    end in
  let sign (z : Z) := if neg then (- z)%Z else z in
  match int_part s1 with
  | None => None
  | Some (n, r) =>
      match frac_part n r with
      | Some (m, k, r1) =>
          match exp_part r1 with
          | Some (e, r2) => Some (JFloat (FFin (decimal (sign m) k e)), r2)
          | None => Some (JFloat (FFin (decimal (sign m) k 0)), r1)
          end
      | None =>
          match exp_part r with
          | Some (e, r2) => Some (JFloat (FFin (decimal (sign n) 0 e)), r2)
          | None => Some (JInt (sign n), r)
          end
      end
  end.

Definition unescape (c : ascii) : option ascii :=
  let n := nat_of_ascii c in
  if n =? 34 then Some c                         (* a quote *)
  else if n =? 92 then Some c                    (* \\ *)
  else if n =? 47 then Some c                    (* \/ *)
  else if n =? 98 then Some (ascii_of_nat 8)     (* \b *)
  else if n =? 102 then Some (ascii_of_nat 12)   (* \f *)
  else if n =? 110 then Some (ascii_of_nat 10)   (* \n *)
  else if n =? 114 then Some (ascii_of_nat 13)   (* \r *)
  else if n =? 116 then Some (ascii_of_nat 9)    (* \t *)
  else None.

(** The characters of a string literal after its opening quote. *)
Fixpoint string_body (s : string) : option (string * string) :=
  match s with
  | EmptyString => None
  | String c r =>
      let n := nat_of_ascii c in
      if n =? 34 then Some (EmptyString, r)
      else if n =? 92 then
        match r with
        | String e r' =>
            match unescape e with
            | Some c' =>
                match string_body r' with
                | Some (body, rest) => Some (String c' body, rest)
                | None => None
                end
            | None => None
            end
        | EmptyString => None
        end
      else if n <? 32 then None
      else
        match string_body r with
        | Some (body, rest) => Some (String c body, rest)
        | None => None
        end
  end.

(** A string literal: a quote, the body, a quote. *)
Definition string_literal (s : string) : option (string * string) :=
  match s with
  | String c r => if nat_of_ascii c =? 34 then string_body r else None
  | EmptyString => None
  end.

Definition literal (s : string) : option (json * string) :=
  match expect "null" s with Some r => Some (JNull, r) | None =>
  match expect "true" s with Some r => Some (JBool true, r) | None =>
  match expect "false" s with Some r => Some (JBool false, r) | None =>
  match expect "NaN" s with Some r => Some (JFloat FNan, r) | None =>
  match expect "Infinity" s with Some r => Some (JFloat (FInf false), r) | None =>
  match expect "-Infinity" s with Some r => Some (JFloat (FInf true), r) | None =>
  None end end end end end end.

(** A value, the elements of an array after [[], and the members of an
    object after [{]; each call consumes input, so the length of the text
    bounds the recursion. *)
Fixpoint value (fuel : nat) (s : string) {struct fuel} : option (json * string) :=
  match fuel with
  | O => None
  | S fuel' =>
      match skip_ws s with
      | String "[" r =>
          match skip_ws r with
          | String "]" r' => Some (JArr [], r')
          | r1 => elements fuel' r1 []
          end
      | String "{" r =>
          match skip_ws r with
          | String "}" r' => Some (JObj ∅, r')
          | r1 => members fuel' r1 ∅
          end
      | s1 =>
          match string_literal s1 with
          | Some (body, rest) => Some (JStr body, rest)
          | None =>
              match literal s1 with
              | Some found => Some found
              | None => number s1
              end
          end
      end
  end
with elements (fuel : nat) (s : string) (acc : list json) {struct fuel}
    : option (json * string) :=
  match fuel with
  | O => None
  | S fuel' =>
      match value fuel' s with
      | Some (v, r) =>
          match skip_ws r with
          | String "," r' => elements fuel' r' (acc ++ [v])
          | String "]" r' => Some (JArr (acc ++ [v]), r')
          | _ => None
          end
      | None => None
      end
  end
with members (fuel : nat) (s : string) (acc : gmap string json) {struct fuel}
    : option (json * string) :=
  match fuel with
  | O => None
  | S fuel' =>
      match string_literal (skip_ws s) with
      | Some (key, r1) =>
          match skip_ws r1 with
          | String ":" r2 =>
              match value fuel' r2 with
              | Some (v, r3) =>
                  match skip_ws r3 with
                  | String "," r4 => members fuel' r4 (<[key := v]> acc)
                  | String "}" r4 => Some (JObj (<[key := v]> acc), r4)
                  | _ => None
                  end
              | None => None
              end
          | _ => None
          end
      | None => None
      end
  end.

Definition loads (s : string) : option json :=
  match value (2 * String.length s + 2) s with
  | Some (v, r) =>
      match skip_ws r with
      | EmptyString => Some v
      | _ => None
      end
  | None => None
  end.

End JsonText.

(** ** Reading page numbers back from file names *)

Module PageNames.

(** The number spelled by the digits at the head of [s], read after
    [acc], and what follows the digits. *)
Fixpoint read_number (s : string) (acc : Z) : Z * string :=
  match s with
  | String c r =>
      match JsonText.digit_of c with
      | Some dgt => read_number r (10 * acc + dgt)
      | None => (acc, s)
      end
  | EmptyString => (acc, s)
  end.

(** The page number in a name of the form [<tmp_path>/page_<digits>.png]. *)
Definition page_number (tmp_path path : string) : option Z :=
  match JsonText.expect (tmp_path +:+ "/page_") path with
  | Some r =>
      let '(n, rest) := read_number r 0 in
      if decide (rest = ".png") then Some n else None
  | None => None
  end.

End PageNames.

(** ** Base64 (RFC 4648), as [base64.b64encode] computes it *)

Module Base64.

Definition alphabet : string :=
  "ABCDEFGHIJKLMNOPQRSTUVWXYZabcdefghijklmnopqrstuvwxyz0123456789+/".

Definition sextet (n : N) : ascii :=
  match String.get (N.to_nat (n mod 64)) alphabet with
  | Some c => c
  | None => "="%char
  end.

Fixpoint encode (input : list N) : string :=
  match input with
  | a :: b :: c :: rest =>
      let n := (a * 65536 + b * 256 + c)%N in
      String (sextet (n / 262144)) (String (sextet (n / 4096))
        (String (sextet (n / 64)) (String (sextet n) (encode rest))))
  | [a; b] =>
      let n := (a * 65536 + b * 256)%N in
      String (sextet (n / 262144)) (String (sextet (n / 4096))
        (String (sextet (n / 64)) "="))
  | [a] =>
      let n := (a * 65536)%N in
      String (sextet (n / 262144)) (String (sextet (n / 4096)) "==")
  | [] => EmptyString
  end.

Fixpoint octets (content : bytes) : list N :=
  match content with
  | String c r => N_of_ascii c :: octets r
  | EmptyString => []
  end.

Definition b64encode (content : bytes) : string := encode (octets content).

End Base64.

(** ** Instances for running the model *)

Module Run.

Definition reference_json : JsonLib := {| json_loads := JsonText.loads |}.

(** [YYYY-MM-DD] *)
Definition iso_date (s : string) : option date :=
  match JsonText.digits s 0 0 with
  | (4, y, String "-" r) =>
      match JsonText.digits r 0 0 with
      | (2, m, String "-" r') =>
          match JsonText.digits r' 0 0 with
          | (2, dd, EmptyString) =>
              if decide (1 <= m <= 12 /\ 1 <= dd <= 31)%Z
              then Some (Date y m dd) else None
          | _ => None
          end
      | _ => None
      end
  | _ => None
  end.

(** Coercions restricted to the decimal numerals of JSON and to ISO
    dates given as strings. *)
Definition reference_pydantic : PydanticCore := {|
  float_of_str s :=
    match JsonText.number s with
    | Some (JInt z, EmptyString) => Some (float_of_int z)
    | Some (JFloat f, EmptyString) => Some f
    | _ => None
    end;
  float_of_bool b := Some (float_of_int (if b then 1 else 0));
  validate_date v :=
    match v with
    | JStr s => iso_date s
    | _ => None
    end;
|}.

(** A host that plays a script: what the PDF renderer returns, what each
    POST returns, and how removing the temporary directory ends. *)
Definition scripted_host (pages : result (list string))
    (posts : nat -> result response) (cleanup_outcome : result unit) : Host := {|
  image := string;
  mkdtemp prefix := Ok ("/tmp/" +:+ prefix +:+ "k3x9");
  convert_from_bytes _ _ := pages;
  image_save _ _ := Ok tt;
  read_bytes _ := Ok "PNG";
  b64encode := Base64.b64encode;
  http_post _ k := posts k;
  tmpdir_cleanup _ := cleanup_outcome;
|}.

Definition quote : ascii := ascii_of_nat 34.
Definition backslash : ascii := ascii_of_nat 92.

(** JSON text written with apostrophes in place of quotes. *)
Fixpoint jtext (s : string) : string :=
  match s with
  | String c r => String (if Ascii.eqb c "'" then quote else c) (jtext r)
  | EmptyString => EmptyString
  end.

(** The JSON string literal denoting [s] (quotes and backslashes escaped). *)
Fixpoint escaped (s : string) : string :=
  match s with
  | String c r =>
      if Ascii.eqb c quote || Ascii.eqb c backslash
      then String backslash (String c (escaped r))
      else String c (escaped r)
  | EmptyString => EmptyString
  end.

Definition json_quote (s : string) : string :=
  String quote (escaped s) +:+ String quote EmptyString.

(** The body of a chat completion whose single choice carries [content]. *)
Definition chat_body (content : string) : string :=
  jtext "{'choices': [{'message': {'role': 'assistant', 'content': "
  +:+ json_quote content +:+ "}}]}".

Definition chat_response (content : string) : response :=
  {| status_code := 200; text := chat_body content |}.

(** *** Scripts *)

Import Schema.

Definition tmpdir1 : string := "/tmp/invoice_pages_k3x9".
Definition page1 : Path := "/tmp/invoice_pages_k3x9/page_001.png".
Definition pdf1 : bytes := "%PDF-1.4 ...".

Definition timed_out : exception := Exc RequestError "timed out" None.

(** The endpoint times out [failures] times, then answers [good]. *)
Definition flaky (failures : nat) (good : response) (k : nat) : result response :=
  if k <? failures then Raise timed_out else Ok good.

Definition always (r : result response) (k : nat) : result response := r.

Definition empty_data : InvoiceData.t := {|
  InvoiceData.vendor := InvoiceParty.default;
  InvoiceData.customer := InvoiceParty.default;
  InvoiceData.invoice_number := None;
  InvoiceData.purchase_order := None;
  InvoiceData.invoice_date := None;
  InvoiceData.due_date := None;
  InvoiceData.terms := None;
  InvoiceData.notes := None;
  InvoiceData.line_items := [];
  InvoiceData.totals := InvoiceTotals.default;
|}.

Definition record_of (version model : string) : InvoiceOCRResponse.t := {|
  InvoiceOCRResponse.schema_version := version;
  InvoiceOCRResponse.status := success;
  InvoiceOCRResponse.model := model;
  InvoiceOCRResponse.data := empty_data;
  InvoiceOCRResponse.warnings := [];
  InvoiceOCRResponse.raw_text := None;
|}.

Definition minimal_invoice : string := jtext "{'model': 'm', 'data': {}}".
Definition bare_invoice : string := jtext "{'data': {}}".
Definition negative_tax : string :=
  jtext "{'model': 'm', 'data': {'totals': {'tax': -1}}}".

(** A complete response, and the same with all boilerplate left out. *)
Definition full_invoice : string :=
  jtext ("{'schema_version': 'invoice_v1', 'status': 'error', 'model': 'm', "
         +:+ "'warnings': ['blurry scan'], "
         +:+ "'data': {'invoice_number': 'A-17', 'totals': {'tax': 1, 'currency': 'EUR'}}}").
Definition stripped_invoice : string :=
  jtext "{'data': {'invoice_number': 'A-17'}}".

Definition decoded (text : string) : gmap string json :=
  match JsonText.loads text with
  | Some (JObj m) => m
  | _ => ∅
  end.

Definition full_record : InvoiceOCRResponse.t := {|
  InvoiceOCRResponse.schema_version := "invoice_v1";
  InvoiceOCRResponse.status := error;
  InvoiceOCRResponse.model := "m";
  InvoiceOCRResponse.data := {|
    InvoiceData.vendor := InvoiceParty.default;
    InvoiceData.customer := InvoiceParty.default;
    InvoiceData.invoice_number := Some "A-17";
    InvoiceData.purchase_order := None;
    InvoiceData.invoice_date := None;
    InvoiceData.due_date := None;
    InvoiceData.terms := None;
    InvoiceData.notes := None;
    InvoiceData.line_items := [];
    InvoiceData.totals := {|
      InvoiceTotals.subtotal := None;
      InvoiceTotals.tax := Some (float_of_int 1);
      InvoiceTotals.discounts := None;
      InvoiceTotals.total := None;
      InvoiceTotals.currency := Some "EUR";
    |};
  |};
  InvoiceOCRResponse.warnings := ["blurry scan"];
  InvoiceOCRResponse.raw_text := None;
|}.

Definition all_omitted : OcrClient.omitted := {|
  OcrClient.no_schema_version := true;
  OcrClient.no_status := true;
  OcrClient.no_model := true;
  OcrClient.no_warnings := true;
  OcrClient.no_totals := true;
|}.

(** One page is rendered, the endpoint times out twice and then answers. *)
Definition host_flaky : Host :=
  scripted_host (Ok ["page"]) (flaky 2 (chat_response minimal_invoice)) (Ok tt).

(** The endpoint always times out and the temporary directory cannot be
    removed. *)
Definition host_down : Host :=
  scripted_host (Ok ["page"]) (always (Raise timed_out))
    (Raise (Exc OSError "Directory not empty" None)).

(** The PDF renders to no page. *)
Definition host_zero_pages : Host :=
  scripted_host (Ok []) (always (Ok (chat_response minimal_invoice))) (Ok tt).

(** The bytes are not a PDF. *)
Definition not_a_pdf : exception :=
  Exc (LibraryError "pdf2image.exceptions.PDFPageCountError")
    "Unable to get page count." None.
Definition host_not_a_pdf : Host :=
  scripted_host (Raise not_a_pdf) (always (Ok (chat_response minimal_invoice))) (Ok tt).

(** The model answers with a JSON array. *)
Definition host_array : Host :=
  scripted_host (Ok ["page"]) (always (Ok (chat_response "[]"))) (Ok tt).

(** The model answers with an object whose [data] is [null]. *)
Definition host_null_data : Host :=
  scripted_host (Ok ["page"])
    (always (Ok (chat_response (jtext "{'model': 'm', 'data': null}")))) (Ok tt).


(** The response [{"choices": [{"message": {"content": content}}]}] as
    [response.json()] returns it. *)
Definition completion_with (content : string) : json :=
  JObj {[ "choices" :=
            JArr [JObj {[ "message" := JObj {[ "content" := JStr content ]} ]}] ]}.

(** An index over small vectors: a text is embedded as its length and a
    constant, and the search returns the first [k] positions, padded with
    the marker [-1], all with score [0]. *)
Definition small_index_libs : Indexer.IndexLibs := {|
  Indexer.scalar := Z;
  Indexer.Dict := InvoiceOCRResponse.t;
  Indexer.model_dump r := r;
  Indexer.json_dumps r :=
    match InvoiceData.invoice_date (InvoiceOCRResponse.data r),
          InvoiceData.due_date (InvoiceOCRResponse.data r) with
    | None, None => Ok (InvoiceOCRResponse.model r)
    | _, _ => Raise (Exc TypeError "Object of type date is not JSON serializable" None)
    end;
  Indexer.encode texts :=
    Ok (Indexer.Mat 2 (map (fun t => [Z.of_nat (String.length t); 1%Z]) texts));
  Indexer.search ix _ k :=
    let positions := seq 0 (Z.to_nat k) in
    Ok ([map (fun _ => 0%Z) positions],
        [map (fun i => if i <? length (Indexer.xb ix) then Z.of_nat i else (-1)%Z)
             positions]);
|}.


(** Three pages are rendered and the endpoint answers at once. *)
Definition host_three_pages : Host :=
  scripted_host (Ok ["p1"; "p2"; "p3"])
    (always (Ok (chat_response minimal_invoice))) (Ok tt).

Definition page2 : Path := "/tmp/invoice_pages_k3x9/page_002.png".
Definition page3 : Path := "/tmp/invoice_pages_k3x9/page_003.png".

Definition no_such_file : exception :=
  Exc OSError "No such file or directory" None.

(** The host [h] on which the file [missing] cannot be read. *)
Definition with_missing_file (h : Host) (missing : Path) : Host := {|
  image := @image h;
  mkdtemp := @mkdtemp h;
  convert_from_bytes := @convert_from_bytes h;
  image_save := @image_save h;
  read_bytes p := if decide (p = missing) then Raise no_such_file else @read_bytes h p;
  b64encode := @b64encode h;
  http_post := @http_post h;
  tmpdir_cleanup := @tmpdir_cleanup h;
|}.

(** The endpoint answers with a page that is not JSON. *)
Definition host_html : Host :=
  scripted_host (Ok ["page"])
    (always (Ok {| status_code := 200; text := "<html>Bad Gateway</html>" |})) (Ok tt).

(** The endpoint answers every request with the status 503. *)
Definition host_unavailable : Host :=
  scripted_host (Ok ["page"])
    (always (Ok {| status_code := 503; text := "Service Unavailable" |})) (Ok tt).

(** Responses with a [null], with no declared key, with line items and
    with a date. *)
Definition null_model : string := jtext "{'model': null, 'data': {}}".
Definition unknown_keys_only : string := jtext "{'note': 'nothing found'}".
Definition two_items : string :=
  jtext ("{'line_items': [{'description': 'bolts', 'quantity': 2, 'unit_price': 3}, "
         +:+ "{'description': 'nuts', 'quantity': 1, 'unit_price': 0.5, 'total': 0.5}]}").
Definition dated_invoice : string :=
  jtext "{'model': 'm', 'data': {'invoice_date': '2024-01-31'}}".


(** The record of [dated_invoice]. *)
Definition dated : InvoiceOCRResponse.t := {|
  InvoiceOCRResponse.schema_version := "invoice_v1";
  InvoiceOCRResponse.status := success;
  InvoiceOCRResponse.model := "m";
  InvoiceOCRResponse.data := {|
    InvoiceData.vendor := InvoiceParty.default;
    InvoiceData.customer := InvoiceParty.default;
    InvoiceData.invoice_number := None;
    InvoiceData.purchase_order := None;
    InvoiceData.invoice_date := Some (Date 2024 1 31);
    InvoiceData.due_date := None;
    InvoiceData.terms := None;
    InvoiceData.notes := None;
    InvoiceData.line_items := [];
    InvoiceData.totals := InvoiceTotals.default;
  |};
  InvoiceOCRResponse.warnings := [];
  InvoiceOCRResponse.raw_text := None;
|}.

(** Integers from the decimal numerals of JSON, from floats without a
    fractional part and from booleans. *)
Definition reference_int : PydanticInt := {|
  int_of_str s :=
    match JsonText.number s with
    | Some (JInt z, EmptyString) => Some z
    | _ => None
    end;
  int_of_float f :=
    match f with
    | FFin q =>
        if decide (Z.rem (Qnum q) (Z.pos (Qden q)) = 0)%Z
        then Some (Z.quot (Qnum q) (Z.pos (Qden q)))
        else None
    | _ => None
    end;
  int_of_bool b := Some (if b then 1 else 0)%Z;
|}.

(** Uploads. *)
Definition pdf_upload : Api.UploadFile :=
  {| Api.content_type := Some "application/pdf"; Api.content := pdf1 |}.
Definition text_upload : Api.UploadFile :=
  {| Api.content_type := Some "text/plain"; Api.content := "hello" |}.

(** Two records and a sequence of calls on an index. *)
Definition acme : InvoiceOCRResponse.t := record_of "invoice_v1" "acme".
Definition globex : InvoiceOCRResponse.t := record_of "invoice_v1" "globex-corp".

Definition index_calls : list (@Indexer.op) :=
  [Indexer.AddInvoices [acme; globex]; Indexer.AddInvoices [];
   Indexer.Drop; Indexer.AddInvoices [acme]].

Definition fresh_index : @Indexer.InvoiceFaissIndex small_index_libs :=
  Indexer.new "sentence-transformers/all-MiniLM-L6-v2".

Definition acme_index : @Indexer.InvoiceFaissIndex small_index_libs :=
  Indexer.apply_op fresh_index (Indexer.AddInvoices [acme]).

End Run.

(** * Properties *)

Module SchemaFacts.
Import Schema.

Section Facts.
Context `{!PydanticCore}.

Lemma float_ltb0_of_int z : float_ltb0 (float_of_int z) = (z <? 0)%Z.
Proof.
  unfold float_of_int, float_ltb0, inject_Z, Qle_bool; simpl.
  rewrite Z.mul_1_r. destruct (Z.leb_spec 0 z), (Z.ltb_spec z 0); simpl; try reflexivity; lia.
Qed.

Lemma negative_validates_below_zero v :
  is_negative v = true ->
  exists x, validate_float v = Some x /\ float_ltb0 x = true.
Proof.
  destruct v; try discriminate; intros Hneg.
  - exists (float_of_int z). split; [reflexivity|]. now rewrite float_ltb0_of_int.
  - exists f. split; [reflexivity | exact Hneg].
Qed.

Lemma negative_rejected v : is_negative v = true -> validate_float_ge0 v = None.
Proof.
  intros (x & Hx & Hlt)%negative_validates_below_zero.
  unfold validate_float_ge0, ge0. rewrite Hx. simpl. now rewrite Hlt.
Qed.

Lemma ge0_accepts v x : validate_float_ge0 v = Some x -> nonneg x.
Proof.
  unfold validate_float_ge0, ge0, nonneg.
  destruct (validate_float v) as [y|]; simpl; [|discriminate].
  destruct (float_ltb0 y) eqn:E; [discriminate|]. intros [= <-]. exact E.
Qed.

Lemma optional_ge0_rejects v :
  is_negative v = true -> optional validate_float_ge0 v = None.
Proof.
  intros Hneg. pose proof (negative_rejected v Hneg) as Hrej.
  destruct v; try discriminate; unfold optional; now rewrite Hrej.
Qed.

Lemma optional_ge0_accepts v x :
  optional validate_float_ge0 v = Some x -> nonneg_opt x.
Proof.
  unfold optional. destruct v; try (intros [= <-]; exact I).
  all: destruct (validate_float_ge0 _) as [y|] eqn:E; simpl; [|discriminate].
  all: intros [= <-]; simpl; eapply ge0_accepts; exact E.
Qed.

(** A later failing field fails the chain whatever came before. *)
Lemma bind_none {A B} (x : option A) (f : A -> option B) :
  (forall a, f a = None) -> x ≫= f = None.
Proof. intros Hf. destruct x; simpl; auto. Qed.

Lemma required_present {A} m k v (f : json -> option A) :
  m !! k = Some v -> required m k f = f v.
Proof. intros Hk. unfold required. now rewrite Hk. Qed.

Lemma with_default_present {A} m k v (f : json -> option A) dflt :
  m !! k = Some v -> with_default m k f dflt = f v.
Proof. intros Hk. unfold with_default. now rewrite Hk. Qed.

Lemma with_default_absent {A} m k (f : json -> option A) dflt :
  m !! k = None -> with_default m k f dflt = Some dflt.
Proof. intros Hk. unfold with_default. now rewrite Hk. Qed.

Lemma line_item_rejects m k v :
  m !! k = Some v -> is_negative v = true ->
  k = "quantity" \/ k = "unit_price" \/ k = "total" ->
  InvoiceLineItem.validate (JObj m) = None.
Proof.
  intros Hk Hneg Hcase. unfold InvoiceLineItem.validate.
  apply bind_none; intros description.
  destruct Hcase as [-> | [-> | ->]].
  - now rewrite (required_present _ _ _ _ Hk), negative_rejected.
  - apply bind_none; intros quantity.
    now rewrite (required_present _ _ _ _ Hk), negative_rejected.
  - apply bind_none; intros quantity. apply bind_none; intros unit_price.
    now rewrite (with_default_present _ _ _ _ _ Hk), optional_ge0_rejects.
Qed.

Lemma totals_rejects m k v :
  m !! k = Some v -> is_negative v = true ->
  k = "subtotal" \/ k = "tax" \/ k = "total" ->
  InvoiceTotals.validate (JObj m) = None.
Proof.
  intros Hk Hneg Hcase. unfold InvoiceTotals.validate.
  destruct Hcase as [-> | [-> | ->]].
  - now rewrite (with_default_present _ _ _ _ _ Hk), optional_ge0_rejects.
  - apply bind_none; intros subtotal.
    now rewrite (with_default_present _ _ _ _ _ Hk), optional_ge0_rejects.
  - do 3 (apply bind_none; intro).
    now rewrite (with_default_present _ _ _ _ _ Hk), optional_ge0_rejects.
Qed.

Lemma list_of_rejects {A} (f : json -> option A) l i item :
  l !! i = Some item -> f item = None -> list_of f (JArr l) = None.
Proof.
  intros Hi Hitem. simpl.
  destruct (mapM f l) as [k|] eqn:E; [|reflexivity].
  apply mapM_Some in E.
  destruct (Forall2_lookup_l _ _ _ _ _ E Hi) as (y & _ & Hy). congruence.
Qed.

Lemma data_rejects_line_items m v :
  m !! "line_items" = Some v -> list_of InvoiceLineItem.validate v = None ->
  InvoiceData.validate (JObj m) = None.
Proof.
  intros Hk Hv. unfold InvoiceData.validate.
  do 8 (apply bind_none; intro).
  now rewrite (with_default_present _ _ _ _ _ Hk), Hv.
Qed.

Lemma data_rejects_totals m v :
  m !! "totals" = Some v -> InvoiceTotals.validate v = None ->
  InvoiceData.validate (JObj m) = None.
Proof.
  intros Hk Hv. unfold InvoiceData.validate.
  do 9 (apply bind_none; intro).
  now rewrite (with_default_present _ _ _ _ _ Hk), Hv.
Qed.

Lemma response_rejects_data m v :
  m !! "data" = Some v -> InvoiceData.validate v = None ->
  InvoiceOCRResponse.model_validate (JObj m) = None.
Proof.
  intros Hk Hv. unfold InvoiceOCRResponse.model_validate.
  do 3 (apply bind_none; intro).
  now rewrite (required_present _ _ _ _ Hk), Hv.
Qed.

(** What validation accepts respects the bounds. *)
Lemma line_item_accepts v item :
  InvoiceLineItem.validate v = Some item ->
  nonneg (InvoiceLineItem.quantity item) /\
  nonneg (InvoiceLineItem.unit_price item) /\
  nonneg_opt (InvoiceLineItem.total item).
Proof.
  destruct v; try discriminate. unfold InvoiceLineItem.validate.
  destruct (required m "description" _) as [dsc|]; simpl; [|discriminate].
  destruct (required m "quantity" _) as [q|] eqn:Hq; simpl; [|discriminate].
  destruct (required m "unit_price" _) as [u|] eqn:Hu; simpl; [|discriminate].
  destruct (with_default m "total" _ _) as [t|] eqn:Ht; simpl; [|discriminate].
  intros [= <-]; simpl.
  unfold required in Hq, Hu. unfold with_default in Ht.
  destruct (m !! "quantity") as [vq|]; simpl in Hq; [|discriminate].
  destruct (m !! "unit_price") as [vu|]; simpl in Hu; [|discriminate].
  repeat split; eauto using ge0_accepts.
  destruct (m !! "total") as [vt|].
  - eauto using optional_ge0_accepts.
  - injection Ht as <-. exact I.
Qed.

Lemma with_default_ge0_accepts m k x :
  with_default m k (optional validate_float_ge0) None = Some x -> nonneg_opt x.
Proof.
  unfold with_default. destruct (m !! k) as [v|].
  - apply optional_ge0_accepts.
  - intros [= <-]. exact I.
Qed.

Lemma totals_accepts v t :
  InvoiceTotals.validate v = Some t ->
  nonneg_opt (InvoiceTotals.subtotal t) /\
  nonneg_opt (InvoiceTotals.tax t) /\
  nonneg_opt (InvoiceTotals.total t).
Proof.
  destruct v; try discriminate. unfold InvoiceTotals.validate.
  destruct (with_default m "subtotal" _ _) as [s|] eqn:Hs; simpl; [|discriminate].
  destruct (with_default m "tax" _ _) as [tx|] eqn:Htx; simpl; [|discriminate].
  destruct (with_default m "discounts" _ _) as [dc|]; simpl; [|discriminate].
  destruct (with_default m "total" _ _) as [tt|] eqn:Htt; simpl; [|discriminate].
  destruct (with_default m "currency" _ _) as [c|]; simpl; [|discriminate].
  intros [= <-]; simpl.
  repeat split; eapply with_default_ge0_accepts; eassumption.
Qed.

Lemma list_of_accepts {A} (f : json -> option A) (P : A -> Prop) v l :
  (forall x y, f x = Some y -> P y) ->
  list_of f v = Some l -> Forall P l.
Proof.
  intros Hf. destruct v; try discriminate. simpl. intros E%mapM_Some.
  induction E; constructor; eauto.
Qed.

Lemma validated_ge0_fields v r :
  InvoiceOCRResponse.model_validate v = Some r -> ge0_fields_hold r.
Proof.
  destruct v; try discriminate. unfold InvoiceOCRResponse.model_validate.
  destruct (with_default m "schema_version" _ _); simpl; [|discriminate].
  destruct (with_default m "status" _ _); simpl; [|discriminate].
  destruct (required m "model" _); simpl; [|discriminate].
  destruct (required m "data" _) as [inner|] eqn:Hdata; simpl; [|discriminate].
  destruct (with_default m "warnings" _ _); simpl; [|discriminate].
  destruct (with_default m "raw_text" _ _); simpl; [|discriminate].
  intros [= <-]. unfold ge0_fields_hold; simpl.
  unfold required in Hdata. destruct (m !! "data") as [vd|]; simpl in Hdata; [|discriminate].
  destruct vd; try discriminate. unfold InvoiceData.validate in Hdata.
  repeat match type of Hdata with
         | (with_default ?m ?k ?f ?dflt ≫= _) = Some _ =>
             let E := fresh "E" in
             destruct (with_default m k f dflt) eqn:E; simpl in Hdata; [|discriminate]
         end.
  injection Hdata as <-. simpl. split.
  - match goal with
    | E : with_default _ "line_items" _ _ = Some _ |- _ =>
        unfold with_default in E; destruct (_ !! "line_items"); 
        [ eapply list_of_accepts; [|exact E]; apply line_item_accepts
        | injection E as <-; constructor ]
    end.
  - match goal with
    | E : with_default _ "totals" _ _ = Some _ |- _ =>
        unfold with_default in E; destruct (_ !! "totals");
        [ eapply totals_accepts; exact E
        | injection E as <-; simpl; auto ]
    end.
Qed.

Lemma member_Some v k x :
  member v k = Some x -> exists m, v = JObj m /\ m !! k = Some x.
Proof. destruct v; try discriminate. simpl. eauto. Qed.

Lemma element_Some v i x :
  element v i = Some x -> exists l, v = JArr l /\ l !! i = Some x.
Proof. destruct v; try discriminate. simpl. eauto. Qed.

(** The payload carries a negative number in a [ge=0] field: it is not
    validated. *)
Lemma negative_field_rejected (payload : gmap string json) f v :
  field_value payload f = Some v -> is_negative v = true ->
  InvoiceOCRResponse.model_validate (JObj payload) = None.
Proof.
  unfold field_value. intros Hf Hneg.
  destruct (payload !! "data") as [inner|] eqn:Hdata; simpl in Hf; [|discriminate].
  apply (response_rejects_data _ _ Hdata).
  destruct f; simpl in Hf.
  1-3: destruct (member inner "line_items") as [items|] eqn:Hitems; simpl in Hf; [|discriminate];
       destruct (element items i) as [item|] eqn:Hitem; simpl in Hf; [|discriminate];
       apply member_Some in Hitems as (mi & -> & Hitems);
       apply element_Some in Hitem as (l & -> & Hitem);
       apply member_Some in Hf as (mit & -> & Hf);
       apply (data_rejects_line_items _ _ Hitems);
       apply (list_of_rejects _ _ _ _ Hitem);
       eapply line_item_rejects; eauto.
  all: destruct (member inner "totals") as [t|] eqn:Ht; simpl in Hf; [|discriminate];
       apply member_Some in Ht as (mi & -> & Ht);
       apply member_Some in Hf as (mt & -> & Hf);
       apply (data_rejects_totals _ _ Ht);
       eapply totals_rejects; eauto.
Qed.

(** C8. A payload that carries a negative number in a field declared
    with [ge=0] (line-item [quantity], [unit_price], [total]; totals
    [subtotal], [tax], [total]) is not validated, and whatever record
    validation returns has none of these fields below zero. *)
Theorem negative_values_fail_validation (payload : gmap string json)
    (f : ge0_field) (v : json) :
  field_value payload f = Some v ->
  is_negative v = true ->
  InvoiceOCRResponse.model_validate (JObj payload) = None /\
  (forall other r, InvoiceOCRResponse.model_validate other = Some r ->
                   ge0_fields_hold r).
Proof.
  intros Hf Hneg. split.
  - now apply (negative_field_rejected payload f v).
  - intros other r. apply validated_ge0_fields.
Qed.
End Facts.
End SchemaFacts.

Module EffectFacts.

Lemma count_events_app p w evs :
  count_events p (w ++ evs) = count_events p w + count_events p evs.
Proof. unfold count_events. now rewrite List.filter_app, length_app. Qed.

Lemma count_events_one p ev :
  count_events p [ev] = if p ev then 1 else 0.
Proof.
  unfold count_events. simpl. now destruct (p ev).
Qed.

Lemma count_events_none p evs :
  Forall (fun ev => p ev = false) evs -> count_events p evs = 0.
Proof.
  induction 1 as [|ev evs Hev _ IH]; [reflexivity|].
  change (ev :: evs) with ([ev] ++ evs).
  rewrite count_events_app, count_events_one, Hev, IH. reflexivity.
Qed.

(** Every modelled exception derives from [Exception]. *)
Lemma all_are_exceptions e : matches [Exception] e = true.
Proof.
  destruct e as [c msg cause]. unfold matches, isinstance; simpl.
  destruct c; reflexivity.
Qed.

Lemma extends_refl P w : extends P w w.
Proof. exists []. split; [now rewrite app_nil_r | constructor]. Qed.

Lemma extends_one (P : event -> Prop) w ev : P ev -> extends P w (w ++ [ev]).
Proof. intros Hev. exists [ev]. split; [reflexivity | now constructor]. Qed.

Lemma extends_trans P w1 w2 w3 :
  extends P w1 w2 -> extends P w2 w3 -> extends P w1 w3.
Proof.
  intros (e1 & -> & H1) (e2 & -> & H2). exists (e1 ++ e2).
  split; [now rewrite app_assoc | now apply Forall_app].
Qed.

Lemma extends_weaken (P Q : event -> Prop) w w' :
  (forall ev, P ev -> Q ev) -> extends P w w' -> extends Q w w'.
Proof.
  intros HPQ (evs & -> & H). exists evs. split; [reflexivity|].
  eapply Forall_impl; eauto.
Qed.

Lemma extends_count (P : event -> Prop) p w w' :
  (forall ev, P ev -> p ev = false) ->
  extends P w w' -> count_events p w' = count_events p w.
Proof.
  intros HP (evs & -> & H). rewrite count_events_app.
  rewrite (count_events_none p evs); [apply Nat.add_0_r|].
  eapply Forall_impl; eauto.
Qed.
End EffectFacts.

Module ClientFacts.
Import Config Schema OcrClient EffectFacts.

Section Facts.
Context `{!JsonLib} `{!PydanticCore} `{!Host}.
Variable settings : Settings.

Abbreviation posts := (count_events is_post).

Lemma attempt_once_eq enc w :
  attempt_once settings enc w =
    (attempt_result settings enc (posts w),
     w ++ [EvPost {| req_model := deepseek_model settings; req_images := enc |}]).
Proof.
  unfold attempt_once, _post_completion, attempt_result, completion_received,
    bind, call, lift.
  destruct (http_post _ _) as [response|e]; simpl; [|reflexivity].
  destruct (raise_for_status response) as [[]|e]; simpl; [|reflexivity].
  destruct (response_json response) as [completion|e]; simpl; reflexivity.
Qed.

Lemma posts_snoc_post w body : posts (w ++ [EvPost body]) = S (posts w).
Proof. rewrite count_events_app, count_events_one. simpl. lia. Qed.

Lemma posts_snoc_warning w a e : posts (w ++ [EvLogWarning a e]) = posts w.
Proof. rewrite count_events_app, count_events_one. simpl. lia. Qed.

Lemma attempts_loop_bound attempts enc last w :
  posts (snd (attempts_loop settings attempts enc last w)) <= posts w + length attempts.
Proof.
  revert last w. induction attempts as [|a rest IH]; intros last w; simpl.
  - lia.
  - rewrite attempt_once_eq.
    destruct (attempt_result settings enc (posts w)) as [r|e]; simpl.
    + rewrite posts_snoc_post. lia.
    + destruct (matches retryable e); simpl.
      * etransitivity; [apply IH|]. rewrite posts_snoc_warning, posts_snoc_post. lia.
      * rewrite posts_snoc_post. lia.
Qed.

Lemma attempts_loop_extends attempts enc last w :
  extends loop_event w (snd (attempts_loop settings attempts enc last w)).
Proof.
  revert last w. induction attempts as [|a rest IH]; intros last w; simpl.
  - apply extends_refl.
  - rewrite attempt_once_eq.
    destruct (attempt_result settings enc (posts w)) as [r|e]; simpl.
    + now apply extends_one.
    + destruct (matches retryable e); simpl.
      * eapply extends_trans; [|apply IH].
        eapply extends_trans; now apply extends_one.
      * now apply extends_one.
Qed.

(** Every attempt fails with an exception the loop catches: the loop
    runs to its end and chains the last of them. *)
Lemma attempts_loop_exhausted attempts enc last w :
  (forall i, i < length attempts ->
             fails_retryably (attempt_result settings enc (posts w + i))) ->
  exists w',
    attempts_loop settings attempts enc last w =
      (Raise (Exc OCRClientError "OCR failed after retries"
                (match length attempts with
                 | O => last
                 | S n => error_of (attempt_result settings enc (posts w + n))
                 end)), w')
    /\ posts w' = posts w + length attempts.
Proof.
  revert last w. induction attempts as [|a rest IH]; intros last w Hall; simpl.
  - exists w. split; [reflexivity | lia].
  - rewrite attempt_once_eq.
    destruct (Hall 0 ltac:(simpl; lia)) as (e & He & Hre).
    rewrite Nat.add_0_r in He. rewrite He, Hre.
    destruct (IH (Some e) ((w ++ [EvPost {| req_model := deepseek_model settings;
                                            req_images := enc |}])
                            ++ [EvLogWarning a e])) as (w' & Hloop & Hposts).
    { intros i Hi. rewrite posts_snoc_warning, posts_snoc_post.
      replace (S (posts w) + i) with (posts w + S i) by lia.
      apply Hall. simpl. lia. }
    exists w'. rewrite Hloop. rewrite Hposts, posts_snoc_warning, posts_snoc_post.
    split; [|simpl; lia].
    destruct rest as [|b rest']; simpl.
    + now rewrite Nat.add_0_r, He.
    + now rewrite Nat.add_succ_r.
Qed.

(** The first [j] attempts fail with a caught exception and the next one
    ends otherwise: the loop stops there. *)
Lemma attempts_loop_stops attempts enc last w j :
  j < length attempts ->
  (forall i, i < j -> fails_retryably (attempt_result settings enc (posts w + i))) ->
  ~ fails_retryably (attempt_result settings enc (posts w + j)) ->
  exists w',
    attempts_loop settings attempts enc last w =
      (attempt_result settings enc (posts w + j), w')
    /\ posts w' = posts w + S j.
Proof.
  revert last w j. induction attempts as [|a rest IH]; intros last w j Hj Hbefore Hstop;
    simpl in *; [lia|].
  rewrite attempt_once_eq. destruct j as [|j].
  - rewrite Nat.add_0_r in *.
    destruct (attempt_result settings enc (posts w)) as [r|e] eqn:E.
    + eexists. split; [reflexivity|]. rewrite posts_snoc_post. lia.
    + destruct (matches retryable e) eqn:Hre.
      * exfalso. apply Hstop. now exists e.
      * eexists. split; [reflexivity|]. rewrite posts_snoc_post. lia.
  - destruct (Hbefore 0 ltac:(lia)) as (e & He & Hre).
    rewrite Nat.add_0_r in He. rewrite He, Hre.
    destruct (IH (Some e) ((w ++ [EvPost {| req_model := deepseek_model settings;
                                            req_images := enc |}])
                            ++ [EvLogWarning a e]) j) as (w' & Hloop & Hposts).
    + lia.
    + intros i Hi. rewrite posts_snoc_warning, posts_snoc_post.
      replace (S (posts w) + i) with (posts w + S i) by lia. apply Hbefore. lia.
    + rewrite posts_snoc_warning, posts_snoc_post.
      replace (S (posts w) + j) with (posts w + S j) by lia. exact Hstop.
    + exists w'. rewrite Hloop, Hposts, posts_snoc_warning, posts_snoc_post.
      replace (S (posts w) + j) with (posts w + S j) by lia.
      split; [reflexivity | lia].
Qed.

(** A record the loop returns is the outcome of one of its attempts. *)
Lemma attempts_loop_returns attempts enc last w r w' :
  attempts_loop settings attempts enc last w = (Ok r, w') ->
  exists k, posts w <= k < posts w + length attempts /\
            attempt_result settings enc k = Ok r.
Proof.
  revert last w. induction attempts as [|a rest IH]; intros last w; simpl.
  - discriminate.
  - rewrite attempt_once_eq.
    destruct (attempt_result settings enc (posts w)) as [r0|e] eqn:E.
    + intros [= -> <-]. exists (posts w). split; [lia | exact E].
    + destruct (matches retryable e); [|discriminate].
      intros (k & Hk & Hr)%IH. rewrite posts_snoc_warning, posts_snoc_post in Hk.
      exists k. split; [lia | exact Hr].
Qed.

Lemma py_range_length lo hi : length (py_range lo hi) = Z.to_nat (hi - lo).
Proof. unfold py_range. now rewrite length_map, length_seq. Qed.

Lemma attempt_count :
  length (py_range 1 (max_request_retries settings + 1)) =
    Z.to_nat (max_request_retries settings).
Proof. rewrite py_range_length. f_equal. lia. Qed.

Lemma encode_all_extends paths w :
  extends read_event w (snd (encode_all paths w)) /\
  (Forall readable paths ->
   fst (encode_all paths w) = Ok (encoded_of paths)).
Proof.
  revert w. induction paths as [|path rest IH]; intros w; simpl.
  - split; [apply extends_refl | reflexivity].
  - unfold bind, _encode_image, call, ret. unfold bind.
    destruct (read_bytes path) as [content|e] eqn:E; simpl.
    + destruct (IH (w ++ [EvRead path])) as [Hext Hok].
      destruct (encode_all rest (w ++ [EvRead path])) as [[tail|e] w'] eqn:E2; simpl in *.
      * split.
        -- eapply extends_trans; [|exact Hext]. now apply extends_one.
        -- intros Hall. inversion Hall as [|? ? _ Hrest]; subst.
           specialize (Hok Hrest). now inversion Hok.
      * split.
        -- eapply extends_trans; [|exact Hext]. now apply extends_one.
        -- intros Hall. inversion Hall as [|? ? _ Hrest]; subst.
           specialize (Hok Hrest). discriminate.
    + split; [now apply extends_one|].
      intros Hall. inversion Hall as [|? ? Hr _]; subst.
      unfold readable in Hr. rewrite E in Hr. discriminate.
Qed.

Lemma extract_invoice_extends paths w :
  extends client_event w (snd (extract_invoice settings paths w)).
Proof.
  unfold extract_invoice. destruct paths as [|path rest]; [apply extends_refl|].
  unfold bind. destruct (encode_all_extends (path :: rest) w) as [Hext _].
  destruct (encode_all (path :: rest) w) as [[enc|e] w1]; simpl in Hext.
  - eapply extends_trans.
    + eapply extends_weaken; [|exact Hext]. intros ev; unfold client_event; tauto.
    + eapply extends_weaken; [|apply attempts_loop_extends].
      intros ev; unfold client_event; tauto.
  - simpl. eapply extends_weaken; [|exact Hext]. intros ev; unfold client_event; tauto.
Qed.

Lemma extract_invoice_readable paths w :
  paths <> [] -> Forall readable paths ->
  exists w1,
    posts w1 = posts w /\
    extract_invoice settings paths w =
      attempts_loop settings (py_range 1 (max_request_retries settings + 1))
        (encoded_of paths) None w1.
Proof.
  intros Hne Hall. unfold extract_invoice. destruct paths as [|path rest]; [congruence|].
  unfold bind. destruct (encode_all_extends (path :: rest) w) as [Hext Hok].
  specialize (Hok Hall).
  destruct (encode_all (path :: rest) w) as [res w1]; simpl in *. subst res.
  exists w1. split; [|reflexivity].
  eapply extends_count; [|exact Hext]. now intros [].
Qed.

Lemma posts_monotone (P : event -> Prop) w w' :
  extends P w w' -> posts w <= posts w'.
Proof. intros (evs & -> & _). rewrite count_events_app. lia. Qed.

Lemma extract_invoice_bound paths w :
  posts (snd (extract_invoice settings paths w)) <=
    posts w + Z.to_nat (max_request_retries settings).
Proof.
  unfold extract_invoice. destruct paths as [|path rest]; [simpl; lia|].
  unfold bind. destruct (encode_all_extends (path :: rest) w) as [Hext _].
  assert (Hposts : posts (snd (encode_all (path :: rest) w)) = posts w).
  { eapply extends_count; [|exact Hext]. now intros []. }
  destruct (encode_all (path :: rest) w) as [[enc|e] w1]; simpl in *.
  - etransitivity; [apply attempts_loop_bound|]. rewrite attempt_count. lia.
  - lia.
Qed.

(** A record [extract_invoice] returns is the outcome of an attempt. *)
Lemma extract_invoice_returns paths w r w' :
  extract_invoice settings paths w = (Ok r, w') ->
  exists enc k, attempt_result settings enc k = Ok r.
Proof.
  unfold extract_invoice. destruct paths as [|path rest]; [discriminate|].
  unfold bind. destruct (encode_all (path :: rest) w) as [[enc|e] w1]; [|discriminate].
  intros (k & _ & Hk)%attempts_loop_returns. eauto.
Qed.

(** An exception the loop does not catch ends [extract_invoice] at the
    attempt that raised it. *)
Lemma extract_invoice_uncaught paths w e :
  paths <> [] -> Forall readable paths ->
  (0 < max_request_retries settings)%Z ->
  attempt_result settings (encoded_of paths) (posts w) = Raise e ->
  matches retryable e = false ->
  fst (extract_invoice settings paths w) = Raise e /\
  posts (snd (extract_invoice settings paths w)) = S (posts w).
Proof.
  intros Hne Hread Hmax He Hun.
  destruct (extract_invoice_readable paths w Hne Hread) as (w1 & Hw1 & Hrun).
  destruct (attempts_loop_stops (py_range 1 (max_request_retries settings + 1))
              (encoded_of paths) None w1 0) as (w' & Hloop & Hposts).
  - rewrite attempt_count. lia.
  - intros i Hi. lia.
  - rewrite Nat.add_0_r, Hw1, He. intros (e' & [= <-] & Hre). congruence.
  - rewrite Hrun, Hloop. simpl. rewrite Nat.add_0_r, Hw1 in *. rewrite He. split; [reflexivity | lia].
Qed.

Lemma not_retryable_ok (r : InvoiceOCRResponse.t) :
  ~ fails_retryably (Ok r).
Proof. intros (e & He & _). discriminate. Qed.

(** C1. For a non-empty sequence of page images, [extract_invoice] makes
    at most [max_request_retries] attempts (as many as [range(1, max + 1)]
    has elements), each the full cycle of request, parsing and
    validation. When the images can be read: if the first [N - 1]
    attempts fail with an exception the loop catches and attempt [N]
    yields a valid record, that record is returned after exactly [N]
    requests; if every attempt fails that way, exactly
    [max_request_retries] requests are made and [OCRClientError] is
    raised with the failure of the last attempt as its cause. *)
Theorem extract_invoice_retry_count (image_paths : list Path) (w : log) :
  image_paths <> [] ->
  let n := Z.to_nat (max_request_retries settings) in
  let enc := encoded_of image_paths in
  let outcome := extract_invoice settings image_paths w in
  let attempts := posts (snd outcome) - posts w in
  posts w <= posts (snd outcome) /\
  attempts <= n /\
  (Forall readable image_paths ->
   (forall N r,
      1 <= N <= n ->
      (forall i, i < N - 1 ->
                 fails_retryably (attempt_result settings enc (posts w + i))) ->
      attempt_result settings enc (posts w + (N - 1)) = Ok r ->
      fst outcome = Ok r /\ attempts = N) /\
   ((forall i, i < n ->
               fails_retryably (attempt_result settings enc (posts w + i))) ->
    attempts = n /\
    fst outcome =
      Raise (Exc OCRClientError "OCR failed after retries"
               (match n with
                | O => None
                | S k => error_of (attempt_result settings enc (posts w + k))
                end)))).
Proof.
  intros Hne n enc outcome attempts. split; [|split].
  - apply (posts_monotone _ _ _ (extract_invoice_extends image_paths w)).
  - subst attempts outcome n. pose proof (extract_invoice_bound image_paths w). lia.
  - intros Hread.
    destruct (extract_invoice_readable image_paths w Hne Hread) as (w1 & Hw1 & Hrun).
    subst attempts outcome. rewrite Hrun. fold enc. split.
    + intros N r HN Hbefore Hok.
      destruct (attempts_loop_stops (py_range 1 (max_request_retries settings + 1))
                  enc None w1 (N - 1)) as (w' & Hloop & Hposts).
      * rewrite attempt_count. fold n. lia.
      * intros i Hi. rewrite Hw1. now apply Hbefore.
      * rewrite Hw1, Hok. apply not_retryable_ok.
      * rewrite Hloop; simpl. rewrite Hposts, Hw1, Hok. split; [reflexivity | lia].
    + intros Hall.
      destruct (attempts_loop_exhausted (py_range 1 (max_request_retries settings + 1))
                  enc None w1) as (w' & Hloop & Hposts).
      * intros i Hi. rewrite attempt_count in Hi. rewrite Hw1. now apply Hall.
      * rewrite Hloop; simpl. rewrite Hposts, attempt_count, Hw1. fold n.
        split; [lia | reflexivity].
Qed.
End Facts.
End ClientFacts.

Module RasterizerFacts.
Import Rasterizer EffectFacts.

Section Facts.
Context `{!Host}.

Lemma save_pages_extends tmp images idx acc w :
  extends raster_event w (snd (save_pages tmp images idx acc w)).
Proof.
  revert idx acc w. induction images as [|img rest IH]; intros idx acc w; simpl.
  - apply extends_refl.
  - unfold bind, call. destruct (image_save img _) as [[]|e]; simpl.
    + eapply extends_trans; [|apply IH]. now apply extends_one.
    + now apply extends_one.
Qed.

Lemma pdf_bytes_to_images_extends pdf dpi w :
  extends raster_event w (snd (pdf_bytes_to_images pdf dpi w)).
Proof.
  unfold pdf_bytes_to_images, bind, call, ret.
  destruct (mkdtemp _) as [dir|e]; simpl; [|now apply extends_one].
  destruct (convert_from_bytes pdf dpi) as [images|e]; simpl.
  - pose proof (save_pages_extends dir images 1 []
                  ((w ++ [EvMkdtemp "invoice_pages_"]) ++ [EvConvert dpi])) as Hext.
    destruct (save_pages dir images 1 [] _) as [[paths|e] w']; simpl in *.
    all: eapply extends_trans; [|exact Hext].
    all: eapply extends_trans; now apply extends_one.
  - eapply extends_trans; now apply extends_one.
Qed.

(** The renderer fails: its exception leaves [pdf_bytes_to_images] as it is. *)
Lemma unparsable_propagates pdf dpi w dir e :
  mkdtemp "invoice_pages_" = Ok dir ->
  convert_from_bytes pdf dpi = Raise e ->
  pdf_bytes_to_images pdf dpi w =
    (Raise e, (w ++ [EvMkdtemp "invoice_pages_"]) ++ [EvConvert dpi]).
Proof.
  intros Hdir Hconv. unfold pdf_bytes_to_images, bind, call.
  now rewrite Hdir, Hconv.
Qed.

(** The renderer returns no page: the call succeeds with no path. *)
Lemma zero_pages_returned pdf dpi w dir :
  mkdtemp "invoice_pages_" = Ok dir ->
  convert_from_bytes pdf dpi = Ok [] ->
  pdf_bytes_to_images pdf dpi w =
    (Ok {| image_paths := []; _tmpdir := dir |},
     (w ++ [EvMkdtemp "invoice_pages_"]) ++ [EvConvert dpi]).
Proof.
  intros Hdir Hconv. unfold pdf_bytes_to_images, bind, call.
  now rewrite Hdir, Hconv.
Qed.

(** C2 (as the code has it). When the PDF library cannot parse the
    input, [pdf_bytes_to_images] fails with the library's own exception,
    unchanged; when rendering yields zero pages it does not fail: it
    returns a [RasterizedPDF] whose [image_paths] is empty. *)
Theorem rasterize_failure_and_zero_pages (pdf_bytes : bytes) (dpi : Z)
    (w : log) (dir : string) :
  mkdtemp "invoice_pages_" = Ok dir ->
  (forall e, convert_from_bytes pdf_bytes dpi = Raise e ->
             fst (pdf_bytes_to_images pdf_bytes dpi w) = Raise e) /\
  (convert_from_bytes pdf_bytes dpi = Ok [] ->
   fst (pdf_bytes_to_images pdf_bytes dpi w) =
     Ok {| image_paths := []; _tmpdir := dir |}).
Proof.
  intros Hdir. split.
  - intros e He. now rewrite (unparsable_propagates _ _ _ _ _ Hdir He).
  - intros Hz. now rewrite (zero_pages_returned _ _ _ _ Hdir Hz).
Qed.
End Facts.
End RasterizerFacts.

Module PipelineFacts.
Import Config Schema Rasterizer OcrClient Pipeline EffectFacts ClientFacts RasterizerFacts.

Section Facts.
Context `{!JsonLib} `{!PydanticCore} `{!Host}.
Variable settings : Settings.

Abbreviation cleanups := (count_events is_cleanup).
Abbreviation posts := (count_events is_post).
Abbreviation reads := (count_events is_read).

(** What the [finally] block adds to the log for a rasterized PDF. *)
Definition cleanup_events (r : RasterizedPDF) : list event :=
  EvCleanup (_tmpdir r) ::
  (if is_ok (tmpdir_cleanup (_tmpdir r)) then []
   else [EvLogDebug "Failed to cleanup temp files"]).

Lemma run_finally_some r w :
  run_finally (Some r) w = (Ok tt, w ++ cleanup_events r).
Proof.
  unfold run_finally, try_except, cleanup, call, cleanup_events.
  destruct (tmpdir_cleanup (_tmpdir r)) as [[]|e]; simpl; [reflexivity|].
  rewrite all_are_exceptions. unfold emit, call. now rewrite <- app_assoc.
Qed.

Lemma cleanups_cleanup_events r : cleanups (cleanup_events r) = 1.
Proof.
  unfold cleanup_events, count_events.
  destruct (is_ok (tmpdir_cleanup (_tmpdir r))); reflexivity.
Qed.

Lemma run_after_rasterization pdf w rasterized w1 :
  pdf_bytes_to_images pdf (pdf_raster_dpi settings) w = (Ok rasterized, w1) ->
  run settings pdf w =
    (fst (extract_invoice settings (image_paths rasterized) w1),
     snd (extract_invoice settings (image_paths rasterized) w1)
       ++ cleanup_events rasterized).
Proof.
  intros Hrast. unfold run, run_try. rewrite Hrast.
  destruct (extract_invoice settings (image_paths rasterized) w1) as [res w2].
  cbn [fst snd]. now rewrite run_finally_some.
Qed.

(** C3. When rasterization succeeds, [run] returns what
    [extract_invoice] returns or raises what it raises, unchanged; the
    cleanup of the temporary directory is invoked exactly once whatever
    the outcome; and when the cleanup itself raises, that exception is
    logged and dropped. *)
Theorem run_cleans_up_once (pdf_bytes : bytes) (w w1 : log)
    (rasterized : RasterizedPDF) :
  pdf_bytes_to_images pdf_bytes (pdf_raster_dpi settings) w = (Ok rasterized, w1) ->
  let extraction := extract_invoice settings (image_paths rasterized) w1 in
  let outcome := run settings pdf_bytes w in
  fst outcome = fst extraction /\
  cleanups (snd outcome) = cleanups w + 1 /\
  snd outcome =
    snd extraction ++ EvCleanup (_tmpdir rasterized) ::
      (match tmpdir_cleanup (_tmpdir rasterized) with
       | Ok _ => []
       | Raise _ => [EvLogDebug "Failed to cleanup temp files"]
       end).
Proof.
  intros Hrast extraction outcome. subst outcome.
  rewrite (run_after_rasterization _ _ _ _ Hrast). fold extraction. simpl.
  split; [reflexivity|]. split.
  - rewrite count_events_app, cleanups_cleanup_events. f_equal.
    transitivity (cleanups w1).
    + eapply extends_count; [|apply extract_invoice_extends].
      intros ev [Hev|Hev]; destruct ev; simpl in *; tauto.
    + pose proof (pdf_bytes_to_images_extends pdf_bytes (pdf_raster_dpi settings) w) as Hext.
      rewrite Hrast in Hext. eapply extends_count; [|exact Hext].
      intros ev Hev; destruct ev; simpl in *; tauto.
  - unfold cleanup_events. now destruct (tmpdir_cleanup _).
Qed.

(** C10. A PDF that rasterizes to zero pages: the rasterizer returns
    (with no image path), and [run] fails with the [ValueError] of the
    OCR client for an empty input; no image is read and no request is
    sent on the way. *)
Theorem run_zero_pages (pdf_bytes : bytes) (w : log) (dir : string) :
  mkdtemp "invoice_pages_" = Ok dir ->
  convert_from_bytes pdf_bytes (pdf_raster_dpi settings) = Ok [] ->
  let outcome := run settings pdf_bytes w in
  fst (pdf_bytes_to_images pdf_bytes (pdf_raster_dpi settings) w) =
    Ok {| image_paths := []; _tmpdir := dir |} /\
  fst outcome = Raise (Exc ValueError "Expected at least one image for OCR" None) /\
  reads (snd outcome) = reads w /\
  posts (snd outcome) = posts w.
Proof.
  intros Hdir Hconv outcome. subst outcome.
  pose proof (zero_pages_returned _ _ w _ Hdir Hconv) as Hrast.
  rewrite (run_after_rasterization _ _ _ _ Hrast), Hrast.
  simpl. split; [reflexivity|]. split; [reflexivity|].
  unfold cleanup_events.
  cbn [_tmpdir]. unfold count_events.
  destruct (is_ok (tmpdir_cleanup dir));
    rewrite !List.filter_app, !length_app; simpl; lia.
Qed.
End Facts.
End PipelineFacts.

Module ParseFacts.
Import Config Schema OcrClient EffectFacts ClientFacts SchemaFacts.

Section Facts.
Context `{!JsonLib} `{!PydanticCore}.
Variable settings : Settings.

Lemma setdefault_lookup (m : gmap string json) k dflt k' :
  setdefault m k dflt !! k' =
    if decide (k = k') then Some (default dflt (m !! k)) else m !! k'.
Proof.
  unfold setdefault. destruct (m !! k) as [v|] eqn:E.
  - case_decide; subst; simpl; congruence.
  - rewrite lookup_insert. case_decide; reflexivity.
Qed.

(** The dictionaries [fill_defaults] accepts and what it returns. *)
Lemma fill_defaults_dict (m : gmap string json) inner :
  default (JObj ∅) (m !! "data") = JObj inner ->
  exists data,
    fill_defaults settings (JObj m) = Ok data /\
    data !! "schema_version" = Some (default (JStr "invoice_v1") (m !! "schema_version")) /\
    data !! "status" = Some (default (JStr "success") (m !! "status")) /\
    data !! "model" = Some (default (JStr (deepseek_model settings)) (m !! "model")) /\
    data !! "warnings" = Some (default (JArr []) (m !! "warnings")) /\
    data !! "data" = Some (JObj (setdefault inner "totals" (JObj ∅))) /\
    (forall k, k <> "schema_version" -> k <> "status" -> k <> "model" ->
               k <> "warnings" -> k <> "data" -> data !! k = m !! k).
Proof.
  intros Hinner. unfold fill_defaults, call_setdefault; cbn [result_bind].
  unfold getitem. rewrite setdefault_lookup. rewrite decide_True by reflexivity.
  rewrite !setdefault_lookup. repeat (rewrite decide_False by discriminate).
  rewrite Hinner. cbn [result_bind]. eexists. split; [reflexivity|].
  repeat split.
  1-4: rewrite lookup_insert_ne by discriminate; rewrite !setdefault_lookup;
       repeat first [rewrite decide_True by reflexivity | rewrite decide_False by discriminate];
       reflexivity.
  - now rewrite lookup_insert_eq.
  - intros k H1 H2 H3 H4 H5. rewrite lookup_insert_ne by congruence.
    rewrite !setdefault_lookup. now rewrite !decide_False by congruence.
Qed.


Lemma fill_defaults_non_dict v :
  (forall m, v <> JObj m) ->
  fill_defaults settings v =
    Raise (Exc AttributeError "object has no attribute 'setdefault'" None).
Proof. intros Hv. destruct v; try reflexivity. now destruct (Hv m). Qed.

(** The content is a string that does not decode. *)
Lemma parse_undecodable completion s :
  completion_content completion = Ok (JStr s) -> json_loads s = None ->
  _parse_completion settings completion =
    Raise (Exc OCRClientError "Model did not return valid JSON"
             (Some (Exc JSONDecodeError "Expecting value" None))).
Proof.
  intros Hc Hs. unfold _parse_completion. rewrite Hc. cbn [catch result_bind loads].
  rewrite Hs. reflexivity.
Qed.

(** The content decodes to [v]. *)
Lemma parse_decoded completion s v :
  completion_content completion = Ok (JStr s) -> json_loads s = Some v ->
  _parse_completion settings completion =
    match fill_defaults settings v with
    | Ok data =>
        match InvoiceOCRResponse.model_validate (JObj data) with
        | Some payload => Ok payload
        | None => Raise (Exc ValidationError "validation error for InvoiceOCRResponse" None)
        end
    | Raise e => Raise e
    end.
Proof.
  intros Hc Hs. unfold _parse_completion. rewrite Hc. cbn [catch result_bind loads].
  rewrite Hs. cbn [catch result_bind]. reflexivity.
Qed.

(** The content decodes to something that is not a dictionary. *)
Lemma parse_non_dict completion s v :
  completion_content completion = Ok (JStr s) -> json_loads s = Some v ->
  (forall m, v <> JObj m) ->
  _parse_completion settings completion =
    Raise (Exc AttributeError "object has no attribute 'setdefault'" None).
Proof.
  intros Hc Hs Hv. rewrite (parse_decoded _ _ _ Hc Hs).
  now rewrite fill_defaults_non_dict.
Qed.

(** The loop catches the parse error of undecodable content, and does
    not catch what a decoded value that is not a dictionary raises. *)
Lemma undecodable_is_retried completion s :
  completion_content completion = Ok (JStr s) -> json_loads s = None ->
  exists e, _parse_completion settings completion = Raise e /\
            matches retryable e = true.
Proof.
  intros Hc Hs. rewrite (parse_undecodable _ _ Hc Hs). eexists. split; reflexivity.
Qed.

Lemma non_dict_is_not_retried completion s v :
  completion_content completion = Ok (JStr s) -> json_loads s = Some v ->
  (forall m, v <> JObj m) ->
  exists e, _parse_completion settings completion = Raise e /\
            matches retryable e = false.
Proof.
  intros Hc Hs Hv. rewrite (parse_non_dict _ _ _ Hc Hs Hv). eexists. split; reflexivity.
Qed.

(** A record comes from a dictionary the content decoded to. *)
Lemma parse_returns completion r :
  _parse_completion settings completion = Ok r ->
  exists m data,
    response_object completion = Some m /\
    fill_defaults settings (JObj m) = Ok data /\
    InvoiceOCRResponse.model_validate (JObj data) = Some r.
Proof.
  unfold _parse_completion, response_object.
  destruct (completion_content completion) as [content|e]; cbn [catch result_bind].
  2: { destruct (matches _ e); discriminate. }
  destruct content; cbn [loads catch result_bind];
    try (unfold matches; simpl; discriminate).
  destruct (json_loads s) as [v|]; cbn [catch result_bind];
    [|unfold matches; simpl; discriminate].
  destruct v; try discriminate.
  destruct (fill_defaults settings (JObj m)) as [data|e] eqn:Ef;
    cbn [result_bind]; [|discriminate].
  destruct (InvoiceOCRResponse.model_validate (JObj data)) as [p|] eqn:E; [|discriminate].
  intros [= <-]. eauto.
Qed.
End Facts.
End ParseFacts.

Module CoercionFacts.
Import Config Schema OcrClient EffectFacts ClientFacts SchemaFacts ParseFacts.

Ltac chain_inv H :=
  repeat match type of H with
         | (?x ≫= _) = Some _ =>
             let E := fresh "E" in
             destruct x eqn:E; cbn [mbind option_bind] in H; [|discriminate H]
         end.

Section Facts.
Context `{!JsonLib} `{!PydanticCore}.
Variable settings : Settings.

Lemma with_default_ext {A} (m m' : gmap string json) k (f : json -> option A) dflt :
  m' !! k = m !! k -> with_default m' k f dflt = with_default m k f dflt.
Proof. intros Hk. unfold with_default. now rewrite Hk. Qed.

Lemma totals_of_empty : InvoiceTotals.validate (JObj ∅) = Some InvoiceTotals.default.
Proof. reflexivity. Qed.

(** An absent ["totals"] and an empty one validate alike. *)
Lemma data_validate_setdefault (inner : gmap string json) :
  InvoiceData.validate (JObj (setdefault inner "totals" (JObj ∅))) =
    InvoiceData.validate (JObj inner).
Proof.
  unfold setdefault. destruct (inner !! "totals") as [v|] eqn:E; [reflexivity|].
  unfold InvoiceData.validate.
  rewrite (with_default_present (<["totals" := JObj ∅]> inner) "totals" (JObj ∅))
    by apply lookup_insert_eq.
  repeat (rewrite (with_default_ext inner (<["totals" := JObj ∅]> inner))
            by (now rewrite lookup_insert_ne by discriminate)).
  rewrite (with_default_absent inner "totals") by exact E.
  now rewrite totals_of_empty.
Qed.

Lemma data_validate_without_totals (inner : gmap string json) r :
  InvoiceData.validate (JObj inner) = Some r ->
  InvoiceData.validate (JObj (delete "totals" inner)) = Some (reset_totals r).
Proof.
  unfold InvoiceData.validate. intros Hr.
  rewrite (with_default_absent (delete "totals" inner) "totals")
    by apply lookup_delete_eq.
  repeat (rewrite (with_default_ext inner (delete "totals" inner))
            by (now rewrite lookup_delete_ne by discriminate)).
  chain_inv Hr. injection Hr as <-. reflexivity.
Qed.

Lemma strip_schema_version o full :
  strip o full !! "schema_version" =
    if no_schema_version o then None else full !! "schema_version".
Proof.
  destruct o as [a b c d e]; unfold strip, without; simpl.
  destruct a, b, c, d, e; simplify_map_eq; reflexivity.
Qed.

Lemma strip_status o full :
  strip o full !! "status" = if no_status o then None else full !! "status".
Proof.
  destruct o as [a b c d e]; unfold strip, without; simpl.
  destruct a, b, c, d, e; simplify_map_eq; reflexivity.
Qed.

Lemma strip_model o full :
  strip o full !! "model" = if no_model o then None else full !! "model".
Proof.
  destruct o as [a b c d e]; unfold strip, without; simpl.
  destruct a, b, c, d, e; simplify_map_eq; reflexivity.
Qed.

Lemma strip_warnings o full :
  strip o full !! "warnings" = if no_warnings o then None else full !! "warnings".
Proof.
  destruct o as [a b c d e]; unfold strip, without; simpl.
  destruct a, b, c, d, e; simplify_map_eq; reflexivity.
Qed.

Lemma strip_data o full :
  strip o full !! "data" =
    if no_totals o then without_totals <$> full !! "data" else full !! "data".
Proof.
  destruct o as [a b c d e]; unfold strip, without; simpl.
  destruct a, b, c, d, e; simplify_map_eq;
    rewrite ?lookup_alter_eq; reflexivity.
Qed.

Lemma strip_other o full k :
  k <> "schema_version" -> k <> "status" -> k <> "model" ->
  k <> "warnings" -> k <> "data" ->
  strip o full !! k = full !! k.
Proof.
  intros. destruct o as [a b c d e]; unfold strip, without; simpl.
  destruct a, b, c, d, e; simplify_map_eq;
    rewrite ?lookup_alter_ne by congruence; reflexivity.
Qed.
End Facts.
End CoercionFacts.

Module CoercionTheorems.
Import Config Schema OcrClient EffectFacts ClientFacts SchemaFacts ParseFacts CoercionFacts.

Section Facts.
Context `{!JsonLib} `{!PydanticCore}.
Variable settings : Settings.

Lemma required_Some {A} (m : gmap string json) k (f : json -> option A) x :
  required m k f = Some x -> exists v, m !! k = Some v /\ f v = Some x.
Proof. unfold required. destruct (m !! k) as [v|]; simpl; [eauto | discriminate]. Qed.

(** Validating the default put in place of a removed key, or the value
    that was kept. *)
Lemma field_filled {A} (f : json -> option A) (dv : json) (d x : A)
    (flag : bool) (m data : gmap string json) k :
  f dv = Some d ->
  with_default m k f d = Some x ->
  data !! k = Some (default dv (if flag then None else m !! k)) ->
  with_default data k f d = Some (if flag then d else x).
Proof.
  intros Hd Hx Hk. unfold with_default in *. rewrite Hk.
  destruct flag; simpl; [exact Hd|].
  destruct (m !! k); simpl; [exact Hx | congruence].
Qed.

Lemma data_is_dict v r :
  InvoiceData.validate v = Some r -> exists inner, v = JObj inner.
Proof. destruct v; try discriminate. eauto. Qed.

Lemma coerced_validates o (full : gmap string json) r :
  InvoiceOCRResponse.model_validate (JObj full) = Some r ->
  exists data,
    fill_defaults settings (JObj (strip o full)) = Ok data /\
    InvoiceOCRResponse.model_validate (JObj data) =
      Some (with_boilerplate_defaults settings o r).
Proof.
  intros Hfull. unfold InvoiceOCRResponse.model_validate in Hfull.
  chain_inv Hfull. injection Hfull as <-.
  match goal with
  | E : required full "data" _ = Some _ |- _ =>
      apply required_Some in E as (vd & Hdata & Hvd);
      destruct (data_is_dict _ _ Hvd) as (inner & ->)
  end.
  match goal with
  | E : required full "model" _ = Some _ |- _ =>
      apply required_Some in E as (vm & Hmodel & Hvm)
  end.
  destruct (fill_defaults_dict settings (strip o full)
              (if no_totals o then delete "totals" inner else inner))
    as (data & Hfill & Hsv & Hst & Hmo & Hwa & Hda & Hother).
  { rewrite strip_data, Hdata. now destruct (no_totals o). }
  exists data. split; [exact Hfill|].
  rewrite strip_schema_version in Hsv. rewrite strip_status in Hst.
  rewrite strip_model in Hmo. rewrite strip_warnings in Hwa.
  unfold InvoiceOCRResponse.model_validate, with_boilerplate_defaults.
  cbn [InvoiceOCRResponse.schema_version InvoiceOCRResponse.status
       InvoiceOCRResponse.model InvoiceOCRResponse.data
       InvoiceOCRResponse.warnings InvoiceOCRResponse.raw_text].
  erewrite (field_filled validate_str (JStr "invoice_v1") "invoice_v1");
    [|reflexivity|eassumption|exact Hsv].
  erewrite (field_filled validate_status (JStr "success") success);
    [|reflexivity|eassumption|exact Hst].
  cbn [mbind option_bind].
  rewrite (required_present data "model" _ _ Hmo).
  rewrite (required_present data "data" _ _ Hda).
  rewrite data_validate_setdefault.
  erewrite (field_filled (list_of validate_str) (JArr []) []);
    [|reflexivity|eassumption|exact Hwa].
  rewrite (with_default_ext full data "raw_text")
    by (rewrite Hother by discriminate; now apply strip_other).
  match goal with
  | E : with_default full "raw_text" _ _ = Some _ |- _ => rewrite E
  end.
  rewrite Hmodel. 
  destruct (no_model o), (no_totals o);
    cbn [from_option id validate_str mbind option_bind].
  all: rewrite ?Hvm; cbn [mbind option_bind].
  all: rewrite ?(data_validate_without_totals _ _ Hvd), ?Hvd; reflexivity.
Qed.

Lemma fill_defaults_exact (m inner : gmap string json) :
  default (JObj ∅) (m !! "data") = JObj inner ->
  exists data,
    fill_defaults settings (JObj m) = Ok data /\
    (forall k, k <> "data" ->
               data !! k = match m !! k with
                           | Some v => Some v
                           | None => boilerplate_default settings k
                           end) /\
    data !! "data" = Some (JObj (setdefault inner "totals" (JObj ∅))).
Proof.
  intros Hinner.
  destruct (fill_defaults_dict settings m inner Hinner)
    as (data & Hfill & Hsv & Hst & Hmo & Hwa & Hda & Hother).
  exists data. split; [exact Hfill|]. split; [|exact Hda].
  intros k Hk. unfold boilerplate_default.
  repeat case_decide; subst.
  - rewrite Hsv. now destruct (m !! "schema_version").
  - rewrite Hst. now destruct (m !! "status").
  - rewrite Hmo. now destruct (m !! "model").
  - rewrite Hwa. now destruct (m !! "warnings").
  - rewrite Hother by assumption. now destruct (m !! k).
Qed.

Lemma line_item_needs_description item :
  member item "description" = None -> InvoiceLineItem.validate item = None.
Proof.
  destruct item; try reflexivity. intros Hk.
  change (m !! "description" = None) in Hk.
  unfold InvoiceLineItem.validate, required. now rewrite Hk.
Qed.

Lemma missing_description_rejected completion content
    (m inner : gmap string json) items i item :
  completion_content completion = Ok (JStr content) ->
  json_loads content = Some (JObj m) ->
  m !! "data" = Some (JObj inner) ->
  inner !! "line_items" = Some (JArr items) ->
  items !! i = Some item ->
  member item "description" = None ->
  _parse_completion settings completion =
    Raise (Exc ValidationError "validation error for InvoiceOCRResponse" None).
Proof.
  intros Hc Hs Hdata Hitems Hi Hitem.
  rewrite (parse_decoded settings _ _ _ Hc Hs).
  destruct (fill_defaults_dict settings m inner)
    as (data & Hfill & _ & _ & _ & _ & Hda & _).
  { now rewrite Hdata. }
  rewrite Hfill.
  rewrite (response_rejects_data data _ Hda); [reflexivity|].
  rewrite data_validate_setdefault.
  apply (data_rejects_line_items _ _ Hitems).
  apply (list_of_rejects _ _ _ _ Hi).
  now apply line_item_needs_description.
Qed.

Lemma stripped_response_parses (completion : json) (content : string)
    (full : gmap string json) (o : omitted) (r : InvoiceOCRResponse.t) :
  completion_content completion = Ok (JStr content) ->
  json_loads content = Some (JObj (strip o full)) ->
  InvoiceOCRResponse.model_validate (JObj full) = Some r ->
  (exists data inner,
      strip o full !! "data" = Some (JObj inner) /\
      fill_defaults settings (JObj (strip o full)) = Ok data /\
      (forall k, k <> "data" ->
                 data !! k = match strip o full !! k with
                             | Some v => Some v
                             | None => boilerplate_default settings k
                             end) /\
      data !! "data" = Some (JObj (setdefault inner "totals" (JObj ∅)))) /\
  _parse_completion settings completion =
    Ok (with_boilerplate_defaults settings o r).
Proof.
  intros Hc Hs Hfull.
  destruct (coerced_validates o full r Hfull) as (data & Hfill & Hvalid).
  split.
  - pose proof Hfull as Hinv. unfold InvoiceOCRResponse.model_validate in Hinv.
    chain_inv Hinv.
    match goal with
    | E : required full "data" _ = Some _ |- _ =>
        apply required_Some in E as (vd & Hdata & Hvd);
        destruct (data_is_dict _ _ Hvd) as (inner & ->)
    end.
    set (inner' := if no_totals o then delete "totals" inner else inner).
    assert (Hstrip : strip o full !! "data" = Some (JObj inner')).
    { rewrite strip_data, Hdata. subst inner'. now destruct (no_totals o). }
    destruct (fill_defaults_exact (strip o full) inner')
      as (data' & Hfill' & Hkeys & Hda).
    { now rewrite Hstrip. }
    exists data', inner'. auto.
  - rewrite (parse_decoded settings _ _ _ Hc Hs), Hfill, Hvalid. reflexivity.
Qed.

(** C4. Take a completion whose content is a string. If it decodes to an
    otherwise valid payload from which boilerplate keys
    ([schema_version], [status], [model], [warnings], nested
    [data.totals]) were left out, [fill_defaults] gives exactly the
    absent top-level keys their defaults and [data] an empty [totals],
    and [_parse_completion] returns the record carrying the defaults of
    the keys left out. If it decodes to a payload with a line item that
    has no [description], [_parse_completion] fails with
    [ValidationError]. *)
Theorem boilerplate_defaults_filled (completion : json) (content : string) :
  completion_content completion = Ok (JStr content) ->
  (forall (full : gmap string json) (o : omitted) (r : InvoiceOCRResponse.t),
      json_loads content = Some (JObj (strip o full)) ->
      InvoiceOCRResponse.model_validate (JObj full) = Some r ->
      (exists data inner,
          strip o full !! "data" = Some (JObj inner) /\
          fill_defaults settings (JObj (strip o full)) = Ok data /\
          (forall k, k <> "data" ->
                     data !! k = match strip o full !! k with
                                 | Some v => Some v
                                 | None => boilerplate_default settings k
                                 end) /\
          data !! "data" = Some (JObj (setdefault inner "totals" (JObj ∅)))) /\
      _parse_completion settings completion =
        Ok (with_boilerplate_defaults settings o r)) /\
  (forall (m inner : gmap string json) (items : list json) (i : nat) (item : json),
      json_loads content = Some (JObj m) ->
      m !! "data" = Some (JObj inner) ->
      inner !! "line_items" = Some (JArr items) ->
      items !! i = Some item ->
      member item "description" = None ->
      _parse_completion settings completion =
        Raise (Exc ValidationError "validation error for InvoiceOCRResponse" None)).
Proof.
  intros Hc. split.
  - intros full o r Hs Hfull. now apply (stripped_response_parses _ content).
  - intros m inner items i item Hs. now apply (missing_description_rejected _ content).
Qed.
End Facts.
End CoercionTheorems.

Module VersionFacts.
Import Config Schema Rasterizer OcrClient Pipeline.
Import EffectFacts ClientFacts SchemaFacts ParseFacts CoercionFacts CoercionTheorems.

Section Facts.
Context `{!JsonLib} `{!PydanticCore} `{!Host}.
Variable settings : Settings.

Lemma run_returns pdf w r w' :
  run settings pdf w = (Ok r, w') ->
  exists paths w1 w2, extract_invoice settings paths w1 = (Ok r, w2).
Proof.
  unfold run, run_try.
  destruct (pdf_bytes_to_images pdf (pdf_raster_dpi settings) w)
    as [[rasterized|e] w1].
  - destruct (extract_invoice settings (image_paths rasterized) w1)
      as [res w2] eqn:Hext.
    destruct (run_finally (Some rasterized) w2) as [[[]|e] w3]; [|discriminate].
    intros [= -> <-]. eauto.
  - cbn [run_finally ret]. discriminate.
Qed.




End Facts.

End VersionFacts.

Module IndexerFacts.
Import Schema Indexer.

Section Facts.
Context `{!IndexLibs}.

Lemma dump_all_length invoices texts :
  dump_all invoices = Ok texts -> length texts = length invoices.
Proof.
  revert texts. induction invoices as [|inv rest IH]; intros texts; simpl.
  - now intros [= <-].
  - destruct (json_dumps (model_dump inv)) as [blob|e]; simpl; [|discriminate].
    destruct (dump_all rest) as [blobs|e]; simpl; [|discriminate].
    intros [= <-]. simpl. f_equal. now apply IH.
Qed.

Lemma append_all_length store invoices texts :
  length texts = length invoices ->
  length (append_all store invoices texts) = length store + length invoices.
Proof.
  revert store texts. induction invoices as [|inv rest IH]; intros store texts Hlen.
  - destruct texts; simpl; lia.
  - destruct texts as [|blob texts']; simpl in *; [lia|].
    rewrite IH by lia. rewrite length_app. simpl. lia.
Qed.

(** What a call of [add_invoices] that returns does to the two sizes. *)
Lemma add_invoices_grows self invoices self' :
  one_vector_per_text ->
  add_invoices self invoices = (Ok tt, self') ->
  index_size self' = index_size self + length invoices /\
  length (_store self') = length (_store self) + length invoices.
Proof.
  intros Hrows. unfold add_invoices.
  destruct invoices as [|inv rest].
  { intros [= <-]. simpl. lia. }
  lazy beta iota. remember (inv :: rest) as invoices eqn:Hinv. clear Hinv.
  destruct (dump_all invoices) as [texts|e] eqn:Hdump; [|discriminate].
  destruct (encode texts) as [a|e] eqn:Henc; [|discriminate].
  pose proof (Hrows _ _ Henc) as Hshape.
  pose proof (dump_all_length _ _ Hdump) as Hlen.
  destruct (as_2d a) as [v|ncols rows] eqn:H2d.
  { destruct a; discriminate. }
  cbn [shape1 shape0] in *.
  unfold _ensure_index, index_size.
  destruct (_index self) as [ix|] eqn:Hix; cbn [_index].
  - rewrite Hix. unfold index_add.
    destruct (decide (ncols = d ix)); [|discriminate].
    intros [= <-]. cbn [_index _store]. unfold ntotal. cbn [xb].
    rewrite length_app, append_all_length by exact Hlen.
    split; [lia | reflexivity].
  - unfold index_add. cbn [d xb]. rewrite decide_True by reflexivity.
    intros [= <-]. cbn [_index _store]. unfold ntotal. cbn [xb].
    rewrite append_all_length by exact Hlen.
    split; [simpl; lia | reflexivity].
Qed.

(** A call of [add_invoices] that raises leaves both sizes as they were. *)
Lemma add_invoices_raises self invoices e self' :
  add_invoices self invoices = (Raise e, self') ->
  index_size self' = index_size self /\ _store self' = _store self.
Proof.
  unfold add_invoices.
  destruct invoices as [|inv rest]; [discriminate|].
  destruct (dump_all (inv :: rest)) as [texts|e1]; [|now intros [= _ <-]].
  destruct (encode texts) as [a|e1]; [|now intros [= _ <-]].
  destruct (as_2d a) as [v|ncols rows] eqn:H2d.
  { destruct a; discriminate. }
  cbn [shape1]. unfold _ensure_index, index_size.
  destruct (_index self) as [ix|] eqn:Hix; cbn [_index].
  - rewrite Hix. destruct (index_add ix (Mat ncols rows)); [discriminate|].
    intros [= _ <-]. now rewrite Hix.
  - destruct (index_add _ _); [discriminate|].
    intros [= _ <-]. cbn [_index _store]. split; reflexivity.
Qed.

Lemma add_invoices_lockstep self invoices :
  one_vector_per_text -> lockstep self ->
  lockstep (snd (add_invoices self invoices)).
Proof.
  intros Hrows Hself. unfold lockstep in *.
  destruct (add_invoices self invoices) as [[[]|e] self'] eqn:Hadd; simpl.
  - destruct (add_invoices_grows _ _ _ Hrows Hadd). lia.
  - destruct (add_invoices_raises _ _ _ _ Hadd) as [H1 H2]. now rewrite H1, H2.
Qed.

Lemma drop_lockstep self : lockstep (drop self).
Proof. reflexivity. Qed.

Lemma apply_op_lockstep self o :
  one_vector_per_text -> lockstep self -> lockstep (apply_op self o).
Proof.
  intros Hrows Hself. destruct o; simpl.
  - now apply add_invoices_lockstep.
  - apply drop_lockstep.
Qed.




Lemma collect_acc store indices distances results :
  collect store indices distances results =
    results ++ omap (hit_of store) (zip indices distances).
Proof.
  revert distances results.
  induction indices as [|idx indices IH]; intros distances results.
  - destruct distances; simpl; now rewrite app_nil_r.
  - destruct distances as [|score distances]; [simpl; now rewrite app_nil_r|].
    cbn [collect zip zip_with omap list_omap hit_of].
    destruct (decide (idx < 0 \/ idx >= Z.of_nat (length store))%Z) as [Hout|Hin],
             (decide (0 <= idx < Z.of_nat (length store))%Z) as [Hin'|Hout'];
      try (exfalso; lia).
    + apply IH.
    + destruct (store !! Z.to_nat idx) as [entry|]; cbn [mbind option_bind].
      * rewrite IH. now rewrite <- app_assoc.
      * apply IH.
Qed.

Lemma omap_length_le {A B} (f : A -> option B) l :
  length (omap f l) <= length l.
Proof.
  induction l as [|x l IH]; cbn [omap list_omap length]; [lia|].
  destruct (f x); cbn [length]; lia.
Qed.

(** C6. For a positive [top_k], [query] returns the empty list on a new
    index, after [drop] whatever was added before, and whenever no index
    exists. With an index, when the embedder and the search return (the
    search giving [top_k] positions), [query] returns at most [top_k]
    hits: in the order of the search, the payload stored at each
    returned position, without the positions that are negative or not
    below the length of the store. *)
Theorem query_results (self : InvoiceFaissIndex) (query_text : string) (top_k : Z) :
  (0 < top_k)%Z ->
  (forall model_name, query (new model_name) query_text top_k = Ok []) /\
  query (drop self) query_text top_k = Ok [] /\
  (_index self = None -> query self query_text top_k = Ok []) /\
  (forall ix embedding distances indices other_distances other_indices,
      _index self = Some ix ->
      encode [query_text] = Ok embedding ->
      search ix embedding top_k =
        Ok (distances :: other_distances, indices :: other_indices) ->
      length indices = Z.to_nat top_k ->
      exists results,
        query self query_text top_k = Ok results /\
        results = omap (hit_of (_store self)) (zip indices distances) /\
        (Z.of_nat (length results) <= top_k)%Z).
Proof.
  intros Hk. split; [reflexivity|]. split; [reflexivity|]. split.
  - intros Hix. unfold query. now rewrite Hix.
  - intros ix embedding distances indices od oi Hix Henc Hsearch Hlen.
    unfold query. rewrite Hix, Henc. cbn [result_bind]. rewrite Hsearch.
    cbn [result_bind row0]. rewrite collect_acc. cbn [app].
    eexists. split; [reflexivity|]. split; [reflexivity|].
    pose proof (omap_length_le (hit_of (_store self)) (zip indices distances)) as Hle.
    pose proof (length_zip_with pair indices distances) as Hzip.
    change (zip_with pair indices distances) with (zip indices distances) in Hzip.
    lia.
Qed.
End Facts.
End IndexerFacts.

Module Checks.
Import Config Schema Rasterizer OcrClient Pipeline Run.
Import EffectFacts ClientFacts SchemaFacts ParseFacts CoercionFacts CoercionTheorems
       RasterizerFacts PipelineFacts VersionFacts IndexerFacts.

Abbreviation extract host := (@extract_invoice reference_json reference_pydantic host defaults).
Abbreviation run_on host := (@run reference_json reference_pydantic host defaults).
Abbreviation parse := (@_parse_completion reference_json reference_pydantic defaults).

Example format_page_7 : format_03d 7 = "007".
Proof. reflexivity. Qed.

Example decode_array : JsonText.loads "[]" = Some (JArr []).
Proof. reflexivity. Qed.

Example base64_png : Base64.b64encode "PNG" = "UE5H".
Proof. reflexivity. Qed.

Example parse_minimal :
  parse (completion_with minimal_invoice) = Ok (record_of "invoice_v1" "m").
Proof. vm_compute. reflexivity. Qed.

Example parse_bare :
  parse (completion_with bare_invoice) =
    Ok (record_of "invoice_v1" "deepseek-ai/DeepSeek-OCR").
Proof. vm_compute. reflexivity. Qed.

Example parse_negative_tax :
  parse (completion_with negative_tax) =
    Raise (Exc ValidationError "validation error for InvoiceOCRResponse" None).
Proof. vm_compute. reflexivity. Qed.

Example parse_prose :
  parse (completion_with "Here is the invoice you asked for.") =
    Raise (Exc OCRClientError "Model did not return valid JSON"
             (Some (Exc JSONDecodeError "Expecting value" None))).
Proof. vm_compute. reflexivity. Qed.

(** Two timeouts, then an answer: three requests, two warnings. *)
Example flaky_run :
  extract host_flaky [page1] [] =
    (Ok (record_of "invoice_v1" "m"),
     let body := {| req_model := "deepseek-ai/DeepSeek-OCR"; req_images := ["UE5H"] |} in
     [EvRead page1; EvPost body; EvLogWarning 1 timed_out;
      EvPost body; EvLogWarning 2 timed_out; EvPost body]).
Proof. vm_compute. reflexivity. Qed.

(** The endpoint is down: three requests, then the terminal error with
    the last timeout as its cause; the pipeline still removes the
    directory, and the failure of that removal is only logged. *)
Example down_run :
  run_on host_down pdf1 [] =
    (Raise (Exc OCRClientError "OCR failed after retries" (Some timed_out)),
     let body := {| req_model := "deepseek-ai/DeepSeek-OCR"; req_images := ["UE5H"] |} in
     [EvMkdtemp "invoice_pages_"; EvConvert 220; EvSave page1; EvRead page1;
      EvPost body; EvLogWarning 1 timed_out;
      EvPost body; EvLogWarning 2 timed_out;
      EvPost body; EvLogWarning 3 timed_out;
      EvCleanup tmpdir1; EvLogDebug "Failed to cleanup temp files"]).
Proof. vm_compute. reflexivity. Qed.


Lemma extract_invoice_retry_count_witness :
  [page1] <> [] /\
  fst (extract host_flaky [page1] []) = Ok (record_of "invoice_v1" "m") /\
  count_events is_post (snd (extract host_flaky [page1] []))
    - count_events is_post [] = 3.
Proof.
  split; [discriminate|].
  destruct (@extract_invoice_retry_count reference_json reference_pydantic
              host_flaky defaults [page1] [] ltac:(discriminate)) as (_ & _ & Hread).
  destruct Hread as [Hsucc _].
  { repeat constructor. }
  apply (Hsucc 3 (record_of "invoice_v1" "m")).
  - vm_compute. lia.
  - intros i Hi. destruct i as [|[|i]]; [| |simpl in Hi; lia].
    + exists timed_out. split; vm_compute; reflexivity.
    + exists timed_out. split; vm_compute; reflexivity.
  - vm_compute. reflexivity.
Defined.


(** C7. The answer of the model is the JSON array [[]]: the first attempt
    ends in [AttributeError], which the loop does not catch; it leaves
    [extract_invoice] after one request although three are allowed. The
    same happens with an object whose [data] is [null]. *)
Theorem array_response_escapes_retry_loop :
  max_request_retries defaults = 3%Z /\
  JsonText.loads "[]" = Some (JArr []) /\
  fst (extract host_array [page1] []) =
    Raise (Exc AttributeError "object has no attribute 'setdefault'" None) /\
  matches retryable (Exc AttributeError "object has no attribute 'setdefault'" None)
    = false /\
  count_events is_post (snd (extract host_array [page1] [])) = 1 /\
  fst (extract host_null_data [page1] []) =
    Raise (Exc AttributeError "object has no attribute 'setdefault'" None) /\
  count_events is_post (snd (extract host_null_data [page1] [])) = 1.
Proof. vm_compute. repeat split. Qed.

Lemma zero_pages_returned_as_success :
  @convert_from_bytes host_zero_pages pdf1 220 = Ok [] /\
  fst (@pdf_bytes_to_images host_zero_pages pdf1 220 []) =
    Ok {| image_paths := []; _tmpdir := tmpdir1 |} /\
  (forall e, fst (@pdf_bytes_to_images host_zero_pages pdf1 220 []) <> Raise e).
Proof. vm_compute. repeat split. discriminate. Qed.

Lemma rasterize_failure_and_zero_pages_witness :
  @mkdtemp host_not_a_pdf "invoice_pages_" = Ok tmpdir1 /\
  fst (@pdf_bytes_to_images host_not_a_pdf pdf1 220 []) = Raise not_a_pdf.
Proof.
  split; [reflexivity|].
  destruct (@rasterize_failure_and_zero_pages host_not_a_pdf pdf1 220 [] tmpdir1
              eq_refl) as [Hfail _].
  apply Hfail. reflexivity.
Defined.

Lemma run_cleans_up_once_witness :
  let rasterized := {| image_paths := [page1]; _tmpdir := tmpdir1 |} in
  let w1 := [EvMkdtemp "invoice_pages_"; EvConvert 220; EvSave page1] in
  @pdf_bytes_to_images host_down pdf1 (pdf_raster_dpi defaults) [] = (Ok rasterized, w1) /\
  fst (run_on host_down pdf1 []) =
    Raise (Exc OCRClientError "OCR failed after retries" (Some timed_out)) /\
  count_events is_cleanup (snd (run_on host_down pdf1 [])) = 1.
Proof.
  intros rasterized w1.
  assert (Hrast : @pdf_bytes_to_images host_down pdf1 (pdf_raster_dpi defaults) []
                  = (Ok rasterized, w1)) by (vm_compute; reflexivity).
  split; [exact Hrast|].
  destruct (@run_cleans_up_once reference_json reference_pydantic host_down defaults
              pdf1 [] w1 rasterized Hrast) as (Hres & Hcount & _).
  split.
  - rewrite Hres. vm_compute. reflexivity.
  - rewrite Hcount. reflexivity.
Defined.

Lemma run_zero_pages_witness :
  @mkdtemp host_zero_pages "invoice_pages_" = Ok tmpdir1 /\
  @convert_from_bytes host_zero_pages pdf1 (pdf_raster_dpi defaults) = Ok [] /\
  fst (@pdf_bytes_to_images host_zero_pages pdf1 (pdf_raster_dpi defaults) []) =
    Ok {| image_paths := []; _tmpdir := tmpdir1 |} /\
  fst (run_on host_zero_pages pdf1 []) =
    Raise (Exc ValueError "Expected at least one image for OCR" None) /\
  count_events is_read (snd (run_on host_zero_pages pdf1 [])) = 0 /\
  count_events is_post (snd (run_on host_zero_pages pdf1 [])) = 0.
Proof.
  split; [reflexivity|]. split; [reflexivity|].
  exact (@run_zero_pages reference_json reference_pydantic host_zero_pages defaults
           pdf1 [] tmpdir1 eq_refl eq_refl).
Defined.

Lemma boilerplate_defaults_filled_witness :
  @completion_content (completion_with stripped_invoice) = Ok (JStr stripped_invoice) /\
  JsonText.loads stripped_invoice = Some (JObj (strip all_omitted (decoded full_invoice))) /\
  @InvoiceOCRResponse.model_validate reference_pydantic (JObj (decoded full_invoice))
    = Some full_record /\
  parse (completion_with stripped_invoice) =
    Ok {| InvoiceOCRResponse.schema_version := "invoice_v1";
          InvoiceOCRResponse.status := success;
          InvoiceOCRResponse.model := "deepseek-ai/DeepSeek-OCR";
          InvoiceOCRResponse.data :=
            reset_totals (InvoiceOCRResponse.data full_record);
          InvoiceOCRResponse.warnings := [];
          InvoiceOCRResponse.raw_text := None |}.
Proof.
  assert (Hc : @completion_content (completion_with stripped_invoice)
               = Ok (JStr stripped_invoice)) by reflexivity.
  assert (Hs : JsonText.loads stripped_invoice
               = Some (JObj (strip all_omitted (decoded full_invoice))))
    by (vm_compute; reflexivity).
  assert (Hv : @InvoiceOCRResponse.model_validate reference_pydantic
                 (JObj (decoded full_invoice)) = Some full_record)
    by (vm_compute; reflexivity).
  split; [exact Hc|]. split; [exact Hs|]. split; [exact Hv|].
  destruct (@boilerplate_defaults_filled reference_json reference_pydantic defaults
              (completion_with stripped_invoice) stripped_invoice Hc) as [Hfill _].
  destruct (Hfill (decoded full_invoice) all_omitted full_record Hs Hv) as [_ Hparse].
  exact Hparse.
Defined.

Lemma negative_values_fail_validation_witness :
  let payload : gmap string json :=
    {[ "model" := JStr "m";
       "data" := JObj {[ "totals" := JObj {[ "tax" := JInt (-1) ]} ]} ]} in
  field_value payload TotalsTax = Some (JInt (-1)) /\
  is_negative (JInt (-1)) = true /\
  @InvoiceOCRResponse.model_validate reference_pydantic (JObj payload) = None.
Proof.
  intros payload.
  assert (Hf : field_value payload TotalsTax = Some (JInt (-1)))
    by (vm_compute; reflexivity).
  split; [exact Hf|]. split; [reflexivity|].
  exact (proj1 (@negative_values_fail_validation reference_pydantic payload TotalsTax
                  (JInt (-1)) Hf eq_refl)).
Defined.




Import Indexer.
#[local] Existing Instance small_index_libs.

Example sizes_after_each_call :
  map (fun self => (index_size self, length (_store self)))
    (states_after fresh_index index_calls)
  = [(2, 2); (2, 2); (0, 0); (1, 1)].
Proof. vm_compute. reflexivity. Qed.


Lemma query_results_witness :
  (0 < 2)%Z /\
  query (drop acme_index) "acme" 2 = Ok [] /\
  exists results,
    query acme_index "acme" 2 = Ok results /\
    results = [{| score := 0%Z; invoice := acme |}] /\
    (Z.of_nat (length results) <= 2)%Z.
Proof.
  assert (Hk : (0 < 2)%Z) by lia.
  split; [exact Hk|].
  destruct (query_results acme_index "acme" 2 Hk) as (_ & Hdrop & _ & Hfound).
  split; [exact Hdrop|].
  destruct (Hfound {| d := 2; xb := [[4%Z; 1%Z]] |} (Mat 2 [[4%Z; 1%Z]])
              [0%Z; 0%Z] [0%Z; (-1)%Z] [] [])
    as (results & Hq & Hres & Hlen); try reflexivity.
  exists results. split; [exact Hq|]. split; [|exact Hlen].
  rewrite Hres. vm_compute. reflexivity.
Defined.

End Checks.

Module RasterizerMore.
Import Rasterizer EffectFacts RasterizerFacts PageNames.

(** *** Page numbers can be read back from the file names *)

Lemma digit_of_char (x : N) :
  (x < 10)%N -> JsonText.digit_of (pretty_N_char x) = Some (Z.of_N x).
Proof.
  intros Hx.
  assert (x = 0 \/ x = 1 \/ x = 2 \/ x = 3 \/ x = 4 \/ x = 5 \/ x = 6
          \/ x = 7 \/ x = 8 \/ x = 9)%N as Hcases by lia.
  repeat destruct Hcases as [->|Hcases]; try subst x; reflexivity.
Qed.

Lemma read_pretty_go (x : N) (s : string) :
  read_number (pretty_N_go x s) 0 = read_number s (Z.of_N x).
Proof.
  revert s. induction (N.lt_wf_0 x) as [x _ IH]; intros s.
  assert (x = 0 \/ 0 < x)%N as [->|Hpos] by lia.
  - now rewrite pretty_N_go_0.
  - rewrite pretty_N_go_step by exact Hpos.
    rewrite IH by (now apply N.div_lt).
    cbn [read_number]. rewrite digit_of_char by (now apply N.mod_lt).
    f_equal. pose proof (N.div_mod x 10 ltac:(lia)). lia.
Qed.

Lemma pretty_go_app (x : N) (s t : string) :
  pretty_N_go x s +:+ t = pretty_N_go x (s +:+ t).
Proof.
  revert s. induction (N.lt_wf_0 x) as [x _ IH]; intros s.
  assert (x = 0 \/ 0 < x)%N as [->|Hpos] by lia.
  - now rewrite !pretty_N_go_0.
  - rewrite (pretty_N_go_step x s), (pretty_N_go_step x (s +:+ t)) by exact Hpos.
    rewrite IH by (now apply N.div_lt). reflexivity.
Qed.

Lemma read_pretty (n : nat) (rest : string) :
  read_number (pretty n +:+ rest) 0 = read_number rest (Z.of_nat n).
Proof.
  unfold pretty, pretty_nat, pretty, pretty_N.
  case_decide as Hz.
  - assert (n = 0) as -> by lia. reflexivity.
  - rewrite pretty_go_app. cbn [String.app]. rewrite read_pretty_go. f_equal. lia.
Qed.

Lemma read_zeros (k : nat) (s : string) :
  read_number (String.concat EmptyString (replicate k "0") +:+ s) 0 = read_number s 0.
Proof.
  induction k as [|k IH]; [reflexivity|].
  destruct k as [|k]; [reflexivity|].
  change (replicate (S (S k)) "0") with ("0" :: replicate (S k) "0").
  cbn [String.concat]. cbn [replicate] in *. cbn [String.app read_number].
  exact IH.
Qed.

Lemma string_app_assoc (a b c : string) : (a +:+ b) +:+ c = a +:+ b +:+ c.
Proof.
  induction a as [|ch a IH]; [reflexivity|].
  change (String ch ((a +:+ b) +:+ c) = String ch (a +:+ b +:+ c)). now rewrite IH.
Qed.

Lemma read_format_03d (idx : nat) (rest : string) :
  read_number (format_03d idx +:+ rest) 0 = read_number rest (Z.of_nat idx).
Proof.
  unfold format_03d. rewrite string_app_assoc, read_zeros. apply read_pretty.
Qed.

Lemma expect_app (p s : string) : JsonText.expect p (p +:+ s) = Some s.
Proof.
  induction p as [|c p IH]; [now destruct s|].
  change (String c p +:+ s) with (String c (p +:+ s)).
  cbn [JsonText.expect]. now rewrite Ascii.eqb_refl.
Qed.

Lemma page_number_of_path (tmp_path : Path) (idx : nat) :
  page_number tmp_path (page_path tmp_path idx) = Some (Z.of_nat idx).
Proof.
  unfold page_number, page_path.
  replace (tmp_path +:+ "/" +:+ "page_" +:+ format_03d idx +:+ ".png")
    with ((tmp_path +:+ "/page_") +:+ format_03d idx +:+ ".png")
    by (now rewrite !string_app_assoc).
  rewrite expect_app, read_format_03d. reflexivity.
Qed.

Lemma page_path_inj (tmp_path : Path) : Inj (=) (=) (page_path tmp_path).
Proof.
  intros a b Hab.
  pose proof (page_number_of_path tmp_path a) as Ha.
  rewrite Hab, page_number_of_path in Ha. injection Ha as Ha. lia.
Qed.

Section Facts.
Context `{!Host}.

Lemma save_pages_ok tmp images idx acc w paths w' :
  save_pages tmp images idx acc w = (Ok paths, w') ->
  paths = acc ++ map (page_path tmp) (seq idx (length images)) /\
  w' = w ++ map EvSave (map (page_path tmp) (seq idx (length images))).
Proof.
  revert idx acc w. induction images as [|img rest IH]; intros idx acc w; simpl.
  - unfold ret. intros [= <- <-]. now rewrite !app_nil_r.
  - unfold bind, call. destruct (image_save img _) as [[]|e]; [|discriminate].
    intros [-> ->]%IH. split.
    + now rewrite <- app_assoc.
    + now rewrite <- app_assoc.
Qed.

Lemma rasterized_paths pdf dpi w r w' :
  pdf_bytes_to_images pdf dpi w = (Ok r, w') ->
  exists pages,
    mkdtemp "invoice_pages_" = Ok (_tmpdir r) /\
    convert_from_bytes pdf dpi = Ok pages /\
    image_paths r = map (page_path (_tmpdir r)) (seq 1 (length pages)) /\
    w' = w ++ EvMkdtemp "invoice_pages_" :: EvConvert dpi
           :: map EvSave (image_paths r).
Proof.
  unfold pdf_bytes_to_images, bind, call, ret.
  destruct (mkdtemp _) as [dir|e] eqn:Hdir; [|discriminate].
  destruct (convert_from_bytes pdf dpi) as [pages|e]; [|discriminate].
  destruct (save_pages dir pages 1 [] _) as [[paths|e] w1] eqn:Hsave; [|discriminate].
  intros [= <- <-]. apply save_pages_ok in Hsave as [-> ->].
  exists pages. cbn [image_paths _tmpdir app]. repeat split; try reflexivity.
  now rewrite <- !app_assoc.
Qed.


(** X2. The file names of a rasterized PDF are pairwise distinct, and the
    page number can be read back from each: the path at position [i]
    names page [i + 1]. *)
Theorem page_names_identify_pages (pdf_bytes : bytes) (dpi : Z) (w w' : log)
    (r : RasterizedPDF) :
  pdf_bytes_to_images pdf_bytes dpi w = (Ok r, w') ->
  NoDup (image_paths r) /\
  (forall i path, image_paths r !! i = Some path ->
                  page_number (_tmpdir r) path = Some (Z.of_nat (S i))).
Proof.
  intros (pages & _ & _ & Hpaths & _)%rasterized_paths. rewrite Hpaths. split.
  - apply (@NoDup_fmap_2 _ _ (page_path (_tmpdir r)) (page_path_inj _)).
    apply NoDup_seq.
  - intros i path. rewrite list_lookup_fmap.
    destruct (seq 1 (length pages) !! i) as [n|] eqn:Hn; [|discriminate].
    apply lookup_seq in Hn as [-> _]. intros [= <-].
    apply page_number_of_path.
Qed.

(** X3. Consuming [iter_image_bytes] to its end reads the paths one by
    one in order: either every file is read and the contents come back
    in path order, or the first unreadable file raises its error after
    the files before it were read, and no later file is touched. *)
Theorem iter_image_bytes_in_order (paths : list Path) (w : log) :
  (exists contents,
      Forall2 (fun path content => read_bytes path = Ok content) paths contents /\
      iter_image_bytes paths w = (Ok contents, w ++ map EvRead paths)) \/
  (exists before path after e,
      paths = before ++ path :: after /\
      Forall (fun p => is_ok (read_bytes p) = true) before /\
      read_bytes path = Raise e /\
      iter_image_bytes paths w = (Raise e, w ++ map EvRead (before ++ [path]))).
Proof.
  revert w. induction paths as [|path rest IH]; intros w.
  - left. exists []. split; [constructor|]. simpl. unfold ret. now rewrite app_nil_r.
  - cbn [iter_image_bytes]. unfold bind, call, ret.
    destruct (read_bytes path) as [content|e] eqn:Hread.
    + destruct (IH (w ++ [EvRead path]))
        as [(contents & Hall & Hrun) | (before & p & after & e & -> & Hbefore & Hp & Hrun)].
      * left. exists (content :: contents). split; [now constructor|].
        rewrite Hrun. cbn [map]. now rewrite <- app_assoc.
      * right. exists (path :: before), p, after, e.
        split; [reflexivity|]. split; [constructor; [now rewrite Hread | exact Hbefore]|].
        split; [exact Hp|]. rewrite Hrun. cbn [map app]. now rewrite <- app_assoc.
    + right. exists [], path, rest, e. repeat split; auto.
Qed.
End Facts.
End RasterizerMore.

Module ClientMore.
Import Config Schema OcrClient EffectFacts ClientFacts SchemaFacts ParseFacts
       CoercionFacts CoercionTheorems.

Section Facts.
Context `{!JsonLib} `{!PydanticCore} `{!Host}.
Variable settings : Settings.

Abbreviation posts := (count_events is_post).
Abbreviation body_of enc :=
  {| req_model := deepseek_model settings; req_images := enc |}.

Lemma encode_all_ok paths w :
  Forall readable paths ->
  encode_all paths w = (Ok (encoded_of paths), w ++ map EvRead paths).
Proof.
  revert w. induction paths as [|path rest IH]; intros w Hall.
  - simpl. unfold ret. now rewrite app_nil_r.
  - inversion Hall as [|? ? Hr Hrest]; subst. unfold readable in Hr.
    cbn [encode_all encoded_of]. unfold bind at 1, _encode_image, bind, call, ret.
    destruct (read_bytes path) as [content|e]; [|discriminate].
    unfold bind in IH. rewrite (IH _ Hrest). cbn [map]. now rewrite <- app_assoc.
Qed.

Lemma encode_all_fails before path after e w :
  Forall readable before -> read_bytes path = Raise e ->
  encode_all (before ++ path :: after) w =
    (Raise e, w ++ map EvRead (before ++ [path])).
Proof.
  revert w. induction before as [|p rest IH]; intros w Hall Hpath.
  - cbn [app encode_all]. unfold bind, _encode_image, bind, call.
    now rewrite Hpath.
  - inversion Hall as [|? ? Hr Hrest]; subst. unfold readable in Hr.
    cbn [app encode_all]. unfold bind at 1, _encode_image, bind, call, ret.
    destruct (read_bytes p) as [content|e']; [|discriminate].
    unfold bind in IH. rewrite (IH _ Hrest Hpath). cbn [map app].
    now rewrite <- app_assoc.
Qed.

(** X4. When one of the images cannot be read, [extract_invoice] raises
    the error of the first such image after reading the images before
    it, and sends no request. *)
Theorem unreadable_image_sends_nothing (before after : list Path) (path : Path)
    (e : exception) (w : log) :
  Forall readable before ->
  read_bytes path = Raise e ->
  let outcome := extract_invoice settings (before ++ path :: after) w in
  fst outcome = Raise e /\
  snd outcome = w ++ map EvRead (before ++ [path]) /\
  posts (snd outcome) = posts w.
Proof.
  intros Hbefore Hpath outcome. subst outcome. unfold extract_invoice.
  destruct (before ++ path :: after) as [|p l] eqn:Hl.
  { destruct before; discriminate. }
  rewrite <- Hl. unfold bind. rewrite (encode_all_fails _ _ _ _ _ Hbefore Hpath).
  cbn [fst snd]. split; [reflexivity|]. split; [reflexivity|].
  rewrite count_events_app.
  rewrite (count_events_none is_post (map EvRead (before ++ [path]))); [lia|].
  apply Forall_forall. intros ev (p' & <- & _)%list_elem_of_In%in_map_iff. reflexivity.
Qed.

Lemma py_range_from_1 (n : Z) :
  py_range 1 (n + 1) = map (fun i => (1 + Z.of_nat i)%Z) (seq 0 (Z.to_nat n)).
Proof. unfold py_range. do 2 f_equal. lia. Qed.

Lemma attempt_events_shift enc first p0 i :
  attempt_events settings enc first p0 (S i) =
    attempt_events settings enc (S first) (S p0) i.
Proof.
  unfold attempt_events.
  replace (p0 + S i) with (S p0 + i) by lia.
  replace (first + S i) with (S first + i) by lia. reflexivity.
Qed.

Lemma concat_events_shift enc first p0 m :
  concat (map (attempt_events settings enc first p0) (seq 1 m)) =
    concat (map (attempt_events settings enc (S first) (S p0)) (seq 0 m)).
Proof.
  rewrite <- (fmap_S_seq 0 m). change (S <$> seq 0 m) with (map S (seq 0 m)).
  rewrite map_map. f_equal. apply map_ext. intros i. apply attempt_events_shift.
Qed.

Lemma posts_reads w (paths : list Path) :
  posts (w ++ map EvRead paths) = posts w.
Proof.
  rewrite count_events_app.
  rewrite (count_events_none is_post (map EvRead paths)); [lia|].
  apply Forall_forall. intros ev (p' & <- & _)%list_elem_of_In%in_map_iff. reflexivity.
Qed.

Lemma extract_invoice_loop paths w :
  paths <> [] -> Forall readable paths ->
  extract_invoice settings paths w =
    attempts_loop settings
      (map (fun i => (1 + Z.of_nat i)%Z)
           (seq 0 (Z.to_nat (max_request_retries settings))))
      (encoded_of paths) None (w ++ map EvRead paths).
Proof.
  intros Hne Hread. unfold extract_invoice. destruct paths as [|p l]; [congruence|].
  unfold bind. rewrite (encode_all_ok _ _ Hread). now rewrite py_range_from_1.
Qed.

Lemma posts_attempt_events enc first p0 k :
  posts (concat (map (attempt_events settings enc first p0) (seq 0 k))) = k.
Proof.
  induction k as [|k IH]; [reflexivity|].
  rewrite seq_S, map_app, concat_app, count_events_app, IH.
  cbn [map concat Nat.add]. rewrite app_nil_r. unfold attempt_events.
  destruct (attempt_result settings enc (p0 + k)) as [r|e];
    [|destruct (matches retryable e)]; unfold count_events; simpl; lia.
Qed.

Lemma fails_retryably_inv enc k e :
  attempt_result settings enc k = Raise e ->
  matches retryable e = false ->
  ~ fails_retryably (attempt_result settings enc k).
Proof. intros He Hre (e' & He' & Hre'). congruence. Qed.

(** The log of the loop, whichever way it is left. *)
Lemma loop_log enc m first last w :
  exists k,
    k <= m /\
    snd (attempts_loop settings
           (map (fun i => (1 + Z.of_nat i)%Z) (seq first m)) enc last w) =
      w ++ concat (map (attempt_events settings enc first (posts w)) (seq 0 k)) /\
    (forall i, i < k - 1 ->
               fails_retryably (attempt_result settings enc (posts w + i))) /\
    (k < m ->
     1 <= k /\ ~ fails_retryably (attempt_result settings enc (posts w + (k - 1)))).
Proof.
  revert first last w. induction m as [|m IH]; intros first last w.
  { exists 0. simpl. rewrite app_nil_r. repeat split; lia. }
  cbn [seq map attempts_loop]. rewrite attempt_once_eq.
  destruct (attempt_result settings enc (posts w)) as [r|e] eqn:E.
  - exists 1. split; [lia|]. split; [|split].
    + cbn [seq map concat snd]. unfold attempt_events.
      rewrite Nat.add_0_r, E. now rewrite app_nil_r.
    + intros i Hi. lia.
    + intros _. split; [lia|]. cbn [Nat.sub]. rewrite Nat.add_0_r, E.
      intros (e & He & _). discriminate.
  - destruct (matches retryable e) eqn:Hre.
    + destruct (IH (S first) (Some e)
                  ((w ++ [EvPost (body_of enc)]) ++ [EvLogWarning (1 + Z.of_nat first) e]))
        as (k & Hk & Hlog & Hbefore & Hstop).
      rewrite posts_snoc_warning, posts_snoc_post in Hlog, Hbefore, Hstop.
      exists (S k). split; [lia|]. split; [|split].
      * rewrite Hlog. cbn [seq map concat]. rewrite concat_events_shift.
        unfold attempt_events at 2. rewrite !Nat.add_0_r, E, Hre.
        now rewrite <- !app_assoc.
      * intros i Hi. destruct i as [|i].
        -- rewrite Nat.add_0_r, E. now exists e.
        -- replace (posts w + S i) with (S (posts w) + i) by lia.
           apply Hbefore. lia.
      * intros Hlt. destruct (Hstop ltac:(lia)) as [Hk1 Hnot]. split; [lia|].
        replace (posts w + (S k - 1)) with (S (posts w) + (k - 1)) by lia.
        exact Hnot.
    + exists 1. split; [lia|]. split; [|split].
      * cbn [seq map concat snd]. unfold attempt_events.
        rewrite Nat.add_0_r, E, Hre. now rewrite app_nil_r.
      * intros i Hi. lia.
      * intros _. split; [lia|]. cbn [Nat.sub]. rewrite Nat.add_0_r.
        now apply (fails_retryably_inv _ _ e).
Qed.

(** X5. The whole log of [extract_invoice] on readable images: the images
    are read in order, then come the attempts, each one the same request
    followed, when it failed with an exception that the loop catches, by
    one warning that carries the number of the attempt, counted from 1,
    and that exception. The attempts before the last one all failed that
    way, and when there are fewer of them than [max_request_retries] the
    last one did not. *)
Theorem extract_invoice_log (image_paths : list Path) (w : log) :
  image_paths <> [] ->
  Forall readable image_paths ->
  let n := Z.to_nat (max_request_retries settings) in
  let enc := encoded_of image_paths in
  exists attempts,
    attempts <= n /\
    snd (extract_invoice settings image_paths w) =
      w ++ map EvRead image_paths
        ++ concat (map (attempt_events settings enc 0 (posts w)) (seq 0 attempts)) /\
    (forall i, i < attempts - 1 ->
               fails_retryably (attempt_result settings enc (posts w + i))) /\
    (attempts < n ->
     1 <= attempts /\
     ~ fails_retryably (attempt_result settings enc (posts w + (attempts - 1)))).
Proof.
  intros Hne Hread n enc.
  destruct (loop_log enc n 0 None (w ++ map EvRead image_paths))
    as (k & Hk & Hlog & Hbefore & Hstop).
  subst n enc. rewrite posts_reads in Hlog, Hbefore, Hstop.
  exists k. split; [exact Hk|]. split; [|split; assumption].
  rewrite (extract_invoice_loop _ _ Hne Hread), Hlog. now rewrite <- app_assoc.
Qed.

(** X6. A response with a success status whose body is not JSON makes
    [response.json()] raise [JSONDecodeError], which the loop does not
    catch: [extract_invoice] ends with that exception at this attempt,
    whatever number of attempts is left, and logs no warning for it. *)
Theorem non_json_body_is_not_retried (image_paths : list Path) (w : log)
    (N : nat) (r : response) :
  image_paths <> [] ->
  Forall readable image_paths ->
  let n := Z.to_nat (max_request_retries settings) in
  let enc := encoded_of image_paths in
  1 <= N <= n ->
  (forall i, i < N - 1 ->
             fails_retryably (attempt_result settings enc (posts w + i))) ->
  http_post (body_of enc) (posts w + (N - 1)) = Ok r ->
  (200 <= status_code r <= 299)%Z ->
  json_loads (text r) = None ->
  let outcome := extract_invoice settings image_paths w in
  fst outcome = Raise (Exc JSONDecodeError "Expecting value" None) /\
  posts (snd outcome) = posts w + N /\
  last (snd outcome) = Some (EvPost (body_of enc)).
Proof.
  intros Hne Hread n enc HN Hbefore Hpost Hstatus Hbody outcome. subst outcome.
  assert (Hres : attempt_result settings enc (posts w + (N - 1)) =
                 Raise (Exc JSONDecodeError "Expecting value" None)).
  { unfold attempt_result, completion_received. rewrite Hpost.
    cbn [result_bind]. unfold raise_for_status.
    destruct (decide (200 <= status_code r <= 299)%Z); [|contradiction].
    cbn [result_bind]. unfold response_json. now rewrite Hbody. }
  destruct (loop_log enc n 0 None (w ++ map EvRead image_paths))
    as (k & Hk & Hlog & Hfail & Hstop).
  rewrite posts_reads in Hlog, Hfail, Hstop.
  destruct (attempts_loop_stops settings
              (map (fun i => (1 + Z.of_nat i)%Z) (seq 0 n)) enc None
              (w ++ map EvRead image_paths) (N - 1)) as (w' & Hloop & Hposts).
  { rewrite length_map, length_seq. lia. }
  { intros i Hi. rewrite posts_reads. now apply Hbefore. }
  { rewrite posts_reads. now apply (fails_retryably_inv _ _ _ Hres). }
  rewrite posts_reads in Hloop, Hposts. subst n enc.
  rewrite (extract_invoice_loop _ _ Hne Hread), Hloop. cbn [fst snd].
  split; [exact Hres|]. split; [lia|].
  (* the log ends with the request of attempt [N] *)
  assert (Hk' : k = N).
  { rewrite Hloop in Hlog. cbn [snd] in Hlog.
    assert (Hcount : posts w' = posts w + k).
    { rewrite Hlog, count_events_app, posts_attempt_events, posts_reads. lia. }
    lia. }
  subst k. rewrite Hloop in Hlog. cbn [snd] in Hlog. rewrite Hlog.
  destruct N as [|N]; [lia|].
  rewrite seq_S, map_app, concat_app. cbn [map concat Nat.add].
  rewrite app_nil_r. unfold attempt_events at 2.
  replace (S N - 1) with N in Hres by lia. rewrite Hres.
  change (matches retryable (Exc JSONDecodeError "Expecting value" None)) with false.
  cbv iota. rewrite !app_assoc. apply last_snoc.
Qed.

(** X7. When every request fails in the transport (an [httpx.HTTPError])
    or is answered with an error status, every attempt is retried:
    exactly [max_request_retries] requests are sent and
    [OCRClientError] is raised with an [httpx.HTTPError] as its cause. *)
Theorem transport_failures_are_retried (image_paths : list Path) (w : log) :
  image_paths <> [] ->
  Forall readable image_paths ->
  let n := Z.to_nat (max_request_retries settings) in
  let enc := encoded_of image_paths in
  1 <= n ->
  (forall i, i < n ->
     (exists e, http_post (body_of enc) (posts w + i) = Raise e /\
                isinstance e HTTPError = true) \/
     (exists r, http_post (body_of enc) (posts w + i) = Ok r /\
                ~ (200 <= status_code r <= 299)%Z)) ->
  let outcome := extract_invoice settings image_paths w in
  posts (snd outcome) = posts w + n /\
  exists cause,
    fst outcome =
      Raise (Exc OCRClientError "OCR failed after retries" (Some cause)) /\
    isinstance cause HTTPError = true.
Proof.
  intros Hne Hread n enc Hn Hall outcome. subst outcome.
  assert (Hres : forall i, i < n ->
             exists e, attempt_result settings enc (posts w + i) = Raise e /\
                       isinstance e HTTPError = true).
  { intros i Hi. unfold attempt_result, completion_received.
    destruct (Hall i Hi) as [(e & -> & He)|(r & -> & Hr)].
    - exists e. split; [reflexivity | exact He].
    - cbn [result_bind]. unfold raise_for_status.
      destruct (decide (200 <= status_code r <= 299)%Z); [contradiction|].
      eexists. split; reflexivity. }
  assert (Hretry : forall e, isinstance e HTTPError = true ->
                             matches retryable e = true).
  { intros e He. unfold matches, retryable. cbn [existsb]. now rewrite He. }
  destruct (attempts_loop_exhausted settings
              (map (fun i => (1 + Z.of_nat i)%Z) (seq 0 n)) enc None
              (w ++ map EvRead image_paths)) as (w' & Hloop & Hposts).
  { rewrite length_map, length_seq. intros i Hi. rewrite posts_reads.
    destruct (Hres i Hi) as (e & He & Hcls). exists e. split; [exact He|]. auto. }
  rewrite length_map, length_seq, posts_reads in Hloop, Hposts.
  rewrite (extract_invoice_loop _ _ Hne Hread). fold n enc. rewrite Hloop.
  cbn [fst snd]. split; [exact Hposts|].
  destruct n as [|k]; [lia|].
  destruct (Hres k ltac:(lia)) as (e & He & Hcls).
  exists e. rewrite He. cbn [error_of]. split; [reflexivity | exact Hcls].
Qed.
End Facts.
End ClientMore.

Module ParseMore.
Import Config Schema OcrClient EffectFacts ClientFacts SchemaFacts ParseFacts
       CoercionFacts CoercionTheorems.

Section Facts.
Context `{!JsonLib} `{!PydanticCore}.
Variable settings : Settings.

Lemma getitem_raises v k e :
  getitem v k = Raise e -> exc_cls e = KeyError \/ exc_cls e = TypeError.
Proof.
  destruct v; simpl; try (intros [= <-]; auto).
  destruct (m !! k); [discriminate|]. intros [= <-]. auto.
Qed.

Lemma getitem0_raises v e :
  getitem0 v = Raise e ->
  exc_cls e = KeyError \/ exc_cls e = IndexError \/ exc_cls e = TypeError.
Proof.
  destruct v as [| | | |s|l|m]; simpl; try (intros [= <-]; auto).
  - destruct s; [intros [= <-]; auto | discriminate].
  - destruct l; [intros [= <-]; auto | discriminate].
Qed.

Lemma completion_content_raises completion e :
  completion_content completion = Raise e ->
  exc_cls e = KeyError \/ exc_cls e = IndexError \/ exc_cls e = TypeError.
Proof.
  unfold completion_content.
  destruct (getitem completion "choices") as [choices|e1] eqn:E1; cbn [result_bind].
  2: { intros [= <-]. apply getitem_raises in E1. tauto. }
  destruct (getitem0 choices) as [choice|e2] eqn:E2; cbn [result_bind].
  2: { intros [= <-]. now apply getitem0_raises in E2. }
  destruct (getitem choice "message") as [message|e3] eqn:E3; cbn [result_bind].
  2: { intros [= <-]. apply getitem_raises in E3. tauto. }
  intros E4. apply getitem_raises in E4. tauto.
Qed.

Lemma fill_defaults_raises v e :
  fill_defaults settings v = Raise e -> exc_cls e = AttributeError.
Proof.
  unfold fill_defaults.
  destruct v as [| | | | | |m]; cbn [call_setdefault result_bind];
    try (intros [= <-]; reflexivity).
  unfold getitem. rewrite setdefault_lookup. rewrite decide_True by reflexivity.
  cbn [result_bind].
  destruct (default (JObj ∅) _) as [| | | | | |inner];
    cbn [call_setdefault result_bind]; intros [= <-]; reflexivity.
Qed.

(** X8. The failures of [_parse_completion], stage by stage. When the
    content cannot be taken out of the completion, a [KeyError] or
    [IndexError] becomes [OCRClientError], chained to it, which the loop
    of [extract_invoice] catches, and a [TypeError] is raised as it is,
    which the loop does not catch. Content that is not a string makes
    [json.loads] raise [TypeError], not caught either. When
    [json.loads] rejects the content with [JSONDecodeError], that
    becomes [OCRClientError], chained to it and caught. When it decodes
    the content, the outcome is that of the [setdefault] lines, whose
    only failure is an [AttributeError] that the loop does not catch,
    followed by the validation, whose failure is the [ValidationError]
    that the loop catches. Other failures of [json.loads] are outside
    this development. *)
Theorem parse_failures_by_stage (completion : json) :
  (forall e0,
      completion_content completion = Raise e0 ->
      ((exc_cls e0 = KeyError \/ exc_cls e0 = IndexError) /\
       _parse_completion settings completion =
         Raise (Exc OCRClientError "Malformed completion payload" (Some e0)) /\
       matches retryable
         (Exc OCRClientError "Malformed completion payload" (Some e0)) = true) \/
      (exc_cls e0 = TypeError /\
       _parse_completion settings completion = Raise e0 /\
       matches retryable e0 = false)) /\
  (forall content,
      completion_content completion = Ok content ->
      (forall s, content <> JStr s) ->
      exists e,
        _parse_completion settings completion = Raise e /\
        exc_cls e = TypeError /\ matches retryable e = false) /\
  (forall s,
      completion_content completion = Ok (JStr s) ->
      json_loads s = None ->
      _parse_completion settings completion =
        Raise (Exc OCRClientError "Model did not return valid JSON"
                 (Some (Exc JSONDecodeError "Expecting value" None))) /\
      matches retryable
        (Exc OCRClientError "Model did not return valid JSON"
           (Some (Exc JSONDecodeError "Expecting value" None))) = true) /\
  (forall s v,
      completion_content completion = Ok (JStr s) ->
      json_loads s = Some v ->
      match fill_defaults settings v with
      | Raise e =>
          _parse_completion settings completion = Raise e /\
          exc_cls e = AttributeError /\ matches retryable e = false
      | Ok data =>
          match InvoiceOCRResponse.model_validate (JObj data) with
          | Some r => _parse_completion settings completion = Ok r
          | None =>
              _parse_completion settings completion =
                Raise (Exc ValidationError "validation error for InvoiceOCRResponse" None) /\
              matches retryable
                (Exc ValidationError "validation error for InvoiceOCRResponse" None) = true
          end
      end).
Proof.
  split; [|split; [|split]].
  - intros e0 Hc. unfold _parse_completion. rewrite Hc. cbn [catch result_bind].
    apply completion_content_raises in Hc.
    destruct e0 as [cls msg cause]. cbn [exc_cls] in *.
    destruct Hc as [-> | [-> | ->]]; unfold matches; cbn.
    + left. split; [now left|]. split; reflexivity.
    + left. split; [now right|]. split; reflexivity.
    + right. repeat split.
  - intros content Hc Hstr. unfold _parse_completion. rewrite Hc.
    cbn [catch result_bind].
    destruct content as [| | | |s| |]; cbn [loads catch result_bind];
      try (now destruct (Hstr s));
      (eexists; split; [reflexivity|]; split; reflexivity).
  - intros s Hc Hs. split; [|reflexivity].
    exact (parse_undecodable settings _ _ Hc Hs).
  - intros s v Hc Hs. rewrite (parse_decoded settings _ _ _ Hc Hs).
    destruct (fill_defaults settings v) as [data|e] eqn:Hfill.
    + destruct (InvoiceOCRResponse.model_validate (JObj data)); [reflexivity|].
      split; reflexivity.
    + apply fill_defaults_raises in Hfill.
      destruct e as [cls msg cause]. cbn [exc_cls] in *. subst cls.
      repeat split.
Qed.

Lemma fill_defaults_succeeds v data :
  fill_defaults settings v = Ok data ->
  exists m inner,
    v = JObj m /\ default (JObj ∅) (m !! "data") = JObj inner.
Proof.
  unfold fill_defaults.
  destruct v as [| | | | | |m]; cbn [call_setdefault result_bind]; try discriminate.
  unfold getitem. rewrite setdefault_lookup. rewrite decide_True by reflexivity.
  cbn [result_bind]. rewrite !setdefault_lookup.
  repeat (rewrite decide_False by discriminate).
  destruct (default (JObj ∅) (m !! "data")) as [| | | | | |inner] eqn:E;
    cbn [call_setdefault result_bind]; try discriminate.
  intros _. eauto.
Qed.

Lemma setdefault_present (m : gmap string json) k dflt :
  is_Some (m !! k) -> setdefault m k dflt = m.
Proof. intros [v Hv]. unfold setdefault. now rewrite Hv. Qed.

(** X9. [fill_defaults] changes nothing the second time: applied to the
    dictionary it returned, it returns that dictionary. It succeeds
    exactly on a dictionary whose ["data"] is absent or a dictionary,
    and then every key the response carried keeps its value, ["data"]
    apart, which keeps its entries. *)
Theorem fill_defaults_idempotent (v : json) (data : gmap string json) :
  fill_defaults settings v = Ok data ->
  fill_defaults settings (JObj data) = Ok data /\
  exists m inner,
    v = JObj m /\
    default (JObj ∅) (m !! "data") = JObj inner /\
    (forall k x, m !! k = Some x -> k <> "data" -> data !! k = Some x) /\
    (exists inner',
        data !! "data" = Some (JObj inner') /\
        forall k x, inner !! k = Some x -> inner' !! k = Some x).
Proof.
  intros Hfill.
  destruct (fill_defaults_succeeds _ _ Hfill) as (m & inner & -> & Hinner).
  destruct (fill_defaults_dict settings m inner Hinner)
    as (data' & Hfill' & Hsv & Hst & Hmo & Hwa & Hda & Hother).
  rewrite Hfill in Hfill'. injection Hfill' as <-.
  split.
  - unfold fill_defaults. cbn [call_setdefault result_bind].
    rewrite (setdefault_present data "schema_version") by (rewrite Hsv; eauto).
    rewrite (setdefault_present data "status") by (rewrite Hst; eauto).
    rewrite (setdefault_present data "model") by (rewrite Hmo; eauto).
    rewrite (setdefault_present data "warnings") by (rewrite Hwa; eauto).
    rewrite (setdefault_present data "data") by (rewrite Hda; eauto).
    unfold getitem. rewrite Hda. cbn [call_setdefault result_bind].
    rewrite (setdefault_present (setdefault inner "totals" (JObj ∅)) "totals").
    2: { rewrite setdefault_lookup, decide_True by reflexivity. eauto. }
    f_equal. apply map_eq. intros k.
    destruct (decide (k = "data")) as [->|Hk].
    + now rewrite lookup_insert_eq.
    + now rewrite lookup_insert_ne by congruence.
  - exists m, inner. split; [reflexivity|]. split; [exact Hinner|]. split.
    + intros k x Hk Hnd.
      destruct (decide (k = "schema_version")) as [->|?]; [now rewrite Hsv, Hk|].
      destruct (decide (k = "status")) as [->|?]; [now rewrite Hst, Hk|].
      destruct (decide (k = "model")) as [->|?]; [now rewrite Hmo, Hk|].
      destruct (decide (k = "warnings")) as [->|?]; [now rewrite Hwa, Hk|].
      now rewrite Hother.
    + eexists. split; [exact Hda|]. intros k x Hk.
      rewrite setdefault_lookup. case_decide; [subst k; now rewrite Hk | exact Hk].
Qed.

Lemma response_rejects_null (data : gmap string json) k :
  k ∈ ["schema_version"; "status"; "model"; "warnings"] ->
  data !! k = Some JNull ->
  InvoiceOCRResponse.model_validate (JObj data) = None.
Proof.
  intros Hk Hnull. unfold InvoiceOCRResponse.model_validate.
  repeat (apply elem_of_cons in Hk as [->|Hk]).
  - now rewrite (with_default_present _ _ _ _ _ Hnull).
  - apply bind_none; intro.
    now rewrite (with_default_present _ _ _ _ _ Hnull).
  - do 2 (apply bind_none; intro).
    now rewrite (required_present _ _ _ _ Hnull).
  - do 4 (apply bind_none; intro).
    now rewrite (with_default_present _ _ _ _ _ Hnull).
  - now apply elem_of_nil in Hk.
Qed.

(** X10. A key the response carries with the value [null] is not given
    its default: when the content decodes to a dictionary in which
    [schema_version], [status], [model] or [warnings] is [null] (and
    ["data"] is absent or a dictionary), or in which [data.totals] is
    [null], [_parse_completion] fails with [ValidationError]. *)
Theorem null_is_not_defaulted (completion : json) (content : string)
    (m : gmap string json) :
  completion_content completion = Ok (JStr content) ->
  json_loads content = Some (JObj m) ->
  (exists k inner,
      k ∈ ["schema_version"; "status"; "model"; "warnings"] /\
      m !! k = Some JNull /\
      default (JObj ∅) (m !! "data") = JObj inner) \/
  (exists inner,
      m !! "data" = Some (JObj inner) /\ inner !! "totals" = Some JNull) ->
  _parse_completion settings completion =
    Raise (Exc ValidationError "validation error for InvoiceOCRResponse" None).
Proof.
  intros Hc Hs Hcase. rewrite (parse_decoded settings _ _ _ Hc Hs).
  destruct Hcase as [(k & inner & Hk & Hnull & Hinner)|(inner & Hdata & Htotals)].
  - destruct (fill_defaults_dict settings m inner Hinner)
      as (data & Hfill & Hsv & Hst & Hmo & Hwa & _ & _).
    rewrite Hfill.
    rewrite (response_rejects_null data k Hk); [reflexivity|].
    repeat (apply elem_of_cons in Hk as [->|Hk]).
    + now rewrite Hsv, Hnull.
    + now rewrite Hst, Hnull.
    + now rewrite Hmo, Hnull.
    + now rewrite Hwa, Hnull.
    + now apply elem_of_nil in Hk.
  - destruct (fill_defaults_dict settings m inner)
      as (data & Hfill & _ & _ & _ & _ & Hda & _).
    { now rewrite Hdata. }
    rewrite Hfill.
    rewrite (response_rejects_data data _ Hda); [reflexivity|].
    rewrite data_validate_setdefault.
    now apply (data_rejects_totals _ _ Htotals).
Qed.

(** X11. A response need not carry any of the declared keys: when the
    content decodes to a dictionary without them (the empty object, or
    one with other keys only), [_parse_completion] returns the record
    of an empty invoice, marked as a success of the configured model. *)
Theorem object_without_fields_is_an_empty_invoice (completion : json)
    (content : string) (m : gmap string json) :
  completion_content completion = Ok (JStr content) ->
  json_loads content = Some (JObj m) ->
  (forall k, k ∈ ["schema_version"; "status"; "model"; "data"; "warnings"; "raw_text"] ->
             m !! k = None) ->
  _parse_completion settings completion = Ok (empty_invoice settings).
Proof.
  intros Hc Hs Hnone. rewrite (parse_decoded settings _ _ _ Hc Hs).
  assert (Hk : forall k, k ∈ ["schema_version"; "status"; "model"; "data";
                               "warnings"; "raw_text"] -> m !! k = None) by exact Hnone.
  destruct (fill_defaults_dict settings m ∅)
    as (data & Hfill & Hsv & Hst & Hmo & Hwa & Hda & Hother).
  { rewrite Hk by set_solver. reflexivity. }
  rewrite Hfill.
  rewrite Hk in Hsv, Hst, Hmo, Hwa by set_solver. cbn [default from_option] in *.
  assert (Hraw : data !! "raw_text" = None).
  { rewrite Hother by discriminate. apply Hk. set_solver. }
  unfold InvoiceOCRResponse.model_validate.
  rewrite (with_default_present _ _ _ _ _ Hsv), (with_default_present _ _ _ _ _ Hst),
    (required_present _ _ _ _ Hmo), (required_present _ _ _ _ Hda),
    (with_default_present _ _ _ _ _ Hwa), (with_default_absent _ _ _ _ Hraw).
  rewrite data_validate_setdefault. reflexivity.
Qed.
End Facts.
End ParseMore.

Module PipelineMore.
Import Config Schema Rasterizer OcrClient Pipeline EffectFacts ClientFacts
       SchemaFacts ParseFacts RasterizerFacts PipelineFacts VersionFacts.

Section Facts.
Context `{!JsonLib} `{!PydanticCore} `{!Host}.
Variable settings : Settings.

Abbreviation cleanups := (count_events is_cleanup).
Abbreviation posts := (count_events is_post).
Abbreviation reads := (count_events is_read).

Lemma pdf_bytes_to_images_starts pdf dpi w :
  exists evs,
    snd (pdf_bytes_to_images pdf dpi w) = w ++ EvMkdtemp "invoice_pages_" :: evs.
Proof.
  unfold pdf_bytes_to_images, bind, call, ret.
  destruct (mkdtemp _) as [dir|e]; cbn [fst snd]; [|now exists []].
  destruct (convert_from_bytes pdf dpi) as [images|e]; cbn [fst snd].
  - destruct (save_pages_extends dir images 1 []
                ((w ++ [EvMkdtemp "invoice_pages_"]) ++ [EvConvert dpi]))
      as (evs & Hevs & _).
    destruct (save_pages dir images 1 [] _) as [[paths|e] w']; cbn [fst snd] in *.
    all: exists (EvConvert dpi :: evs); rewrite Hevs, <- !app_assoc; reflexivity.
  - exists [EvConvert dpi]. now rewrite <- app_assoc.
Qed.

(** X12. When rasterization raises, [run] raises the same exception and
    does nothing more: no image is read, no request is sent, and the
    temporary directory, whose creation is the first thing
    rasterization attempts, is not cleaned up by [run]. *)
Theorem failed_rasterization_is_not_cleaned_up (pdf_bytes : bytes) (w w1 : log)
    (e : exception) :
  pdf_bytes_to_images pdf_bytes (pdf_raster_dpi settings) w = (Raise e, w1) ->
  run settings pdf_bytes w = (Raise e, w1) /\
  (exists evs, w1 = w ++ EvMkdtemp "invoice_pages_" :: evs) /\
  cleanups w1 = cleanups w /\ reads w1 = reads w /\ posts w1 = posts w.
Proof.
  intros Hrast.
  pose proof (pdf_bytes_to_images_extends pdf_bytes (pdf_raster_dpi settings) w) as Hext.
  pose proof (pdf_bytes_to_images_starts pdf_bytes (pdf_raster_dpi settings) w) as Hstart.
  rewrite Hrast in Hext, Hstart. cbn [snd] in Hext, Hstart.
  split; [|split; [exact Hstart|]].
  - unfold run, run_try. rewrite Hrast. reflexivity.
  - repeat split; (eapply extends_count; [|exact Hext]); now intros [].
Qed.

End Facts.
End PipelineMore.

Module SchemaMore.
Import Config Schema OcrClient SchemaFacts ParseFacts CoercionFacts CoercionTheorems.

Ltac other_key :=
  match goal with
  | H : ?k ∉ _ |- <[?k := _]> _ !! _ = _ !! _ =>
      rewrite lookup_insert_ne; [reflexivity|];
      let E := fresh in intros E; apply H; rewrite E; set_solver
  end.

Section Facts.
Context `{!JsonLib} `{!PydanticCore}.
Variable settings : Settings.

Lemma required_ext {A} (m m' : gmap string json) k (f : json -> option A) :
  m' !! k = m !! k -> required m' k f = required m k f.
Proof. intros Hk. unfold required. now rewrite Hk. Qed.

(** X14. Keys that are not fields of a model are ignored by its
    validation: adding one to a dictionary, with any value, changes
    neither whether the dictionary validates nor the record. *)
Theorem unknown_keys_are_ignored (m : gmap string json) (k : string) (v : json) :
  (k ∉ ["schema_version"; "status"; "model"; "data"; "warnings"; "raw_text"] ->
   InvoiceOCRResponse.model_validate (JObj (<[k := v]> m)) =
     InvoiceOCRResponse.model_validate (JObj m)) /\
  (k ∉ ["vendor"; "customer"; "invoice_number"; "purchase_order"; "invoice_date";
        "due_date"; "terms"; "notes"; "line_items"; "totals"] ->
   InvoiceData.validate (JObj (<[k := v]> m)) = InvoiceData.validate (JObj m)) /\
  (k ∉ ["subtotal"; "tax"; "discounts"; "total"; "currency"] ->
   InvoiceTotals.validate (JObj (<[k := v]> m)) = InvoiceTotals.validate (JObj m)) /\
  (k ∉ ["description"; "quantity"; "unit_price"; "total"] ->
   InvoiceLineItem.validate (JObj (<[k := v]> m)) =
     InvoiceLineItem.validate (JObj m)) /\
  (k ∉ ["name"; "address"; "tax_id"; "email"; "phone"] ->
   InvoiceParty.validate (JObj (<[k := v]> m)) = InvoiceParty.validate (JObj m)).
Proof.
  repeat split; intros Hk.
  - unfold InvoiceOCRResponse.model_validate.
    repeat first
      [ rewrite (with_default_ext m (<[k := v]> m)) by other_key
      | rewrite (required_ext m (<[k := v]> m)) by other_key ].
    reflexivity.
  - unfold InvoiceData.validate.
    repeat (rewrite (with_default_ext m (<[k := v]> m)) by other_key).
    reflexivity.
  - unfold InvoiceTotals.validate.
    repeat (rewrite (with_default_ext m (<[k := v]> m)) by other_key).
    reflexivity.
  - unfold InvoiceLineItem.validate.
    repeat first
      [ rewrite (with_default_ext m (<[k := v]> m)) by other_key
      | rewrite (required_ext m (<[k := v]> m)) by other_key ].
    reflexivity.
  - unfold InvoiceParty.validate.
    repeat (rewrite (with_default_ext m (<[k := v]> m)) by other_key).
    reflexivity.
Qed.

(** X15. A validated [InvoiceData] holds one line item per element of
    ["line_items"], in the order of the list, each the validated form
    of its element; without the key it holds none. *)
Theorem line_items_keep_their_order (m : gmap string json) (r : InvoiceData.t) :
  InvoiceData.validate (JObj m) = Some r ->
  match m !! "line_items" with
  | Some v =>
      exists items,
        v = JArr items /\
        Forall2 (fun item validated => InvoiceLineItem.validate item = Some validated)
                items (InvoiceData.line_items r)
  | None => InvoiceData.line_items r = []
  end.
Proof.
  unfold InvoiceData.validate. intros Hr. chain_inv Hr. injection Hr as <-.
  cbn [InvoiceData.line_items].
  match goal with
  | E : with_default m "line_items" _ _ = Some _ |- _ => rename E into Hitems
  end.
  unfold with_default in Hitems. destruct (m !! "line_items") as [v|].
  - destruct v; try discriminate. cbn [list_of] in Hitems.
    apply mapM_Some in Hitems. eauto.
  - now injection Hitems as <-.
Qed.


End Facts.
End SchemaMore.

Module IndexerMore.
Import Schema Indexer IndexerFacts.

Section Facts.
Context `{!IndexLibs}.

Lemma as_2d_is_matrix a : exists ncols, as_2d a = Mat ncols (rows_of a).
Proof. destruct a; simpl; eauto. Qed.

Lemma failed_add_raw self invoices e self' :
  add_invoices self invoices = (Raise e, self') -> self' = self.
Proof.
  unfold add_invoices.
  destruct invoices as [|inv rest]; [discriminate|].
  destruct (dump_all (inv :: rest)) as [texts|e1]; [|now intros [= _ <-]].
  destruct (encode texts) as [a|e1]; [|now intros [= _ <-]].
  destruct (as_2d_is_matrix a) as (ncols & H2d). rewrite H2d.
  cbn [shape1]. unfold _ensure_index.
  destruct (_index self) as [ix|] eqn:Hix; cbn [_index].
  - rewrite Hix. destruct (index_add ix _); [discriminate|]. now intros [= _ <-].
  - unfold index_add. cbn [d]. rewrite decide_True by reflexivity. discriminate.
Qed.


Lemma append_all_zip store invoices texts :
  append_all store invoices texts =
    store ++ zip_with (fun invoice blob =>
                         {| payload := model_dump invoice; raw_text := blob |})
                      invoices texts.
Proof.
  revert store texts. induction invoices as [|inv rest IH]; intros store texts.
  - simpl. now rewrite app_nil_r.
  - destruct texts as [|blob texts']; simpl; [now rewrite app_nil_r|].
    rewrite IH. now rewrite <- app_assoc.
Qed.

Lemma dump_all_Forall2 invoices texts :
  dump_all invoices = Ok texts ->
  Forall2 (fun invoice blob => json_dumps (model_dump invoice) = Ok blob)
          invoices texts.
Proof.
  revert texts. induction invoices as [|inv rest IH]; intros texts; simpl.
  - intros [= <-]. constructor.
  - destruct (json_dumps (model_dump inv)) as [blob|e] eqn:E; simpl; [|discriminate].
    destruct (dump_all rest) as [blobs|e]; simpl; [|discriminate].
    intros [= <-]. constructor; [exact E | now apply IH].
Qed.

(** What a call that returns has done. *)
Lemma add_invoices_appends self invoices self' :
  invoices <> [] ->
  add_invoices self invoices = (Ok tt, self') ->
  exists texts a ix',
    dump_all invoices = Ok texts /\
    encode texts = Ok a /\
    _index self' = Some ix' /\
    (_index self = None -> Ok (d ix') = shape1 (as_2d a)) /\
    (forall ix, _index self = Some ix -> d ix' = d ix) /\
    _dimension self' = match _index self with
                       | Some _ => _dimension self
                       | None => Some (d ix')
                       end /\
    model_name self' = model_name self /\
    xb ix' = vectors self ++ rows_of a /\
    _store self' =
      _store self ++ zip_with (fun invoice blob =>
                                 {| payload := model_dump invoice; raw_text := blob |})
                              invoices texts.
Proof.
  intros Hne. unfold add_invoices.
  destruct invoices as [|inv rest]; [congruence|].
  destruct (dump_all (inv :: rest)) as [texts|e1] eqn:Hdump; [|discriminate].
  destruct (encode texts) as [a|e1] eqn:Henc; [|discriminate].
  destruct (as_2d_is_matrix a) as (ncols & H2d). rewrite H2d.
  cbn [shape1]. unfold _ensure_index, vectors.
  destruct (_index self) as [ix|] eqn:Hix; cbn [_index].
  - rewrite Hix. unfold index_add.
    destruct (decide (ncols = d ix)); [|discriminate].
    intros [= <-]. cbn [_index _store _dimension model_name].
    eexists texts, a, _. split_and!; try done.
    + now intros ix0 [= <-].
    + apply (append_all_zip (_store self) (inv :: rest) texts).
  - unfold index_add. cbn [d xb]. rewrite decide_True by reflexivity.
    intros [= <-]. cbn [_index _store _dimension model_name].
    eexists texts, a, _. split_and!; try done.
    + intros _. now rewrite H2d.
    + apply (append_all_zip (_store self) (inv :: rest) texts).
Qed.

(** X18. A call of [add_invoices] that returns appends: the vectors of
    the embeddings go behind the vectors the index held and the entries
    of the invoices behind the entries of the store, both in the order
    of the invoices, and an entry holds the dump of its invoice and the
    text that was embedded. When the two had as many elements before,
    the vector and the entry of an invoice are at the same position. *)
Theorem added_invoices_keep_their_positions (self self' : InvoiceFaissIndex)
    (invoices : list InvoiceOCRResponse.t) :
  invoices <> [] ->
  add_invoices self invoices = (Ok tt, self') ->
  exists texts a,
    dump_all invoices = Ok texts /\
    encode texts = Ok a /\
    vectors self' = vectors self ++ rows_of a /\
    forall i invoice,
      invoices !! i = Some invoice ->
      exists blob,
        json_dumps (model_dump invoice) = Ok blob /\
        texts !! i = Some blob /\
        _store self' !! (length (_store self) + i) =
          Some {| payload := model_dump invoice; raw_text := blob |} /\
        (lockstep self ->
         vectors self' !! (length (_store self) + i) = rows_of a !! i).
Proof.
  intros Hne Hadd.
  destruct (add_invoices_appends _ _ _ Hne Hadd)
    as (texts & a & ix' & Hdump & Henc & Hix' & _ & _ & _ & _ & Hxb & Hstore).
  exists texts, a. split; [exact Hdump|]. split; [exact Henc|].
  assert (Hvec : vectors self' = vectors self ++ rows_of a).
  { unfold vectors at 1. now rewrite Hix'. }
  split; [exact Hvec|].
  intros i invoice Hi.
  pose proof (dump_all_Forall2 _ _ Hdump) as Hall.
  destruct (Forall2_lookup_l _ _ _ _ _ Hall Hi) as (blob & Hblob & Hjson).
  exists blob. split; [exact Hjson|]. split; [exact Hblob|]. split.
  - rewrite Hstore, lookup_app_r by lia.
    replace (length (_store self) + i - length (_store self)) with i by lia.
    rewrite lookup_zip_with, Hi. cbn [mbind option_bind]. now rewrite Hblob.
  - intros Hlock. rewrite Hvec.
    assert (Hlen : length (vectors self) = length (_store self)).
    { unfold lockstep, index_size, ntotal in Hlock. unfold vectors.
      destruct (_index self); [exact Hlock | simpl in *; lia]. }
    rewrite lookup_app_r by lia. f_equal. lia.
Qed.

Lemma add_invoices_consistent self invoices :
  _dimension self = d <$> _index self ->
  (_index self = None -> _store self = []) ->
  let self' := snd (add_invoices self invoices) in
  _dimension self' = d <$> _index self' /\
  (_index self' = None -> _store self' = []) /\
  model_name self' = model_name self.
Proof.
  intros Hdim Hnone self'. subst self'.
  destruct invoices as [|inv rest]; [simpl; auto|].
  destruct (add_invoices self (inv :: rest)) as [[[]|e] self'] eqn:Hadd; cbn [snd].
  - destruct (add_invoices_appends self (inv :: rest) self' ltac:(discriminate) Hadd)
      as (texts & a & ix' & _ & _ & Hix' & _ & Hsame & Hd & Hname & _ & _).
    rewrite Hix'. split; [|split; [discriminate | exact Hname]].
    rewrite Hd. destruct (_index self) as [ix|] eqn:Hix; [|reflexivity].
    rewrite Hdim. cbn [fmap option_fmap option_map]. now rewrite (Hsame ix).
  - apply failed_add_raw in Hadd. subst self'. auto.
Qed.

(** X19. After any sequence of [add_invoices] and [drop] calls on a new
    index, the recorded dimension is the dimension of the index, which
    the first batch after the creation or a [drop] fixes; and while
    there is no index the store is empty, so that the early return of
    [query] leaves out no stored invoice. *)
Theorem index_and_store_are_consistent (name : string) (ops : list op) :
  let self := state_after (new name) ops in
  _dimension self = d <$> _index self /\
  (_index self = None -> _store self = [] /\ forall query_text top_k,
                           query self query_text top_k = Ok []) /\
  model_name self = name.
Proof.
  intros self. subst self.
  enough (Hgen : forall self,
             _dimension self = d <$> _index self ->
             (_index self = None -> _store self = []) ->
             _dimension (state_after self ops) = d <$> _index (state_after self ops) /\
             (_index (state_after self ops) = None -> _store (state_after self ops) = []) /\
             model_name (state_after self ops) = model_name self).
  { destruct (Hgen (new name)) as (Hd & Hs & Hn); [reflexivity | reflexivity |].
    split; [exact Hd|]. split; [|exact Hn].
    intros Hnone. split; [now apply Hs|].
    intros query_text top_k. unfold query. now rewrite Hnone. }
  induction ops as [|o rest IH]; intros self Hdim Hnone; [simpl; auto|].
  cbn [state_after fold_left]. change (fold_left apply_op rest ?s) with (state_after s rest).
  destruct o as [invoices|]; cbn [apply_op].
  - destruct (add_invoices_consistent self invoices Hdim Hnone) as (H1 & H2 & H3).
    destruct (IH _ H1 H2) as (H4 & H5 & H6). rewrite <- H3. auto.
  - destruct (IH (drop self)) as (H4 & H5 & H6); [reflexivity | reflexivity |].
    auto.
Qed.

Lemma entry_of_weaken held held' entry :
  held ⊆ held' -> entry_of held entry -> entry_of held' entry.
Proof. intros Hsub (inv & Hin & Hp & Hj). exists inv. auto. Qed.

Lemma add_invoices_entries self invoices held :
  Forall (entry_of held) (_store self) ->
  Forall (entry_of (held ++ invoices)) (_store (snd (add_invoices self invoices))).
Proof.
  intros Hheld.
  assert (Hold : Forall (entry_of (held ++ invoices)) (_store self)).
  { eapply Forall_impl; [exact Hheld|]. intros entry.
    apply entry_of_weaken. set_solver. }
  destruct invoices as [|inv rest]; [exact Hold|].
  destruct (add_invoices self (inv :: rest)) as [[[]|e] self'] eqn:Hadd; cbn [snd].
  - destruct (add_invoices_appends self (inv :: rest) self' ltac:(discriminate) Hadd)
      as (texts & a & ix' & Hdump & _ & _ & _ & _ & _ & _ & _ & Hstore).
    rewrite Hstore. apply Forall_app. split; [exact Hold|].
    apply Forall_forall. intros entry Hentry.
    apply list_elem_of_lookup in Hentry as (i & Hi).
    rewrite lookup_zip_with in Hi.
    destruct ((inv :: rest) !! i) as [invoice|] eqn:Hinv; [|discriminate].
    cbn [mbind option_bind] in Hi.
    destruct (texts !! i) as [blob|] eqn:Hblob; [|discriminate].
    injection Hi as <-.
    pose proof (dump_all_Forall2 _ _ Hdump) as Hall.
    destruct (Forall2_lookup_l _ _ _ _ _ Hall Hinv) as (blob' & Hblob' & Hjson).
    assert (blob' = blob) as -> by congruence.
    exists invoice. split; [|split; [reflexivity | exact Hjson]].
    apply elem_of_app. right. now apply list_elem_of_lookup_2 in Hinv.
  - apply failed_add_raw in Hadd. now subst self'.
Qed.

Lemma state_after_entries ops self held :
  Forall (entry_of held) (_store self) ->
  Forall (entry_of (since_last_drop ops held)) (_store (state_after self ops)).
Proof.
  revert self held. induction ops as [|o rest IH]; intros self held Hheld;
    [exact Hheld|].
  cbn [state_after fold_left since_last_drop].
  change (fold_left apply_op rest ?s) with (state_after s rest).
  destruct o as [invoices|]; cbn [apply_op].
  - apply IH. now apply add_invoices_entries.
  - apply IH. constructor.
Qed.

Lemma collect_from_store store indices distances results :
  Forall (fun h => exists entry, entry ∈ store /\ invoice h = payload entry) results ->
  Forall (fun h => exists entry, entry ∈ store /\ invoice h = payload entry)
         (collect store indices distances results).
Proof.
  revert distances results.
  induction indices as [|idx indices IH]; intros distances results Hres;
    [exact Hres|].
  destruct distances as [|score distances]; [exact Hres|].
  cbn [collect]. case_decide; [now apply IH|].
  destruct (store !! Z.to_nat idx) as [entry|] eqn:Hentry; [|now apply IH].
  apply IH. apply Forall_app. split; [exact Hres|].
  constructor; [|constructor]. exists entry. split; [|reflexivity].
  now apply list_elem_of_lookup_2 in Hentry.
Qed.

(** X20. After any sequence of [add_invoices] and [drop] calls on a new
    index, every entry of the store holds the dump of an invoice handed
    to [add_invoices] since the last [drop], together with the JSON
    text of that dump; and every hit a query returns carries the dump
    of such an invoice. *)
Theorem hits_are_invoices_added_since_last_drop (name : string) (ops : list op) :
  let self := state_after (new name) ops in
  let held := since_last_drop ops [] in
  Forall (entry_of held) (_store self) /\
  forall query_text top_k hits,
    query self query_text top_k = Ok hits ->
    Forall (fun h => exists invoice,
                       invoice ∈ held /\ Indexer.invoice h = model_dump invoice)
           hits.
Proof.
  intros self held.
  assert (Hstore : Forall (entry_of held) (_store self)).
  { apply state_after_entries. constructor. }
  split; [exact Hstore|].
  intros query_text top_k hits. unfold query.
  destruct (_index self) as [ix|]; [|intros [= <-]; constructor].
  destruct (encode [query_text]) as [embedding|e]; cbn [result_bind]; [|discriminate].
  destruct (search ix embedding top_k) as [[distances indices]|e];
    cbn [result_bind]; [|discriminate].
  destruct (row0 indices) as [indices0|e]; cbn [result_bind]; [|discriminate].
  destruct (row0 distances) as [distances0|e]; cbn [result_bind]; [|discriminate].
  intros [= <-].
  pose proof (collect_from_store (_store self) indices0 distances0 []
                ltac:(constructor)) as Hhits.
  eapply Forall_impl; [exact Hhits|].
  intros h (entry & Hin & Hpayload).
  rewrite Forall_forall in Hstore.
  destruct (Hstore entry Hin) as (inv & Hinv & Hdump & _).
  exists inv. split; [exact Hinv | congruence].
Qed.
End Facts.
End IndexerMore.

Module ApiFacts.
Import Config Schema Rasterizer OcrClient Pipeline Indexer Api EffectFacts
       ClientFacts SchemaFacts ParseFacts VersionFacts IndexerFacts IndexerMore.

Section Facts.
Context `{!JsonLib} `{!PydanticCore} `{!Host} `{!IndexLibs}.
Variable settings : Settings.

Lemma not_acceptable_type file :
  content_type file ∉ Some <$> accepted_types -> ~ acceptable file.
Proof. intros Hct [Hin _]. contradiction. Qed.

Lemma not_acceptable_empty file :
  content file = EmptyString -> ~ acceptable file.
Proof. intros He [_ Hne]. contradiction. Qed.

(** What the endpoint does with an upload it accepts. *)
Lemma ocr_invoice_accepted index_result file st :
  acceptable file ->
  ocr_invoice settings index_result file st =
    match run settings (content file) (world st) with
    | (Raise exc, w) =>
        (Refused {| http_status := 500; detail := str_of exc; http_cause := Some exc |},
         {| world := w;
            logged := logged st ++ [("OCR processing failed", exc)];
            faiss_index := faiss_index st |})
    | (Ok result, w) =>
        if index_result
        then
          match add_invoices (faiss_index st) [result] with
          | (Raise exc, ix) =>
              (Failed exc, {| world := w; logged := logged st; faiss_index := ix |})
          | (Ok _, ix) =>
              (Returned (model_dump result),
               {| world := w; logged := logged st; faiss_index := ix |})
          end
        else (Returned (model_dump result),
              {| world := w; logged := logged st; faiss_index := faiss_index st |})
    end.
Proof.
  intros [Hct Hne]. unfold ocr_invoice.
  rewrite bool_decide_eq_false_2 by (intros Hn; contradiction).
  destruct (decide (content file = EmptyString)); [contradiction|].
  destruct (run settings (content file) (world st)) as [[r|exc] w]; [reflexivity|].
  now rewrite all_are_exceptions.
Qed.

Lemma ocr_invoice_cases index_result file st :
  (~ acceptable file /\
   exists h, ocr_invoice settings index_result file st = (Refused h, st) /\
             http_status h = 400%Z /\ http_cause h = None /\
             detail h = if bool_decide (content_type file ∈ Some <$> accepted_types)
                        then "Uploaded file is empty"
                        else "Only PDF uploads are supported") \/
  acceptable file.
Proof.
  unfold ocr_invoice.
  destruct (decide (content_type file ∈ Some <$> accepted_types)) as [Hin|Hout].
  - rewrite bool_decide_eq_false_2 by (intros Hn; contradiction).
    rewrite bool_decide_eq_true_2 by exact Hin.
    destruct (decide (content file = EmptyString)) as [He|Hne].
    + left. split; [now apply not_acceptable_empty|]. eexists. repeat split.
    + right. now split.
  - rewrite bool_decide_eq_true_2 by exact Hout.
    rewrite bool_decide_eq_false_2 by exact Hout.
    left. split; [now apply not_acceptable_type|]. eexists. repeat split.
Qed.

(** X21. The refusals of [ocr_invoice]. A refusal with status 400 means
    that the upload has another content type than the two accepted or
    is empty, and then nothing has happened: the pipeline was not run
    and the state is as before. A refusal with status 500 means that
    the pipeline raised: the detail is the message of its exception,
    which is logged and chained, and the index is as before. There is
    no refusal with another status. *)
Theorem ocr_invoice_refusals (index_result : bool) (file : UploadFile)
    (st st' : AppState) (h : HTTPException) :
  ocr_invoice settings index_result file st = (Refused h, st') ->
  (http_status h = 400%Z /\ http_cause h = None /\ st' = st /\ ~ acceptable file /\
   detail h = if bool_decide (content_type file ∈ Some <$> accepted_types)
              then "Uploaded file is empty"
              else "Only PDF uploads are supported") \/
  (http_status h = 500%Z /\ acceptable file /\
   exists exc,
     fst (run settings (content file) (world st)) = Raise exc /\
     detail h = exc_msg exc /\
     http_cause h = Some exc /\
     world st' = snd (run settings (content file) (world st)) /\
     logged st' = logged st ++ [("OCR processing failed", exc)] /\
     faiss_index st' = faiss_index st).
Proof.
  intros Hcall.
  destruct (ocr_invoice_cases index_result file st)
    as [(Hbad & h0 & Hrun & Hstatus & Hcause & Hdetail)|Hok].
  - rewrite Hrun in Hcall. injection Hcall as <- <-. left. auto.
  - right. rewrite (ocr_invoice_accepted _ _ _ Hok) in Hcall.
    destruct (run settings (content file) (world st)) as [[r|exc] w].
    + destruct index_result; [|discriminate].
      destruct (add_invoices (faiss_index st) [r]) as [[[]|e] ix]; discriminate.
    + injection Hcall as <- <-. split; [reflexivity|]. split; [exact Hok|].
      exists exc. repeat split.
Qed.


(** X23. What [ocr_invoice] returns is the dump of the record the
    pipeline returned for the uploaded bytes, a record that passed the
    validation (no [ge=0] field is negative). Without [index_result]
    the index is as before; with it, the store has one more entry at
    its end, which holds that dump and its JSON text. *)
Theorem ocr_invoice_returns (index_result : bool) (file : UploadFile)
    (st st' : AppState) (reply : Dict) :
  ocr_invoice settings index_result file st = (Returned reply, st') ->
  acceptable file /\
  exists result,
    run settings (content file) (world st) = (Ok result, world st') /\
    reply = model_dump result /\
    ge0_fields_hold result /\
    logged st' = logged st /\
    if index_result
    then exists blob,
           json_dumps (model_dump result) = Ok blob /\
           _store (faiss_index st') =
             _store (faiss_index st)
               ++ [{| payload := model_dump result; raw_text := blob |}]
    else faiss_index st' = faiss_index st.
Proof.
  intros Hcall.
  destruct (ocr_invoice_cases index_result file st)
    as [(Hbad & h0 & Hrun & _)|Hok].
  { rewrite Hrun in Hcall. discriminate. }
  split; [exact Hok|].
  rewrite (ocr_invoice_accepted _ _ _ Hok) in Hcall.
  destruct (run settings (content file) (world st)) as [[r|e] w] eqn:Hrun;
    [|discriminate].
  assert (Hge0 : ge0_fields_hold r).
  { apply run_returns in Hrun as (paths & w1 & w2 & Hext).
    apply extract_invoice_returns in Hext as (enc & k & Hk).
    unfold attempt_result in Hk.
    destruct (completion_received settings enc k) as [completion|e];
      cbn [result_bind] in Hk; [|discriminate].
    apply parse_returns in Hk as (m & data & _ & _ & Hvalid).
    now apply (validated_ge0_fields (JObj data)). }
  destruct index_result.
  - destruct (add_invoices (faiss_index st) [r]) as [[[]|e] ix] eqn:Hadd;
      [|discriminate].
    injection Hcall as <- <-. exists r. cbn [world logged faiss_index]. cbv iota.
    do 4 (split; [first [reflexivity | exact Hge0]|]).
    destruct (add_invoices_appends _ [r] _ ltac:(discriminate) Hadd)
      as (texts & a & ix' & Hdump & _ & _ & _ & _ & _ & _ & _ & Hstore).
    cbn [dump_all] in Hdump.
    destruct (json_dumps (model_dump r)) as [blob|e]; cbn [result_bind] in Hdump;
      [|discriminate].
    injection Hdump as <-. exists blob. split; [reflexivity | exact Hstore].
  - injection Hcall as <- <-. exists r. cbn [world logged faiss_index]. cbv iota.
    do 4 (split; [first [reflexivity | exact Hge0]|]). reflexivity.
Qed.

(** X24. What [faiss_index_endpoint] returns: the status ["indexed"] and
    as count the number of entries of the store, which is one more than
    before the call, the new entry being the dump of the invoice and
    its JSON text at the end of the store. The log of the pipeline is
    not touched. *)
Theorem faiss_index_endpoint_counts (payload : FaissIndexPayload.t)
    (st st' : AppState) (reply : IndexReply) :
  faiss_index_endpoint payload st = (Returned reply, st') ->
  index_status reply = "indexed" /\
  count reply = length (_store (faiss_index st')) /\
  count reply = length (_store (faiss_index st)) + 1 /\
  (exists blob,
      json_dumps (model_dump (FaissIndexPayload.invoice payload)) = Ok blob /\
      _store (faiss_index st') =
        _store (faiss_index st)
          ++ [{| payload := model_dump (FaissIndexPayload.invoice payload);
                 raw_text := blob |}]) /\
  world st' = world st /\ logged st' = logged st.
Proof.
  unfold faiss_index_endpoint.
  destruct (add_invoices (faiss_index st) [FaissIndexPayload.invoice payload])
    as [[[]|e] ix] eqn:Hadd; [|discriminate].
  intros [= <- <-]. cbn [index_status count world logged faiss_index].
  destruct (add_invoices_appends _ [_] _ ltac:(discriminate) Hadd)
    as (texts & a & ix' & Hdump & _ & _ & _ & _ & _ & _ & _ & Hstore).
  cbn [dump_all] in Hdump.
  destruct (json_dumps _) as [blob|e]; cbn [result_bind] in Hdump; [|discriminate].
  injection Hdump as <-. cbn [zip_with] in Hstore.
  rewrite Hstore, length_app. cbn [length].
  split; [reflexivity|]. split; [reflexivity|]. split; [reflexivity|].
  split; [|split; reflexivity]. now exists blob.
Qed.

Lemma collect_length store indices distances :
  length (collect store indices distances []) <= length indices.
Proof.
  rewrite collect_acc. cbn [app].
  pose proof (omap_length_le (hit_of store) (zip indices distances)) as Hle.
  pose proof (length_zip_with pair indices distances) as Hzip.
  change (zip_with pair indices distances) with (zip indices distances) in Hzip.
  lia.
Qed.

Section Query.
Context `{!PydanticInt}.

(** X25. A body accepted as [FaissQuery] has a [top_k] from 1 to 20,
    which is 3 when the body has no such key; and, the search giving
    no more positions than it is asked for, the reply of
    [faiss_query_endpoint] to a validated query has at most [top_k],
    hence at most 20, results. The endpoint leaves the state as it
    is. *)
Theorem validated_query_is_bounded (v : json) (q : FaissQuery.t)
    (st st' : AppState) (reply : QueryReply) :
  at_most_k_positions ->
  FaissQuery.model_validate v = Some q ->
  faiss_query_endpoint q st = (Returned reply, st') ->
  (1 <= FaissQuery.top_k q <= 20)%Z /\
  (member v "top_k" = None -> FaissQuery.top_k q = 3%Z) /\
  (Z.of_nat (length (results reply)) <= FaissQuery.top_k q)%Z /\
  length (results reply) <= 20 /\
  st' = st.
Proof.
  intros Hsearch Hvalid Hcall.
  assert (Hbounds : (1 <= FaissQuery.top_k q <= 20)%Z /\
                    (member v "top_k" = None -> FaissQuery.top_k q = 3%Z)).
  { unfold FaissQuery.model_validate in Hvalid.
    destruct v as [| | | | | |m]; try discriminate.
    destruct (required m "query_text" validate_str) as [text|];
      cbn [mbind option_bind] in Hvalid; [|discriminate].
    unfold with_default in Hvalid. cbn [member as_obj mbind option_bind].
    destruct (m !! "top_k") as [k|].
    - destruct (FaissQuery.validate_int k) as [z|];
        cbn [mbind option_bind] in Hvalid; [|discriminate].
      unfold FaissQuery.in_bounds in Hvalid.
      destruct (decide (1 <= z)%Z); [|discriminate].
      destruct (decide (z <= 20)%Z); [|discriminate].
      cbn [mbind option_bind] in Hvalid. injection Hvalid as <-.
      cbn [FaissQuery.top_k]. split; [lia | discriminate].
    - cbn [mbind option_bind] in Hvalid. injection Hvalid as <-.
      cbn [FaissQuery.top_k]. split; [lia | reflexivity]. }
  destruct Hbounds as [Hk Hdefault].
  split; [exact Hk|]. split; [exact Hdefault|].
  unfold faiss_query_endpoint in Hcall.
  destruct (Indexer.query (faiss_index st) (FaissQuery.query_text q)
              (FaissQuery.top_k q)) as [hits|e] eqn:Hq; [|discriminate].
  injection Hcall as <- <-. cbn [results].
  enough (Hlen : length hits <= Z.to_nat (FaissQuery.top_k q)).
  { split; [lia|]. split; [lia | reflexivity]. }
  unfold Indexer.query in Hq.
  destruct (_index (faiss_index st)) as [ix|].
  2: { injection Hq as <-. simpl. lia. }
  destruct (encode [FaissQuery.query_text q]) as [embedding|e];
    cbn [result_bind] in Hq; [|discriminate].
  destruct (search ix embedding (FaissQuery.top_k q)) as [[distances indices]|e]
    eqn:Hs; cbn [result_bind] in Hq; [|discriminate].
  apply Hsearch in Hs.
  destruct indices as [|indices0 others]; cbn [row0 result_bind] in Hq;
    [discriminate|].
  destruct (row0 distances) as [distances0|e]; cbn [result_bind] in Hq;
    [|discriminate].
  injection Hq as <-. inversion Hs as [|? ? Hrow _]; subst.
  etransitivity; [apply collect_length | exact Hrow].
Qed.
End Query.

Lemma state_after_app (self : InvoiceFaissIndex) ops ops' :
  state_after (state_after self ops) ops' = state_after self (ops ++ ops').
Proof. unfold state_after. now rewrite fold_left_app. Qed.

Lemma serve_index st c :
  exists ops, faiss_index (serve settings st c) = state_after (faiss_index st) ops.
Proof.
  destruct c as [index_result file|payload|query|]; cbn [serve].
  - destruct (ocr_invoice_cases index_result file st)
      as [(_ & h0 & -> & _)|Hok]; [now exists []|].
    rewrite (ocr_invoice_accepted _ _ _ Hok).
    destruct (run settings (content file) (world st)) as [[r|exc] w];
      [|now exists []].
    destruct index_result; [|now exists []].
    exists [AddInvoices [r]]. cbn [state_after fold_left apply_op].
    now destruct (add_invoices (faiss_index st) [r]) as [[[]|e] ix].
  - unfold faiss_index_endpoint.
    exists [AddInvoices [FaissIndexPayload.invoice payload]].
    cbn [state_after fold_left apply_op].
    now destruct (add_invoices (faiss_index st) _) as [[[]|e] ix].
  - unfold faiss_query_endpoint. exists [].
    now destruct (Indexer.query _ _ _).
  - exists [Drop]. reflexivity.
Qed.

Lemma state_after_lockstep self ops :
  one_vector_per_text -> lockstep self -> lockstep (state_after self ops).
Proof.
  intros Hrows. revert self. induction ops as [|o rest IH]; intros self Hself;
    [exact Hself|].
  cbn [state_after fold_left]. apply IH. now apply apply_op_lockstep.
Qed.

(** X26. The application drives its index through [add_invoices] and
    [drop] only: after any sequence of requests, the index is in the
    state a sequence of such calls leaves a new index in. So, the
    embedder giving one vector per text, the similarity structure and
    the store of the application have the same number of entries after
    every request. *)
Theorem application_index_is_reachable (calls : list api_call) :
  let st := serve_all settings initial calls in
  (exists ops,
      faiss_index st =
        state_after (new "sentence-transformers/all-MiniLM-L6-v2") ops) /\
  (one_vector_per_text -> lockstep (faiss_index st)).
Proof.
  intros st.
  assert (Hops : exists ops,
             faiss_index st =
               state_after (new "sentence-transformers/all-MiniLM-L6-v2") ops).
  { subst st. change (new _) with (faiss_index initial).
    generalize initial. induction calls as [|c rest IH]; intros st0.
    - now exists [].
    - cbn [serve_all fold_left].
      change (fold_left (serve settings) rest ?s) with (serve_all settings s rest).
      destruct (IH (serve settings st0 c)) as (ops' & Hops').
      destruct (serve_index st0 c) as (ops & Hops).
      exists (ops ++ ops'). now rewrite Hops', Hops, state_after_app. }
  split; [exact Hops|].
  intros Hrows. destruct Hops as (ops & ->).
  apply state_after_lockstep; [exact Hrows | reflexivity].
Qed.
End Facts.
End ApiFacts.

Module MessageFacts.
Import Config Schema OcrClient.

Section Facts.
Variable dumps : json -> string.

Lemma append_images_map user_content encoded_images :
  append_images user_content encoded_images =
    user_content ++ map image_part encoded_images.
Proof.
  revert user_content.
  induction encoded_images as [|encoded rest IH]; intros user_content; simpl.
  - now rewrite app_nil_r.
  - rewrite IH. now rewrite <- app_assoc.
Qed.

Lemma image_part_inj : Inj (=) (=) image_part.
Proof.
  intros e1 e2 Heq. unfold image_part in Heq.
  apply (f_equal (fun v => url ← member v "image_url"; member url "url")) in Heq.
  cbn [member as_obj mbind option_bind] in Heq.
  rewrite !(lookup_insert_ne _ "type" "image_url") in Heq by discriminate.
  rewrite !lookup_singleton_eq in Heq.
  cbn [member mbind option_bind as_obj] in Heq.
  rewrite !lookup_singleton_eq in Heq.
  injection Heq as Heq. now apply (inj (String.app _)) in Heq.
Qed.

Lemma map_image_part_inj e1 e2 :
  map image_part e1 = map image_part e2 -> e1 = e2.
Proof.
  revert e2. induction e1 as [|x e1 IH]; intros [|y e2]; cbn [map];
    try discriminate.
  - reflexivity.
  - intros Heq.
    pose proof (f_equal head Heq) as Hx. pose proof (f_equal tail Heq) as Hrest.
    cbn [head tail] in Hx, Hrest.
    assert (Hx' : image_part x = image_part y) by congruence.
    f_equal; [exact (image_part_inj _ _ Hx') | exact (IH _ Hrest)].
Qed.

(** X27. The messages of a request: a system message and a user message
    whose content is one text part followed by one [image_url] part per
    encoded image, in the order of the images, each a PNG data URL of
    its image. The body of the request determines the model name and
    the encoded images, and is determined by them: two bodies are equal
    exactly when the records that stand for them are. *)
Theorem request_body_carries_the_images (s1 s2 : Settings)
    (images1 images2 : list string) :
  _build_messages s1 dumps images1 =
    JArr [JObj {[ "role" := JStr "system"; "content" := JStr system_prompt ]};
          JObj {[ "role" := JStr "user";
                  "content" := JArr (text_part s1 dumps :: map image_part images1) ]}] /\
  (forall i encoded,
      images1 !! i = Some encoded ->
      map image_part images1 !! i =
        Some (JObj {[ "type" := JStr "image_url";
                      "image_url" :=
                        JObj {[ "url" := JStr ("data:image/png;base64," +:+ encoded) ]} ]})) /\
  (post_body s1 dumps images1 = post_body s2 dumps images2 <->
   request_of s1 images1 = request_of s2 images2).
Proof.
  split; [|split].
  - unfold _build_messages. now rewrite append_images_map.
  - intros i encoded Hi. now rewrite list_lookup_fmap, Hi.
  - unfold request_of. split.
    + intros Heq. unfold post_body in Heq.
      pose proof (f_equal (fun v => member v "model") Heq) as Hmodel.
      pose proof (f_equal (fun v => msgs ← member v "messages";
                                    user ← element msgs 1;
                                    member user "content") Heq) as Hcontent.
      cbn [member as_obj mbind option_bind] in Hmodel, Hcontent.
      rewrite !lookup_insert_eq in Hmodel.
      rewrite !(lookup_insert_ne _ "model" "messages") in Hcontent by discriminate.
      rewrite !lookup_insert_eq in Hcontent.
      unfold _build_messages in Hcontent.
      cbn [element as_arr mbind option_bind lookup list_lookup as_obj] in Hcontent.
      cbn [member as_obj mbind option_bind] in Hcontent.
      rewrite !(lookup_insert_ne _ "role" "content") in Hcontent by discriminate.
      rewrite !lookup_singleton_eq, !append_images_map in Hcontent.
      injection Hmodel as Hmodel. injection Hcontent as _ Himages.
      apply map_image_part_inj in Himages. now rewrite Hmodel, Himages.
    + intros [= Hmodel Himages]. unfold post_body, _build_messages, text_part,
        schema_example. now rewrite Hmodel, Himages.
Qed.
End Facts.
End MessageFacts.

Module MoreChecks.
Import Config Schema Rasterizer OcrClient Pipeline Run.
Import EffectFacts ClientFacts SchemaFacts ParseFacts.
Import RasterizerMore ClientMore ParseMore PipelineMore SchemaMore.

Abbreviation extract host := (@extract_invoice reference_json reference_pydantic host defaults).
Abbreviation run_on host := (@run reference_json reference_pydantic host defaults).
Abbreviation parse := (@_parse_completion reference_json reference_pydantic defaults).
Abbreviation body1 :=
  {| req_model := "deepseek-ai/DeepSeek-OCR"; req_images := ["UE5H"] |}.


Lemma page_names_identify_pages_witness :
  let r := {| image_paths := [page1; page2; page3]; _tmpdir := tmpdir1 |} in
  let w' := [EvMkdtemp "invoice_pages_"; EvConvert 220;
             EvSave page1; EvSave page2; EvSave page3] in
  @pdf_bytes_to_images host_three_pages pdf1 220 [] = (Ok r, w') /\
  NoDup [page1; page2; page3] /\
  PageNames.page_number tmpdir1 page3 = Some 3%Z.
Proof.
  intros r w'.
  assert (Hrast : @pdf_bytes_to_images host_three_pages pdf1 220 [] = (Ok r, w'))
    by (vm_compute; reflexivity).
  split; [exact Hrast|].
  destruct (@page_names_identify_pages host_three_pages pdf1 220 [] w' r Hrast)
    as (Hnodup & Hnumber).
  split; [exact Hnodup|]. exact (Hnumber 2 page3 eq_refl).
Defined.

Lemma unreadable_image_sends_nothing_witness :
  let host := with_missing_file host_three_pages page2 in
  Forall (@readable host) [page1] /\
  @read_bytes host page2 = Raise no_such_file /\
  extract host [page1; page2; page3] [] = (Raise no_such_file, [EvRead page1; EvRead page2]).
Proof.
  intros host.
  assert (Hbefore : Forall (@readable host) [page1]) by (repeat constructor).
  assert (Hpath : @read_bytes host page2 = Raise no_such_file) by reflexivity.
  split; [exact Hbefore|]. split; [exact Hpath|].
  destruct (@unreadable_image_sends_nothing reference_json reference_pydantic host
              defaults [page1] [page3] page2 no_such_file [] Hbefore Hpath)
    as (Hfst & Hsnd & _).
  cbn [app] in Hfst, Hsnd.
  rewrite (surjective_pairing (extract host [page1; page2; page3] [])).
  now rewrite Hfst, Hsnd.
Defined.

Lemma extract_invoice_log_witness :
  [page1] <> [] /\
  Forall (@readable host_flaky) [page1] /\
  exists attempts,
    attempts <= 3 /\
    snd (extract host_flaky [page1] []) =
      [] ++ map EvRead [page1]
         ++ concat (map (@attempt_events reference_json reference_pydantic host_flaky
                           defaults ["UE5H"] 0 0) (seq 0 attempts)).
Proof.
  assert (Hne : [page1] <> []) by discriminate.
  assert (Hread : Forall (@readable host_flaky) [page1]) by (repeat constructor).
  split; [exact Hne|]. split; [exact Hread|].
  destruct (@extract_invoice_log reference_json reference_pydantic host_flaky defaults
              [page1] [] Hne Hread) as (attempts & Hle & Hlog & _).
  exists attempts. split; [exact Hle | exact Hlog].
Defined.

Lemma non_json_body_is_not_retried_witness :
  [page1] <> [] /\
  Forall (@readable host_html) [page1] /\
  1 <= 1 <= Z.to_nat (max_request_retries defaults) /\
  @http_post host_html body1 0 =
    Ok {| status_code := 200; text := "<html>Bad Gateway</html>" |} /\
  (200 <= 200 <= 299)%Z /\
  JsonText.loads "<html>Bad Gateway</html>" = None /\
  fst (extract host_html [page1] []) = Raise (Exc JSONDecodeError "Expecting value" None) /\
  count_events is_post (snd (extract host_html [page1] [])) = 1.
Proof.
  assert (Hne : [page1] <> []) by discriminate.
  assert (Hread : Forall (@readable host_html) [page1]) by (repeat constructor).
  assert (HN : 1 <= 1 <= Z.to_nat (max_request_retries defaults)) by (vm_compute; lia).
  assert (Hstatus : (200 <= 200 <= 299)%Z) by lia.
  assert (Hbody : JsonText.loads "<html>Bad Gateway</html>" = None)
    by (vm_compute; reflexivity).
  split; [exact Hne|]. split; [exact Hread|]. split; [exact HN|].
  split; [reflexivity|]. split; [exact Hstatus|]. split; [exact Hbody|].
  destruct (@non_json_body_is_not_retried reference_json reference_pydantic host_html
              defaults [page1] [] 1
              {| status_code := 200; text := "<html>Bad Gateway</html>" |}
              Hne Hread HN ltac:(intros i Hi; simpl in Hi; lia) eq_refl Hstatus Hbody)
    as (Hfst & Hposts & _).
  split; [exact Hfst | exact Hposts].
Defined.

Lemma transport_failures_are_retried_witness :
  [page1] <> [] /\
  Forall (@readable host_unavailable) [page1] /\
  1 <= Z.to_nat (max_request_retries defaults) /\
  count_events is_post (snd (extract host_unavailable [page1] [])) = 3 /\
  exists cause,
    fst (extract host_unavailable [page1] []) =
      Raise (Exc OCRClientError "OCR failed after retries" (Some cause)) /\
    isinstance cause HTTPError = true.
Proof.
  assert (Hne : [page1] <> []) by discriminate.
  assert (Hread : Forall (@readable host_unavailable) [page1]) by (repeat constructor).
  assert (Hn : 1 <= Z.to_nat (max_request_retries defaults)) by (vm_compute; lia).
  split; [exact Hne|]. split; [exact Hread|]. split; [exact Hn|].
  apply (@transport_failures_are_retried reference_json reference_pydantic
           host_unavailable defaults [page1] [] Hne Hread Hn).
  intros i Hi. right.
  exists {| status_code := 503; text := "Service Unavailable" |}.
  split; [reflexivity | cbn; lia].
Defined.

Lemma parse_failures_by_stage_witness :
  @completion_content (JObj ∅) = Raise (Exc KeyError "choices" None) /\
  parse (JObj ∅) =
    Raise (Exc OCRClientError "Malformed completion payload"
             (Some (Exc KeyError "choices" None))) /\
  @completion_content (completion_with "[]") = Ok (JStr "[]") /\
  JsonText.loads "[]" = Some (JArr []) /\
  exc_cls (Exc AttributeError "object has no attribute 'setdefault'" None) = AttributeError /\
  parse (completion_with "[]") =
    Raise (Exc AttributeError "object has no attribute 'setdefault'" None).
Proof.
  assert (Hc0 : @completion_content (JObj ∅) = Raise (Exc KeyError "choices" None))
    by reflexivity.
  assert (Hc1 : @completion_content (completion_with "[]") = Ok (JStr "[]"))
    by reflexivity.
  assert (Hs1 : JsonText.loads "[]" = Some (JArr [])) by reflexivity.
  split; [exact Hc0|]. split.
  - destruct (@parse_failures_by_stage reference_json reference_pydantic defaults (JObj ∅))
      as (Hstage & _).
    destruct (Hstage _ Hc0) as [(_ & Hparse & _)|(Hcls & _)];
      [exact Hparse | discriminate Hcls].
  - split; [exact Hc1|]. split; [exact Hs1|].
    destruct (@parse_failures_by_stage reference_json reference_pydantic defaults
                (completion_with "[]")) as (_ & _ & _ & Hdecoded).
    pose proof (Hdecoded "[]" (JArr []) Hc1 Hs1) as Hcase.
    cbn [fill_defaults call_setdefault result_bind] in Hcase.
    destruct Hcase as (Hparse & Hcls & _). split; [exact Hcls | exact Hparse].
Defined.

Lemma fill_defaults_idempotent_witness :
  exists data,
    fill_defaults defaults (JObj (decoded bare_invoice)) = Ok data /\
    fill_defaults defaults (JObj data) = Ok data.
Proof.
  destruct (fill_defaults defaults (JObj (decoded bare_invoice))) as [data|e] eqn:Hfill;
    [|vm_compute in Hfill; discriminate Hfill].
  exists data. split; [reflexivity|].
  exact (proj1 (fill_defaults_idempotent defaults _ _ Hfill)).
Defined.

Lemma null_is_not_defaulted_witness :
  @completion_content (completion_with null_model) = Ok (JStr null_model) /\
  JsonText.loads null_model = Some (JObj (decoded null_model)) /\
  decoded null_model !! "model" = Some JNull /\
  parse (completion_with null_model) =
    Raise (Exc ValidationError "validation error for InvoiceOCRResponse" None).
Proof.
  assert (Hc : @completion_content (completion_with null_model) = Ok (JStr null_model))
    by reflexivity.
  assert (Hs : JsonText.loads null_model = Some (JObj (decoded null_model)))
    by (vm_compute; reflexivity).
  assert (Hnull : decoded null_model !! "model" = Some JNull)
    by (vm_compute; reflexivity).
  split; [exact Hc|]. split; [exact Hs|]. split; [exact Hnull|].
  apply (@null_is_not_defaulted reference_json reference_pydantic defaults
           (completion_with null_model) null_model (decoded null_model) Hc Hs).
  left. exists "model", ∅. split; [do 2 right; left|]. split; [exact Hnull|].
  vm_compute. reflexivity.
Defined.

Lemma object_without_fields_is_an_empty_invoice_witness :
  @completion_content (completion_with unknown_keys_only) = Ok (JStr unknown_keys_only) /\
  JsonText.loads unknown_keys_only = Some (JObj {[ "note" := JStr "nothing found" ]}) /\
  parse (completion_with unknown_keys_only) = Ok (empty_invoice defaults).
Proof.
  assert (Hc : @completion_content (completion_with unknown_keys_only)
               = Ok (JStr unknown_keys_only)) by reflexivity.
  assert (Hs : JsonText.loads unknown_keys_only
               = Some (JObj {[ "note" := JStr "nothing found" ]}))
    by (vm_compute; reflexivity).
  split; [exact Hc|]. split; [exact Hs|].
  apply (@object_without_fields_is_an_empty_invoice reference_json reference_pydantic
           defaults (completion_with unknown_keys_only) unknown_keys_only _ Hc Hs).
  intros k Hk. apply lookup_singleton_ne. intros <-.
  repeat (apply elem_of_cons in Hk as [Hk|Hk]; [discriminate Hk|]).
  now apply elem_of_nil in Hk.
Defined.

Lemma failed_rasterization_is_not_cleaned_up_witness :
  @pdf_bytes_to_images host_not_a_pdf pdf1 (pdf_raster_dpi defaults) [] =
    (Raise not_a_pdf, [EvMkdtemp "invoice_pages_"; EvConvert 220]) /\
  run_on host_not_a_pdf pdf1 [] =
    (Raise not_a_pdf, [EvMkdtemp "invoice_pages_"; EvConvert 220]).
Proof.
  assert (Hrast : @pdf_bytes_to_images host_not_a_pdf pdf1 (pdf_raster_dpi defaults) [] =
                  (Raise not_a_pdf, [EvMkdtemp "invoice_pages_"; EvConvert 220]))
    by (vm_compute; reflexivity).
  split; [exact Hrast|].
  exact (proj1 (@failed_rasterization_is_not_cleaned_up reference_json
                  reference_pydantic host_not_a_pdf defaults pdf1 [] _ _ Hrast)).
Defined.


Lemma line_items_keep_their_order_witness :
  exists r,
    @InvoiceData.validate reference_pydantic (JObj (decoded two_items)) = Some r /\
    map InvoiceLineItem.description (InvoiceData.line_items r) = ["bolts"; "nuts"] /\
    exists items,
      decoded two_items !! "line_items" = Some (JArr items) /\
      Forall2 (fun item validated =>
                 @InvoiceLineItem.validate reference_pydantic item = Some validated)
              items (InvoiceData.line_items r).
Proof.
  destruct (@InvoiceData.validate reference_pydantic (JObj (decoded two_items)))
    as [r|] eqn:Hr; [|vm_compute in Hr; discriminate Hr].
  exists r. split; [reflexivity|]. split.
  - vm_compute in Hr. injection Hr as <-. reflexivity.
  - pose proof (@line_items_keep_their_order reference_pydantic _ _ Hr) as Hitems.
    destruct (decoded two_items !! "line_items") as [v|] eqn:Hv;
      [|vm_compute in Hv; discriminate Hv].
    destruct Hitems as (items & -> & Hall). exists items. split; [reflexivity | exact Hall].
Defined.

Import Indexer Api.
Import IndexerFacts IndexerMore ApiFacts.
#[local] Existing Instance small_index_libs.

Abbreviation ocr_on host :=
  (@ocr_invoice reference_json reference_pydantic host small_index_libs defaults).

Example dated_invoice_parses :
  parse (completion_with dated_invoice) = Ok dated.
Proof. vm_compute. reflexivity. Qed.


Lemma added_invoices_keep_their_positions_witness :
  [acme; globex] <> [] /\
  exists self',
    add_invoices acme_index [acme; globex] = (Ok tt, self') /\
    _store self' !! 2 = Some {| payload := globex; raw_text := "globex-corp" |}.
Proof.
  assert (Hne : [acme; globex] <> []) by discriminate.
  split; [exact Hne|].
  destruct (add_invoices acme_index [acme; globex]) as [[[]|e] self'] eqn:Hadd;
    [|vm_compute in Hadd; discriminate Hadd].
  exists self'. split; [reflexivity|].
  destruct (added_invoices_keep_their_positions _ _ _ Hne Hadd)
    as (texts & a & _ & _ & _ & Hpos).
  destruct (Hpos 1 globex eq_refl) as (blob & Hblob & _ & Hentry & _).
  vm_compute in Hblob. injection Hblob as <-. exact Hentry.
Defined.

Lemma ocr_invoice_refusals_witness :
  (exists h st', ocr_on host_down true pdf_upload initial = (Refused h, st')) /\
  forall h st',
    ocr_on host_down true pdf_upload initial = (Refused h, st') ->
    http_status h = 500%Z /\ detail h = "OCR failed after retries" /\
    faiss_index st' = faiss_index initial.
Proof.
  split.
  { do 2 eexists. vm_compute. reflexivity. }
  intros h st' Hcall.
  destruct (@ocr_invoice_refusals reference_json reference_pydantic host_down
              small_index_libs defaults true pdf_upload initial st' h Hcall)
    as [(H400 & _)|(H500 & _ & exc & Hrun & Hdetail & _ & _ & _ & Hindex)].
  - vm_compute in Hcall. injection Hcall as <- _. discriminate H400.
  - split; [exact H500|]. split; [|exact Hindex].
    rewrite Hdetail. vm_compute in Hrun. injection Hrun as <-. reflexivity.
Defined.


Lemma ocr_invoice_returns_witness :
  (exists st', ocr_on host_flaky true pdf_upload initial = (Returned (record_of "invoice_v1" "m"), st')) /\
  forall reply st',
    ocr_on host_flaky true pdf_upload initial = (Returned reply, st') ->
    acceptable pdf_upload /\
    exists blob,
      _store (faiss_index st') =
        [{| payload := record_of "invoice_v1" "m"; raw_text := blob |}].
Proof.
  split.
  { eexists. vm_compute. reflexivity. }
  intros reply st' Hcall.
  destruct (@ocr_invoice_returns reference_json reference_pydantic host_flaky
              small_index_libs defaults true pdf_upload initial st' reply Hcall)
    as (Hok & result & Hrun & _ & _ & _ & blob & _ & Hstore).
  split; [exact Hok|]. exists blob. rewrite Hstore. cbn [app initial faiss_index _store new].
  vm_compute in Hrun. now injection Hrun as <- _.
Defined.

Lemma faiss_index_endpoint_counts_witness :
  exists reply st',
    faiss_index_endpoint {| FaissIndexPayload.invoice := acme |} initial =
      (Returned reply, st') /\
    index_status reply = "indexed" /\ count reply = 1.
Proof.
  destruct (faiss_index_endpoint {| FaissIndexPayload.invoice := acme |} initial)
    as [[reply|h|e] st'] eqn:Hcall;
    [|vm_compute in Hcall; discriminate Hcall ..].
  exists reply, st'. split; [reflexivity|].
  destruct (faiss_index_endpoint_counts _ _ _ _ Hcall) as (Hstatus & _ & Hcount & _).
  split; [exact Hstatus | exact Hcount].
Defined.

Lemma validated_query_is_bounded_witness :
  let st := {| world := []; logged := []; faiss_index := acme_index |} in
  let q := {| FaissQuery.query_text := "acme"; FaissQuery.top_k := 3 |} in
  at_most_k_positions /\
  @FaissQuery.model_validate reference_int (JObj {[ "query_text" := JStr "acme" ]}) = Some q /\
  exists reply,
    faiss_query_endpoint q st = (Returned reply, st) /\
    length (results reply) <= 20.
Proof.
  intros st q.
  assert (Hsearch : at_most_k_positions).
  { intros ix embedding k distances indices [= <- <-].
    constructor; [|constructor]. now rewrite length_map, length_seq. }
  assert (Hvalid : @FaissQuery.model_validate reference_int
                     (JObj {[ "query_text" := JStr "acme" ]}) = Some q)
    by (vm_compute; reflexivity).
  split; [exact Hsearch|]. split; [exact Hvalid|].
  destruct (faiss_query_endpoint q st) as [[reply|h|e] st'] eqn:Hcall;
    [|vm_compute in Hcall; discriminate Hcall ..].
  destruct (@validated_query_is_bounded small_index_libs reference_int _ q st st' reply
              Hsearch Hvalid Hcall) as (_ & _ & _ & Hlen & ->).
  exists reply. split; [reflexivity | exact Hlen].
Defined.

End MoreChecks.
